(** * Low-cost spirometer: the sampling loop of [sketch_dec17a.ino]

    The sketch reads a differential-pressure sensor, smooths the reading,
    converts it into a flow rate, segments the flow stream into breaths and
    integrates the flow of a breath into a tidal volume.

    The embedding follows the sketch statement by statement.  The sketch
    computes on [float]; the arithmetic is kept behind the interface
    [FloatOps], with two instances:
    - [B32.ops], IEEE-754 binary32 with round-to-nearest-even, built on the
      executable specification [SpecFloat] (on the AVR boards the sketch
      targets, [float] and [double] are both 32 bits wide and [int] is 16
      bits wide); concrete runs are evaluated in it, and the sign and order
      properties are proved for it;
    - [Rops], exact real arithmetic, an idealisation of [float] without
      rounding, overflow or underflow: a statement made in it is a remark
      on the formulas of the sketch, next to the statement for binary32.
    Statements that only depend on the control flow hold for every
    instance.  [millis()] is an [unsigned long] (32 bits): clock readings are
    integers, and their differences wrap modulo [2^32].  Every call of
    [millis()] is a reading of its own: the clock may advance between two
    calls of the same pass of [loop]. *)

From Stdlib Require Import ZArith List Bool Lia.
From Stdlib Require Import Reals Lra.
From Stdlib Require Import Floats.SpecFloat.
Import ListNotations.

Set Implicit Arguments.

(** ** The arithmetic the sketch uses *)

Class FloatOps (F : Type) : Type := {
  of_int : Z -> F;           (* conversion of an integer value to [float] *)
  fadd : F -> F -> F;
  fsub : F -> F -> F;
  fmul : F -> F -> F;
  fdiv : F -> F -> F;
  fsqrt : F -> F;
  flt : F -> F -> bool;      (* [x < y] *)
  fle : F -> F -> bool       (* [x <= y] *)
}.

(** IEEE-754 binary32. *)
Module B32.
Definition prec : Z := 24.
Definition emax : Z := 128.
Abbreviation t := spec_float.

Definition of_Z (z : Z) : t := binary_normalize prec emax z 0 false.

#[global] Instance ops : FloatOps t := {|
  of_int := of_Z;
  fadd := SFadd prec emax;
  fsub := SFsub prec emax;
  fmul := SFmul prec emax;
  fdiv := SFdiv prec emax;
  fsqrt := SFsqrt prec emax;
  flt := SFltb;
  fle := SFleb
|}.

(** [x] is not NaN and carries the sign [sx]. *)
Definition signed (sx : bool) (x : t) : Prop :=
  match x with
  | S754_zero s | S754_finite s _ _ | S754_infinity s => s = sx
  | S754_nan => False
  end.

(** [x] is +0, a positive number or +infinity. *)
Definition nonneg (x : t) : Prop := signed false x.

(** [x] is NaN or [nonneg]: no comparison finds it below zero. *)
Definition not_negative (x : t) : Prop := x = S754_nan \/ nonneg x.

(** [x] is a positive finite number. *)
Definition posfin (x : t) : Prop :=
  exists m e, x = S754_finite false m e.

(** [x] is a zero or a finite number. *)
Definition finite (x : t) : bool :=
  match x with
  | S754_zero _ | S754_finite _ _ _ => true
  | _ => false
  end.

(** Structural equality. *)
Definition eqb (x y : t) : bool :=
  match x, y with
  | S754_zero s, S754_zero s' => Bool.eqb s s'
  | S754_infinity s, S754_infinity s' => Bool.eqb s s'
  | S754_nan, S754_nan => true
  | S754_finite s m e, S754_finite s' m' e' =>
      Bool.eqb s s' && Pos.eqb m m' && Z.eqb e e'
  | _, _ => false
  end.
End B32.

(** Exact real arithmetic: no rounding, no overflow, no underflow.  It
    idealises the [float] of the sketch; the arithmetic of the program is
    [B32.ops]. *)
Definition Rltb (x y : R) : bool := if Rlt_dec x y then true else false.
Definition Rleb (x y : R) : bool := if Rle_dec x y then true else false.

#[global] Instance Rops : FloatOps R := {|
  of_int := IZR;
  fadd := Rplus;
  fsub := Rminus;
  fmul := Rmult;
  fdiv := Rdiv;
  fsqrt := sqrt;
  flt := Rltb;
  fle := Rleb
|}.

(** [unsigned long] arithmetic. *)
Definition wrap32 (z : Z) : Z := z mod 2 ^ 32.

(** ** The sketch *)

Section Sketch.
Context {F : Type} {ops : FloatOps F}.

(** A decimal literal [m / 10^e], rounded once (both [m] and [10^e] are
    exactly representable for every literal of the sketch): [46.5] is
    [dec 465 1], [1000.0] is [dec 10000 1], [0.45] is [dec 45 2]. *)
Definition dec (m : Z) (e : nat) : F :=
  match e with
  | O => of_int m
  | S _ => fdiv (of_int m) (of_int (10 ^ Z.of_nat e))
  end.

(** Globals that the sketch never assigns after their initialiser. *)
Definition k_constant : F := dec 465 1.        (* 46.5 *)
Definition VOLUME_SCALER : F := dec 17 1.      (* 1.7 *)
Definition alpha : F := dec 1 1.               (* 0.1 *)
Definition START_THRESHOLD : F := dec 20 1.    (* 2.0 *)
Definition CUTOFF_THRESHOLD : F := dec 10 1.   (* 1.0 *)
Definition BREATH_TIMEOUT : Z := 1000.

(** The mutable globals. *)
Record State : Type := mkState {
  sensorOffset : F;
  filteredValue : F;
  previousMillis : Z;
  lastDisplayTime : Z;
  breathStopTimer : Z;
  currentVol : F;
  peakFlow : F;
  previousFlow : F;
  isBreathing : bool
}.

(** What the display receives. *)
Inductive Event : Type :=
| Results (peak vol : F)      (* [showResultsWindow] *)
| Live (flow vol : F).        (* [updateLiveScreen] *)

(** The readings of [millis()] that one pass of [loop] can take, in program
    order.  A reading whose call is not reached is not used. *)
Record Clock : Type := mkClock {
  t_loop : Z;      (* line 75: [currentMillis] *)
  t_start : Z;     (* line 105: [breathStopTimer = millis()] *)
  t_stop : Z;      (* line 124: [millis() - breathStopTimer] *)
  t_reset : Z;     (* line 208: [previousMillis = millis()], after the button *)
  t_disp : Z;      (* line 137: [millis() - lastDisplayTime] *)
  t_shown : Z      (* line 139: [lastDisplayTime = millis()] *)
}.

(** The inputs of one pass: the value of [analogRead] and the clock. *)
Record Tick : Type := mkTick { raw : Z; clk : Clock }.

(** [setup]: the offset is the sum of 50 readings divided by [50.0]. *)
Definition setup (reads : list Z) (t0 : Z) : State :=
  let total := fold_left Z.add (firstn 50 reads) 0%Z in
  {| sensorOffset := fdiv (of_int total) (dec 500 1);          (* / 50.0 *)
     filteredValue := dec 0 0;
     previousMillis := t0;
     lastDisplayTime := 0;
     breathStopTimer := 0;
     currentVol := dec 0 0;
     peakFlow := dec 0 0;
     previousFlow := dec 0 0;
     isBreathing := false |}.

(** Steps 2 and 3 of [loop]: offset, deadzone. *)
Definition adjusted (offset : F) (rawv : Z) : F :=
  let rawValue := of_int rawv in
  let adjustedValue := fsub rawValue offset in
  if flt adjustedValue (dec 54 1) (* 5.4 *) then of_int 0 else adjustedValue.

(** Exponential smoothing (line 91). *)
Definition smooth (previous adjustedValue : F) : F :=
  fadd (fmul previous (fsub (dec 10 1) alpha)) (fmul adjustedValue alpha).

(** Step 4: pressure and flow. *)
Definition pressure (filtered : F) : F :=
  let voltage := fmul filtered (fdiv (dec 50 1) (dec 10230 1)) in
                                        (* 5.0 / 1023.0 *)
  fmul (fdiv voltage (dec 45 2)) (dec 10000 1).     (* / 0.45 * 1000.0 *)

Definition flowOf (filtered : F) : F :=
  let pressurePa := pressure filtered in
  if flt (of_int 0) pressurePa
  then fmul k_constant (fsqrt (fdiv pressurePa (dec 10000 1)))
  else of_int 0.

(** The flow rate computed by a pass from state [s] on input [i]. *)
Definition tick_filtered (s : State) (i : Tick) : F :=
  smooth (filteredValue s) (adjusted (sensorOffset s) (raw i)).

Definition tick_flow (s : State) (i : Tick) : F :=
  flowOf (tick_filtered s i).

(** Step 1: the elapsed time in seconds. *)
Definition tick_dt (s : State) (i : Tick) : F :=
  fdiv (of_int (wrap32 (t_loop (clk i) - previousMillis s)))
       (dec 10000 1).                                    (* / 1000.0 *)

(** Step 5: the volume of one trapezoid. *)
Definition increment (flowRate previous dt : F) : F :=
  let averageFlow := fdiv (fadd flowRate previous) (dec 20 1) in   (* / 2.0 *)
  let instantVol := fmul (fdiv averageFlow (dec 600 1)) dt in      (* / 60.0 *)
  fmul instantVol VOLUME_SCALER.

(** [showResultsWindow]: shows the summary, waits for the button, then
    restarts the clock baseline and clears the filter. *)
Definition showResultsWindow (s : State) (now : Z) : State * list Event :=
  ({| sensorOffset := sensorOffset s;
      filteredValue := of_int 0;
      previousMillis := now;
      lastDisplayTime := lastDisplayTime s;
      breathStopTimer := breathStopTimer s;
      currentVol := currentVol s;
      peakFlow := peakFlow s;
      previousFlow := of_int 0;
      isBreathing := isBreathing s |},
   [Results (peakFlow s) (currentVol s)]).

(** Lines 74-118: time, sensor, deadzone, smoothing, physics, start of a
    breath and integration. *)
Definition measure (s : State) (i : Tick) : State :=
  let dt := tick_dt s i in
  let filtered := tick_filtered s i in
  let flowRate := flowOf filtered in
  let start := flt START_THRESHOLD flowRate in
  let breathing := if start then true else isBreathing s in
  {| sensorOffset := sensorOffset s;
     filteredValue := filtered;
     previousMillis := t_loop (clk i);
     lastDisplayTime := lastDisplayTime s;
     breathStopTimer := if start then t_start (clk i) else breathStopTimer s;
     currentVol :=
       if breathing && flt CUTOFF_THRESHOLD flowRate
       then fadd (currentVol s) (increment flowRate (previousFlow s) dt)
       else currentVol s;
     peakFlow :=
       if start && flt (peakFlow s) flowRate then flowRate else peakFlow s;
     previousFlow := flowRate;
     isBreathing := breathing |}.

(** The guard of the stop logic (lines 121-124), on the state left by
    [measure]. *)
Definition stops (s1 : State) (flowRate : F) (i : Tick) : bool :=
  isBreathing s1 && fle flowRate CUTOFF_THRESHOLD
  && (BREATH_TIMEOUT <? wrap32 (t_stop (clk i) - breathStopTimer s1))%Z.

(** Lines 120-134. *)
Definition stop_logic (s1 : State) (flowRate : F) (i : Tick)
  : State * list Event :=
  if stops s1 flowRate i then
    let (s2, ev) := showResultsWindow s1 (t_reset (clk i)) in
    ({| sensorOffset := sensorOffset s2;
        filteredValue := of_int 0;
        previousMillis := previousMillis s2;
        lastDisplayTime := lastDisplayTime s2;
        breathStopTimer := breathStopTimer s2;
        currentVol := of_int 0;
        peakFlow := of_int 0;
        previousFlow := of_int 0;
        isBreathing := false |}, ev)
  else (s1, []).

(** [updateLiveScreen]: the live window shows the flow and the volume. *)
Definition updateLiveScreen (s : State) (flow : F) : list Event :=
  [Live flow (currentVol s)].

(** Lines 136-140. *)
Definition refresh (s2 : State) (flowRate : F) (i : Tick)
  : State * list Event :=
  if (150 <? wrap32 (t_disp (clk i) - lastDisplayTime s2))%Z then
    ({| sensorOffset := sensorOffset s2;
        filteredValue := filteredValue s2;
        previousMillis := previousMillis s2;
        lastDisplayTime := t_shown (clk i);
        breathStopTimer := breathStopTimer s2;
        currentVol := currentVol s2;
        peakFlow := peakFlow s2;
        previousFlow := previousFlow s2;
        isBreathing := isBreathing s2 |},
     updateLiveScreen s2 flowRate)
  else (s2, []).

(** One pass of [loop]. *)
Definition loop (s : State) (i : Tick) : State * list Event :=
  let flowRate := tick_flow s i in
  let s1 := measure s i in
  let (s2, ev2) := stop_logic s1 flowRate i in
  let (s3, ev3) := refresh s2 flowRate i in
  (s3, ev2 ++ ev3).

(** Repeated passes. *)
Fixpoint run (s : State) (ticks : list Tick) : State * list Event :=
  match ticks with
  | [] => (s, [])
  | i :: rest =>
      let (s', ev) := loop s i in
      let (s'', ev') := run s' rest in
      (s'', ev ++ ev')
  end.

Definition is_results (e : Event) : bool :=
  match e with Results _ _ => true | Live _ _ => false end.

(** The finalized-breath summaries among the events. *)
Definition summaries (ev : list Event) : list Event := filter is_results ev.

(** Whether the pass from [s] on [i] ends a breath. *)
Definition ends_breath (s : State) (i : Tick) : bool :=
  stops (measure s i) (tick_flow s i) i.


End Sketch.

Arguments State F : clear implicits.
Arguments Event F : clear implicits.

(** The order laws the thresholds rely on; both arithmetics satisfy them. *)
Class FloatOrder (F : Type) {ops : FloatOps F} : Prop := {
  flt_asym : forall x y : F, flt x y = true -> flt y x = false;
  flt_trans : forall x y z : F,
      flt x y = true -> flt y z = true -> flt x z = true;
  fle_not_gt : forall x y : F, fle x y = true -> flt y x = false;
  cutoff_lt_start :
    flt (CUTOFF_THRESHOLD (F:=F)) START_THRESHOLD = true
}.

Arguments FloatOrder F {ops}.

(** The range of [analogRead] (a 10-bit converter). *)
Definition adc_sample (i : Tick) : Prop := (0 <= raw i <= 1023)%Z.

(** Every value of the converter. *)
Definition adc_values : list Z := map Z.of_nat (seq 0 1024).

(** ** Observing a run *)

Section Observations.
Context {F : Type} {ops : FloatOps F}.

(** What one pass shows: the time read at its top, the flow rate it
    computed, and the session after it. *)
Record Obs : Type := mkObs {
  o_time : Z;
  o_flow : F;
  o_vol : F;
  o_peak : F;
  o_breathing : bool;     (* [isBreathing] after the pass *)
  o_ended : bool          (* the pass finalized a breath *)
}.

Definition obs_of (s : State F) (i : Tick) : Obs :=
  let s' := fst (loop s i) in
  {| o_time := t_loop (clk i);
     o_flow := tick_flow s i;
     o_vol := currentVol s';
     o_peak := peakFlow s';
     o_breathing := isBreathing s';
     o_ended := ends_breath s i |}.

Fixpoint observe (s : State F) (ticks : list Tick) : list Obs :=
  match ticks with
  | [] => []
  | i :: rest => obs_of s i :: observe (fst (loop s i)) rest
  end.

(** No pass of the run computes a flow above the start threshold. *)
Fixpoint quiet (s : State F) (ticks : list Tick) : Prop :=
  match ticks with
  | [] => True
  | i :: rest =>
      flt START_THRESHOLD (tick_flow s i) = false /\ quiet (fst (loop s i)) rest
  end.

(** The states a powered-up device can be in. *)
Definition reachable (s : State F) : Prop :=
  exists reads t0 ticks, s = fst (run (setup reads t0) ticks).

(** The session without the display bookkeeping. *)
Definition core (s : State F) : F * F * Z * Z * F * F * F * bool :=
  (sensorOffset s, filteredValue s, previousMillis s, breathStopTimer s,
   currentVol s, peakFlow s, previousFlow s, isBreathing s).

(** Two inputs that agree on the sample and on every clock reading but
    those of the display refresh. *)
Definition same_core_input (i1 i2 : Tick) : Prop :=
  raw i1 = raw i2 /\
  t_loop (clk i1) = t_loop (clk i2) /\
  t_start (clk i1) = t_start (clk i2) /\
  t_stop (clk i1) = t_stop (clk i2) /\
  t_reset (clk i1) = t_reset (clk i2).

End Observations.

Arguments Obs F : clear implicits.

(** ** The statements of the specification, as properties of the sketch *)

Section Statements.
Context {F : Type} {ops : FloatOps F}.

(** Breath-end timing as the specification words it: a pass finalizes a
    breath only when every pass of the preceding [BREATH_TIMEOUT]
    milliseconds (up to a tolerance [tol]) had a flow at or below the cutoff
    threshold. *)
Definition ends_only_after_timeout_below_cutoff
    (tol : Z) (tr : list (Obs F)) : Prop :=
  forall j oj k ok,
    nth_error tr j = Some oj -> o_ended oj = true ->
    (k <= j)%nat -> nth_error tr k = Some ok ->
    (o_time oj - o_time ok + tol < BREATH_TIMEOUT)%Z ->
    fle (o_flow ok) CUTOFF_THRESHOLD = true.

(** The deadzone as the specification words it: a sample forced to 0 gives
    a flow of exactly 0 in the same pass. *)
Definition deadzone_zeroes_flow (s : State F) (i : Tick) : Prop :=
  flt (fsub (of_int (raw i)) (sensorOffset s)) (dec 54 1) = true ->
  tick_flow s i = of_int 0.

(** The volume of a pass as the specification words it: the increment is
    added when the session is breathing and the flow is above the cutoff,
    and the volume is unchanged by every other pass. *)
Definition volume_only_integrates (s : State F) (i : Tick) : Prop :=
  currentVol (fst (loop s i)) =
  if isBreathing (measure s i) && flt CUTOFF_THRESHOLD (tick_flow s i)
  then fadd (currentVol s)
            (increment (tick_flow s i) (previousFlow s) (tick_dt s i))
  else currentVol s.

(** Determinism as the specification words it: the samples and one
    timestamp per pass fix what the run shows. *)
Definition determined_by_tick_time (s : State F) : Prop :=
  forall ticks1 ticks2,
    map raw ticks1 = map raw ticks2 ->
    map (fun i => t_loop (clk i)) ticks1 = map (fun i => t_loop (clk i)) ticks2 ->
    observe s ticks1 = observe s ticks2.


End Statements.

(** ** Concrete runs, evaluated in binary32 *)

Module Scenario.

(** A pass during which the millisecond clock does not advance. *)
Definition at_time (r t : Z) : Tick := mkTick r (mkClock t t t t t t).

(** Calibration in still air, the sensor reading 500. *)
Definition power_up : State B32.t := setup (repeat 500%Z 50) 0.

(** One sample at 600, then still air; a pass every 50 ms, the last one at
    3000 ms. *)
Definition breath : list Tick :=
  at_time 600 50 ::
  map (fun n => at_time 500 (50 * Z.of_nat n)) (seq 2 59).

(** The same samples at the same pass times; in the pass at 2950 ms the
    clock advances by one millisecond before the stop logic reads it. *)
Definition breath_clock_advances : list Tick :=
  firstn 58 breath ++
  mkTick 500 (mkClock 2950 2950 2951 2951 2951 2951) ::
  skipn 59 breath.

(** The session after the first [n] passes of [breath]. *)
Definition after (n : nat) : State B32.t :=
  fst (run power_up (firstn n breath)).

(** What [breath] shows, pass by pass. *)
Definition breath_obs : list (Obs B32.t) := observe power_up breath.

(** The same run with other clock readings at the display refresh. *)
Definition breath_other_refresh : list Tick :=
  map (fun i => mkTick (raw i)
                  (mkClock (t_loop (clk i)) (t_start (clk i)) (t_stop (clk i))
                           (t_reset (clk i)) (t_disp (clk i) + 7)
                           (t_shown (clk i) + 9)))
      breath.



End Scenario.

(** A session at rest under exact arithmetic: idle, the filter at 0, the
    offset at the reading [r]. *)
Definition at_rest (r : Z) (s : State R) : Prop :=
  sensorOffset s = IZR r /\ filteredValue s = 0%R /\ isBreathing s = false.

(** The same in binary32. *)
Definition at_rest32 (r : Z) (s : State B32.t) : Prop :=
  sensorOffset s = B32.of_Z r /\ filteredValue s = S754_zero false /\
  isBreathing s = false.

(** The sign invariant of the session in binary32. *)
Definition session_signed (s : State B32.t) : Prop :=
  B32.not_negative (currentVol s) /\ B32.nonneg (previousFlow s).

(** The invariant of the filter in binary32. *)
Definition filter_signed (s : State B32.t) : Prop :=
  sensorOffset s <> S754_nan /\ B32.nonneg (filteredValue s).

(** ** Values of binary32 numbers *)

(** The real value of a power of two and of a binary32 number (0 for the
    infinities and NaN). *)
Definition bpow (e : Z) : R := powerRZ 2 e.

Definition B2R (x : spec_float) : R :=
  match x with
  | S754_finite s m e => ((if s then -1 else 1) * IZR (Zpos m) * bpow e)%R
  | _ => 0%R
  end.

(** The relative rounding error of binary32, the absolute one near zero,
    and a magnitude below which no operation overflows. *)
Definition eps : R := bpow (-23).
Definition delta : R := bpow (-149).
Definition big : R := bpow 105.

(** Not NaN, not infinite, sign positive, value at most [a]. *)
Definition bounded (x : B32.t) (a : R) : Prop :=
  B32.nonneg x /\ B32.finite x = true /\ (B2R x <= a)%R.

(** A calibration reading in the range of the converter. *)
Definition adc_read (r : Z) : Prop := (0 <= r <= 1023)%Z.

(** The magnitude invariant of the session in binary32. *)
Definition session_bounded (s : State B32.t) : Prop :=
  B32.nonneg (sensorOffset s) /\ bounded (filteredValue s) 2048 /\
  bounded (previousFlow s) 5000 /\ B32.nonneg (currentVol s).

(** The invariant of the session under exact arithmetic. *)
Definition session_ok (s : State R) : Prop :=
  (0 <= filteredValue s /\ 0 <= currentVol s /\ 0 <= peakFlow s /\
   previousFlow s = flowOf (filteredValue s))%R.

(** ** Further definitions: the display, the breath state, the bar *)

Section Display.
Context {F : Type} {ops : FloatOps F}.

(** The live-window events among the events. *)
Definition lives (ev : list (Event F)) : list (Event F) :=
  filter (fun e => negb (is_results e)) ev.

(** The guard of the display refresh (line 137), read on the session before
    the pass. *)
Definition refresh_due (s : State F) (i : Tick) : bool :=
  (150 <? wrap32 (t_disp (clk i) - lastDisplayTime s))%Z.

(** The flow rates computed by the passes of a run. *)
Definition flows (s : State F) (ticks : list Tick) : list F :=
  map (@o_flow F) (observe s ticks).

(** Two idle sessions that differ at most in the stop timer and in the
    display bookkeeping. *)
Definition idle_alike (s1 s2 : State F) : Prop :=
  sensorOffset s1 = sensorOffset s2 /\ filteredValue s1 = filteredValue s2 /\
  previousMillis s1 = previousMillis s2 /\ currentVol s1 = currentVol s2 /\
  peakFlow s1 = peakFlow s2 /\ previousFlow s1 = previousFlow s2 /\
  isBreathing s1 = false /\ isBreathing s2 = false.

End Display.

Section BreathStateDefs.
Context {F : Type} {ops : FloatOps F}.

(** The invariant of the breath state: an idle session holds no volume and
    no peak; the peak of a breathing session is above the start threshold. *)
Definition breath_state_ok (s : State F) : Prop :=
  (isBreathing s = false ->
   currentVol s = of_int 0 /\ peakFlow s = of_int 0) /\
  (isBreathing s = true -> flt START_THRESHOLD (peakFlow s) = true).

(** Every summary among the events reports a peak above the start
    threshold. *)
Definition peaks_above_start (ev : list (Event F)) : Prop :=
  Forall (fun e => match e with
                   | Results peak _ => flt START_THRESHOLD peak = true
                   | Live _ _ => True
                   end) ev.
End BreathStateDefs.

Section PeakDef.
Context {F : Type} {ops : FloatOps F}.

(** The peak of a session against the flows [fl] computed since it was last
    idle: within a breath the peak is one of them and none is larger;
    outside a breath none is above the start threshold. *)
Definition peak_is_max (s : State F) (fl : list F) : Prop :=
  if isBreathing s
  then In (peakFlow s) fl /\ Forall (fun f => fle f (peakFlow s) = true) fl
  else Forall (fun f => fle f START_THRESHOLD = true) fl.

End PeakDef.

(** The invariant of a session calibrated and fed within the range of the
    converter, under exact arithmetic. *)
Definition session_in_range (s : State R) : Prop :=
  (0 <= sensorOffset s <= 1023 /\ 0 <= filteredValue s <= 1023 /\
   peakFlow s <= 155 /\ previousFlow s = flowOf (filteredValue s))%R.

(** The peak of a binary32 session is a finite number of at most 5000. *)
Definition peak_bounded (s : State B32.t) : Prop := bounded (peakFlow s) 5000.

(** ** The binary32 session in numbers *)

(** The deadzone test of the sketch on the sample of a pass, against the
    offset of the session [s]. *)
Definition in_deadzone {F : Type} {ops : FloatOps F} (s : State F) (i : Tick)
  : Prop :=
  flt (fsub (of_int (raw i)) (sensorOffset s)) (dec 54 1) = true.

(** The factor by which the value of the binary32 filter shrinks in a pass
    whose sample is in the deadzone: 0.9, and one rounding. *)
Definition decay_rate : R := (9 / 10 * (1 + eps))%R.

(** The sharper magnitude invariant of the binary32 session: the filter
    within a tenth of a count of the full scale, the peak within a
    hundredth of the full-scale flow. *)
Definition session_tight (s : State B32.t) : Prop :=
  B32.nonneg (sensorOffset s) /\ bounded (filteredValue s) 1023.1 /\
  bounded (peakFlow s) 155.01.

(** A finite binary32 number in the form the comparison relies on: a
    mantissa of at least 24 bits, or the smallest exponent. *)
Definition normal_or_tiny (x : B32.t) : Prop :=
  match x with
  | S754_finite _ m e => (2 ^ 23 <= Zpos m)%Z \/ (e <= -149)%Z
  | _ => True
  end.

(** Every flow that the events show, the peak of a results window and the
    flow of a live window, is a finite number between 0 and [b]. *)
Definition shown_within (b : R) (ev : list (Event B32.t)) : Prop :=
  Forall (fun e => match e with
                   | Results peak _ => bounded peak b
                   | Live flow _ => bounded flow b
                   end) ev.

(** A session whose millisecond clock has wrapped: the previous pass ran 10
    ms before the rollover of the 32-bit counter. *)
Definition before_rollover : State B32.t :=
  mkState (B32.of_Z 500) (B32.of_Z 0) 4294967286 4294967286 4294967286
          (B32.of_Z 0) (B32.of_Z 0) (B32.of_Z 0) true.

(** The differences of two values of the converter. *)
Definition count_differences : list Z :=
  map (fun n => (Z.of_nat n - 1023)%Z) (seq 0 2047).

(** The binary32 number of a positive count [a]: a 24-bit mantissa and its
    exponent. *)
Definition count_float (a : Z) : B32.t :=
  S754_finite false (Z.to_pos (a * 2 ^ (23 - Z.log2 a))) (Z.log2 a - 23).

(** ** The bar of the live window *)

(** The conversion of a [float] to [int] truncates toward zero (it is
    undefined in C for a value outside the range of [int]; the statements
    below first place the value in that range). *)
Class FloatToInt (F : Type) : Type := { to_int : F -> Z }.

Definition trunc32 (x : B32.t) : Z :=
  match x with
  | S754_finite s m e =>
      let a := match e with
               | Zneg p => (Zpos m / 2 ^ Zpos p)%Z
               | _ => (Zpos m * 2 ^ e)%Z
               end in
      if s then (- a)%Z else a
  | _ => 0%Z
  end.

#[global] Instance to_int32 : FloatToInt B32.t := {| to_int := trunc32 |}.

Definition Rtrunc (x : R) : Z :=
  if Rle_dec 0 x then Int_part x else (- Int_part (- x))%Z.

#[global] Instance to_intR : FloatToInt R := {| to_int := Rtrunc |}.

(** [map] of the Arduino core, on [long]: a linear rescaling with a
    truncating division. *)
Definition arduino_map (x in_min in_max out_min out_max : Z) : Z :=
  (Z.quot ((x - in_min) * (out_max - out_min)) (in_max - in_min)
   + out_min)%Z.

Section Bar.
Context {F : Type} {ops : FloatOps F} {cv : FloatToInt F}.

(** Lines 162-164 of [updateLiveScreen], on the session the call sees. *)
Definition maxScale (s : State F) : Z :=
  if flt (of_int 100) (peakFlow s) then 600%Z else 100%Z.

Definition barFlow (s : State F) (flow : F) : Z :=
  let b := to_int flow in
  if (maxScale s <? b)%Z then maxScale s else b.

Definition barWidth (s : State F) (flow : F) : Z :=
  arduino_map (barFlow s flow) 0 (maxScale s) 0 128.

End Bar.

(** * Properties *)

(** ** Structure of one pass, for every arithmetic *)

Section Structure.
Context {F : Type} {ops : FloatOps F}.
Implicit Types (s : State F) (i : Tick).

Lemma loop_state s i :
  core (fst (loop s i)) =
  if ends_breath s i
  then (sensorOffset s, of_int 0, t_reset (clk i),
        breathStopTimer (measure s i), of_int 0, of_int 0, of_int 0, false)
  else core (measure s i).
Proof.
  unfold loop, stop_logic, ends_breath, refresh.
  destruct (stops (measure s i) (tick_flow s i) i); cbn [showResultsWindow];
    match goal with
    | |- context [(150 <? ?x)%Z] => destruct (150 <? x)%Z
    end; reflexivity.
Qed.

Lemma loop_summaries s i :
  summaries (snd (loop s i)) =
  if ends_breath s i
  then [Results (peakFlow (measure s i)) (currentVol (measure s i))]
  else [].
Proof.
  unfold loop, stop_logic, ends_breath, refresh.
  destruct (stops (measure s i) (tick_flow s i) i); cbn [showResultsWindow];
    match goal with
    | |- context [(150 <? ?x)%Z] => destruct (150 <? x)%Z
    end; reflexivity.
Qed.

(** Field-wise readings of [loop_state]. *)
Lemma core_inj s a b c d e f g h :
  core s = (a, b, c, d, e, f, g, h) ->
  sensorOffset s = a /\ filteredValue s = b /\ previousMillis s = c /\
  breathStopTimer s = d /\ currentVol s = e /\ peakFlow s = f /\
  previousFlow s = g /\ isBreathing s = h.
Proof. unfold core; intros H; inversion H; repeat split. Qed.

Lemma loop_fields s i :
  let s' := fst (loop s i) in
  let s1 := measure s i in
  let e := ends_breath s i in
  sensorOffset s' = sensorOffset s /\
  filteredValue s' = (if e then of_int 0 else tick_filtered s i) /\
  previousMillis s' = (if e then t_reset (clk i) else t_loop (clk i)) /\
  breathStopTimer s' = breathStopTimer s1 /\
  currentVol s' = (if e then of_int 0 else currentVol s1) /\
  peakFlow s' = (if e then of_int 0 else peakFlow s1) /\
  previousFlow s' = (if e then of_int 0 else tick_flow s i) /\
  isBreathing s' = (if e then false else isBreathing s1).
Proof.
  cbv zeta. pose proof (loop_state s i) as H.
  destruct (ends_breath s i); apply core_inj in H;
    cbn [measure sensorOffset filteredValue previousMillis breathStopTimer
         currentVol peakFlow previousFlow isBreathing] in *;
    intuition.
Qed.

Lemma run_cons s i rest :
  run s (i :: rest) =
  (fst (run (fst (loop s i)) rest),
   snd (loop s i) ++ snd (run (fst (loop s i)) rest)).
Proof.
  cbn [run]. destruct (loop s i) as [s' ev]. cbn [fst snd].
  destruct (run s' rest) as [s'' ev']. reflexivity.
Qed.

Lemma run_app s l1 l2 :
  run s (l1 ++ l2) =
  (fst (run (fst (run s l1)) l2),
   snd (run s l1) ++ snd (run (fst (run s l1)) l2)).
Proof.
  revert s; induction l1 as [|i l1 IH]; intros s.
  - cbn. destruct (run s l2); reflexivity.
  - rewrite <- app_comm_cons, !run_cons, IH. cbn [fst snd].
    now rewrite app_assoc.
Qed.

Lemma summaries_app (e1 e2 : list (Event F)) :
  summaries (e1 ++ e2) = summaries e1 ++ summaries e2.
Proof. apply filter_app. Qed.

Lemma reachable_setup reads t0 : reachable (setup (F:=F) reads t0).
Proof. exists reads, t0, []. reflexivity. Qed.

Lemma reachable_loop s i : reachable s -> reachable (fst (loop s i)).
Proof.
  intros (reads & t0 & ticks & ->). exists reads, t0, (ticks ++ [i]).
  rewrite run_app. cbn [fst]. rewrite run_cons. reflexivity.
Qed.

Lemma reachable_run s ticks : reachable s -> reachable (fst (run s ticks)).
Proof.
  intros (reads & t0 & ticks0 & ->). exists reads, t0, (ticks0 ++ ticks).
  now rewrite run_app.
Qed.

(** An invariant of [setup] and [loop] holds in every reachable state. *)
Lemma reachable_ind (P : State F -> Prop) :
  (forall reads t0, P (setup reads t0)) ->
  (forall s i, P s -> P (fst (loop s i))) ->
  forall s, reachable s -> P s.
Proof.
  intros Hinit Hstep s (reads & t0 & ticks & ->).
  generalize (Hinit reads t0). generalize (setup (F:=F) reads t0).
  induction ticks as [|i ticks IH]; intros s0 H0.
  - exact H0.
  - rewrite run_cons. cbn [fst]. apply IH, Hstep, H0.
Qed.

(** The start step (lines 103-107) read off [measure]. *)
Lemma measure_breathing s i :
  isBreathing (measure s i) =
  (flt START_THRESHOLD (tick_flow s i) || isBreathing s).
Proof.
  unfold measure, tick_flow. cbn [isBreathing].
  destruct (flt START_THRESHOLD _); reflexivity.
Qed.

Lemma measure_timer s i :
  breathStopTimer (measure s i) =
  if flt START_THRESHOLD (tick_flow s i) then t_start (clk i)
  else breathStopTimer s.
Proof. reflexivity. Qed.

Lemma ends_breath_spec s i :
  ends_breath s i =
  (flt START_THRESHOLD (tick_flow s i) || isBreathing s)
  && fle (tick_flow s i) CUTOFF_THRESHOLD
  && (BREATH_TIMEOUT <?
      wrap32 (t_stop (clk i) -
              (if flt START_THRESHOLD (tick_flow s i) then t_start (clk i)
               else breathStopTimer s)))%Z.
Proof.
  unfold ends_breath, stops. now rewrite measure_breathing, measure_timer.
Qed.

(** A quiet run leaves the stop timer alone. *)
Lemma quiet_timer s ticks :
  quiet s ticks -> breathStopTimer (fst (run s ticks)) = breathStopTimer s.
Proof.
  revert s; induction ticks as [|i ticks IH]; intros s; cbn [quiet].
  - reflexivity.
  - intros [Hq Hrest]. rewrite run_cons. cbn [fst]. rewrite (IH _ Hrest).
    destruct (loop_fields s i) as (_ & _ & _ & Ht & _). rewrite Ht.
    now rewrite measure_timer, Hq.
Qed.

Lemma quiet_app s l1 l2 :
  quiet s (l1 ++ l2) <-> quiet s l1 /\ quiet (fst (run s l1)) l2.
Proof.
  revert s; induction l1 as [|i l1 IH]; intros s.
  - cbn. tauto.
  - rewrite <- app_comm_cons. cbn [quiet]. rewrite run_cons. cbn [fst].
    rewrite IH. tauto.
Qed.

(** From Idle, a quiet run stays Idle, finalizes nothing and leaves the
    volume alone. *)
Lemma quiet_idle s ticks :
  isBreathing s = false -> quiet s ticks ->
  isBreathing (fst (run s ticks)) = false /\
  summaries (snd (run s ticks)) = [] /\
  currentVol (fst (run s ticks)) = currentVol s.
Proof.
  revert s; induction ticks as [|i ticks IH]; intros s Hidle; cbn [quiet].
  - intros _. cbn. auto.
  - intros [Hq Hrest]. rewrite run_cons. cbn [fst snd].
    assert (He : ends_breath s i = false)
      by now rewrite ends_breath_spec, Hq, Hidle.
    assert (Hb : isBreathing (measure s i) = false)
      by now rewrite measure_breathing, Hq, Hidle.
    destruct (loop_fields s i) as (_ & _ & _ & _ & Hv & _ & _ & Hbr).
    rewrite He in Hv, Hbr. rewrite Hb in Hbr.
    destruct (IH _ Hbr Hrest) as (H1 & H2 & H3).
    rewrite summaries_app, loop_summaries, He, H2, H3, Hv.
    repeat split; auto.
    unfold measure. cbn [currentVol].
    fold (tick_flow s i). rewrite Hq, Hidle. reflexivity.
Qed.

End Structure.

(** ** Helpers on the start, the peak and the end of a breath *)

Section BreathEnd.
Context {F : Type} {ops : FloatOps F}.
Implicit Types (s : State F) (i : Tick).

(** The session goes from Breathing to Idle in a pass exactly when the pass
    finalizes a breath. *)
Lemma breathing_to_idle s i :
  isBreathing s = true ->
  (isBreathing (fst (loop s i)) = false <-> ends_breath s i = true).
Proof.
  intros Hb. destruct (loop_fields s i) as (_ & _ & _ & _ & _ & _ & _ & Hbr).
  rewrite Hbr. destruct (ends_breath s i); [tauto|].
  rewrite measure_breathing, Hb, orb_true_r. split; discriminate.
Qed.

End BreathEnd.

Section Peak.
Context {F : Type} {ops : FloatOps F}.
Implicit Types (s : State F) (i : Tick).

Lemma measure_peak s i :
  peakFlow (measure s i) = peakFlow s \/
  (flt (peakFlow s) (peakFlow (measure s i)) = true /\
   flt START_THRESHOLD (tick_flow s i) = true /\
   peakFlow (measure s i) = tick_flow s i).
Proof.
  unfold measure. cbn [peakFlow]. fold (tick_flow s i).
  destruct (flt START_THRESHOLD (tick_flow s i)); cbn [andb]; auto.
  destruct (flt (peakFlow s) (tick_flow s i)) eqn:E; auto.
Qed.

Lemma loop_peak s i :
  peakFlow (fst (loop s i)) =
  if ends_breath s i then of_int 0 else peakFlow (measure s i).
Proof. now destruct (loop_fields s i) as (_ & _ & _ & _ & _ & Hp & _). Qed.

Lemma summaries_nil_cons s i rest :
  summaries (snd (run s (i :: rest))) = [] ->
  ends_breath s i = false /\ summaries (snd (run (fst (loop s i)) rest)) = [].
Proof.
  rewrite run_cons. cbn [snd]. rewrite summaries_app, loop_summaries.
  destruct (ends_breath s i); [discriminate|]. auto.
Qed.

End Peak.

(** ** Runs that agree on the core clock readings *)

Section Determinism.
Context {F : Type} {ops : FloatOps F}.
Implicit Types (s : State F) (i : Tick).

Lemma same_core_step s1 s2 i1 i2 :
  core s1 = core s2 -> same_core_input i1 i2 ->
  obs_of s1 i1 = obs_of s2 i2 /\
  core (fst (loop s1 i1)) = core (fst (loop s2 i2)) /\
  summaries (snd (loop s1 i1)) = summaries (snd (loop s2 i2)).
Proof.
  intros Hc (Hraw & Hl & Hst & Hsp & Hrs).
  assert (Hm : core (measure s1 i1) = core (measure s2 i2)).
  { destruct s1, s2. unfold core in Hc. inversion Hc; subst.
    unfold measure, core, tick_dt, tick_filtered.
    cbn [sensorOffset filteredValue previousMillis breathStopTimer currentVol
         peakFlow previousFlow isBreathing].
    now rewrite Hraw, Hl, Hst. }
  assert (Hf : tick_flow s1 i1 = tick_flow s2 i2).
  { destruct s1, s2. unfold core in Hc. inversion Hc; subst.
    unfold tick_flow, tick_filtered. cbn [sensorOffset filteredValue].
    now rewrite Hraw. }
  assert (He : ends_breath s1 i1 = ends_breath s2 i2).
  { unfold ends_breath, stops. rewrite Hf, Hsp.
    apply core_inj in Hm.
    destruct Hm as (_ & _ & _ & -> & _ & _ & _ & ->). reflexivity. }
  assert (Hs : core (fst (loop s1 i1)) = core (fst (loop s2 i2))).
  { rewrite !loop_state, He, Hm, Hrs.
    apply core_inj in Hm. destruct Hm as (_ & _ & _ & -> & _).
    apply core_inj in Hc. destruct Hc as (-> & _). reflexivity. }
  split; [|split].
  - unfold obs_of. rewrite Hl, Hf, He.
    apply core_inj in Hs.
    destruct Hs as (_ & _ & _ & _ & -> & -> & _ & ->). reflexivity.
  - exact Hs.
  - rewrite !loop_summaries, He.
    apply core_inj in Hm.
    destruct Hm as (_ & _ & _ & _ & -> & -> & _). reflexivity.
Qed.

End Determinism.

(** ** Exact real arithmetic *)

Section RealArithmetic.
Open Scope R_scope.
Implicit Types (s : State R) (i : Tick).

Lemma Rltb_true x y : Rltb x y = true <-> x < y.
Proof. unfold Rltb. destruct (Rlt_dec x y); split; (easy || lra). Qed.

Lemma Rltb_false x y : Rltb x y = false <-> y <= x.
Proof. unfold Rltb. destruct (Rlt_dec x y); split; (easy || lra). Qed.

Lemma Rleb_true x y : Rleb x y = true <-> x <= y.
Proof. unfold Rleb. destruct (Rle_dec x y); split; (easy || lra). Qed.

Lemma Rleb_false x y : Rleb x y = false <-> y < x.
Proof. unfold Rleb. destruct (Rle_dec x y); split; (easy || lra). Qed.

(** The literals of the sketch. *)
Lemma k_constant_R : k_constant (F:=R) = 46.5.
Proof. unfold k_constant, dec. cbn. lra. Qed.

Lemma VOLUME_SCALER_R : VOLUME_SCALER (F:=R) = 1.7.
Proof. unfold VOLUME_SCALER, dec. cbn. lra. Qed.

Lemma alpha_R : alpha (F:=R) = 0.1.
Proof. unfold alpha, dec. cbn. lra. Qed.

Lemma START_THRESHOLD_R : START_THRESHOLD (F:=R) = 2.
Proof. unfold START_THRESHOLD, dec. cbn. lra. Qed.

Lemma CUTOFF_THRESHOLD_R : CUTOFF_THRESHOLD (F:=R) = 1.
Proof. unfold CUTOFF_THRESHOLD, dec. cbn. lra. Qed.

Lemma adjusted_R offset rawv :
  adjusted offset rawv =
  if Rlt_dec (IZR rawv - offset) 5.4 then 0 else IZR rawv - offset.
Proof.
  unfold adjusted, dec. cbn. unfold Rltb.
  replace (54 / 10) with 5.4 by lra.
  destruct (Rlt_dec _ _); reflexivity.
Qed.

Lemma smooth_R previous a :
  smooth previous a = previous * (1 - 0.1) + a * 0.1.
Proof. unfold smooth, alpha, dec. cbn. lra. Qed.

Lemma pressure_R x : pressure x = x * (5 / 1023) / 0.45 * 1000.
Proof. unfold pressure, dec. cbn. lra. Qed.

Lemma flowOf_R x :
  flowOf x =
  if Rlt_dec 0 (pressure x) then 46.5 * sqrt (pressure x / 1000) else 0.
Proof.
  unfold flowOf. rewrite k_constant_R. unfold dec. cbn. unfold Rltb.
  replace (10000 / 10) with 1000 by lra.
  destruct (Rlt_dec _ _); reflexivity.
Qed.

Lemma increment_R f p dt :
  increment f p dt = (f + p) / 2 / 60 * dt * 1.7.
Proof. unfold increment. rewrite VOLUME_SCALER_R. unfold dec. cbn. lra. Qed.

Lemma tick_dt_R s i :
  tick_dt s i = IZR (wrap32 (t_loop (clk i) - previousMillis s)) / 1000.
Proof. unfold tick_dt, dec. cbn. lra. Qed.

(** Signs. *)
Lemma adjusted_nonneg offset rawv : 0 <= adjusted offset rawv.
Proof. rewrite adjusted_R. destruct (Rlt_dec _ _); lra. Qed.

Lemma smooth_nonneg p a : 0 <= p -> 0 <= a -> 0 <= smooth p a.
Proof. intros. rewrite smooth_R. nra. Qed.

Lemma pressure_sign x :
  (0 <= x -> 0 <= pressure x) /\ (0 < pressure x <-> 0 < x) /\
  (pressure x = 0 <-> x = 0).
Proof. rewrite pressure_R. repeat split; intros; lra. Qed.

Lemma flowOf_nonneg x : 0 <= flowOf x.
Proof.
  rewrite flowOf_R. destruct (Rlt_dec _ _); [|lra].
  pose proof (sqrt_pos (pressure x / 1000)). nra.
Qed.

Lemma flowOf_zero x : x <= 0 -> flowOf x = 0.
Proof.
  intros Hx. rewrite flowOf_R. destruct (Rlt_dec _ _) as [Hp|]; [|easy].
  rewrite pressure_R in Hp. lra.
Qed.

Lemma wrap32_range z : (0 <= wrap32 z < 2 ^ 32)%Z.
Proof. unfold wrap32. apply Z.mod_pos_bound. lia. Qed.

Lemma tick_dt_nonneg s i : 0 <= tick_dt s i.
Proof.
  rewrite tick_dt_R. pose proof (wrap32_range (t_loop (clk i) - previousMillis s)).
  assert (0 <= IZR (wrap32 (t_loop (clk i) - previousMillis s)))
    by (apply IZR_le; lia).
  lra.
Qed.

Lemma increment_nonneg f p dt :
  0 <= f -> 0 <= p -> 0 <= dt -> 0 <= increment f p dt.
Proof.
  intros. rewrite increment_R.
  assert (0 <= (f + p) / 2 / 60) by lra. nra.
Qed.

Lemma tick_filtered_nonneg s i : 0 <= filteredValue s -> 0 <= tick_filtered s i.
Proof. intros. apply smooth_nonneg; [easy | apply adjusted_nonneg]. Qed.

Lemma session_ok_setup reads t0 : session_ok (setup reads t0).
Proof.
  unfold session_ok, setup, dec. cbn [filteredValue currentVol peakFlow previousFlow].
  cbn [of_int Rops]. rewrite flowOf_zero by lra. repeat split; lra.
Qed.

Lemma measure_vol_nonneg s i :
  session_ok s -> 0 <= currentVol (measure s i).
Proof.
  intros (Hf & Hv & Hp & Hprev). unfold measure. cbn [currentVol].
  destruct (_ && _); [|easy].
  cbn [fadd Rops].
  assert (0 <= increment (flowOf (tick_filtered s i)) (previousFlow s) (tick_dt s i)).
  { apply increment_nonneg.
    - apply flowOf_nonneg.
    - rewrite Hprev. apply flowOf_nonneg.
    - apply tick_dt_nonneg. }
  lra.
Qed.

Lemma measure_peak_mono s i : peakFlow s <= peakFlow (measure s i).
Proof.
  unfold measure. cbn [peakFlow].
  destruct (flt START_THRESHOLD _); cbn [andb]; [|lra].
  destruct (flt (peakFlow s) _) eqn:E; [|lra].
  cbn [flt Rops] in E. apply Rltb_true in E. lra.
Qed.

Lemma session_ok_loop s i : session_ok s -> session_ok (fst (loop s i)).
Proof.
  intros Hok. pose proof (measure_vol_nonneg i Hok) as Hvol.
  destruct Hok as (Hf & Hv & Hp & Hprev).
  destruct (loop_fields s i) as (_ & Hfil & _ & _ & Hcv & Hpk & Hpf & _).
  unfold session_ok. rewrite Hfil, Hcv, Hpk, Hpf.
  destruct (ends_breath s i); cbn [of_int Rops].
  - rewrite flowOf_zero by lra. repeat split; lra.
  - repeat split.
    + now apply tick_filtered_nonneg.
    + exact Hvol.
    + pose proof (measure_peak_mono s i). lra.
Qed.

Lemma reachable_ok s : reachable s -> session_ok s.
Proof.
  apply reachable_ind.
  - apply session_ok_setup.
  - intros. now apply session_ok_loop.
Qed.

End RealArithmetic.

(** ** Order laws *)

Section OrderR.
Open Scope R_scope.

Lemma Rltb_asym x y : Rltb x y = true -> Rltb y x = false.
Proof. rewrite Rltb_true, Rltb_false. lra. Qed.

Lemma Rltb_trans x y z : Rltb x y = true -> Rltb y z = true -> Rltb x z = true.
Proof. rewrite !Rltb_true. lra. Qed.

Lemma Rleb_not_gt x y : Rleb x y = true -> Rltb y x = false.
Proof. rewrite Rleb_true, Rltb_false. lra. Qed.

Lemma cutoff_lt_start_R :
  flt (CUTOFF_THRESHOLD (F:=R)) START_THRESHOLD = true.
Proof.
  rewrite CUTOFF_THRESHOLD_R, START_THRESHOLD_R. cbn [flt Rops].
  apply Rltb_true. lra.
Qed.

End OrderR.

#[global] Instance Rorder : FloatOrder R.
Proof.
  split.
  - exact Rltb_asym.
  - exact Rltb_trans.
  - exact Rleb_not_gt.
  - exact cutoff_lt_start_R.
Qed.

Section Order32.
Open Scope Z_scope.

Lemma SFcompare_antisym x y :
  SFcompare y x = option_map CompOpp (SFcompare x y).
Proof.
  destruct x as [s|s| |s m e]; destruct y as [s'|s'| |s' m' e']; cbn;
    try reflexivity;
    try (destruct s; reflexivity); try (destruct s'; reflexivity);
    try (destruct s, s'; reflexivity).
  fold (Pos.compare m m'). fold (Pos.compare m' m).
  rewrite (Z.compare_antisym e e'), (Pos.compare_antisym m m').
  destruct s, s'; try reflexivity;
    destruct (e ?= e'); cbn; try reflexivity;
    destruct (m ?= m')%positive; reflexivity.
Qed.

Lemma SFltb_asym x y : SFltb x y = true -> SFltb y x = false.
Proof.
  unfold SFltb. rewrite (SFcompare_antisym x y).
  destruct (SFcompare x y) as [[]|]; cbn; congruence.
Qed.

Lemma SFleb_not_gt x y : SFleb x y = true -> SFltb y x = false.
Proof.
  unfold SFleb, SFltb. rewrite (SFcompare_antisym x y).
  destruct (SFcompare x y) as [[]|]; cbn; congruence.
Qed.

Lemma SFltb_trans x y z :
  SFltb x y = true -> SFltb y z = true -> SFltb x z = true.
Proof.
  unfold SFltb.
  destruct x as [s|s| |s m e]; destruct y as [s'|s'| |s' m' e'];
    destruct z as [s''|s''| |s'' m'' e'']; cbn;
    try discriminate; try reflexivity;
    try (destruct s; discriminate || reflexivity);
    try (destruct s'; discriminate || reflexivity);
    try (destruct s''; discriminate || reflexivity);
    try (destruct s, s'; discriminate || reflexivity);
    try (destruct s, s''; discriminate || reflexivity);
    try (destruct s', s''; discriminate || reflexivity);
    try (destruct s, s', s''; discriminate || reflexivity).
  fold (Pos.compare m m'). fold (Pos.compare m' m''). fold (Pos.compare m m'').
  destruct s, s', s''; try discriminate; try reflexivity;
    destruct (Z.compare_spec e e') as [E1|E1|E1],
             (Z.compare_spec e' e'') as [E2|E2|E2],
             (Z.compare_spec e e'') as [E3|E3|E3];
    try discriminate; try reflexivity; try lia;
    destruct (Pos.compare_spec m m') as [P1|P1|P1],
             (Pos.compare_spec m' m'') as [P2|P2|P2],
             (Pos.compare_spec m m'') as [P3|P3|P3];
    cbn; try discriminate; try reflexivity; try lia.
Qed.

Lemma cutoff_lt_start_32 :
  flt (CUTOFF_THRESHOLD (F:=B32.t)) START_THRESHOLD = true.
Proof. vm_compute. reflexivity. Qed.

End Order32.

#[global] Instance order32 : FloatOrder B32.t.
Proof.
  split.
  - exact SFltb_asym.
  - exact SFltb_trans.
  - exact SFleb_not_gt.
  - exact cutoff_lt_start_32.
Qed.

Section Thresholds.
Context {F : Type} {ops : FloatOps F} {ord : FloatOrder F}.
Implicit Types (s : State F) (i : Tick).

Lemma flt_irrefl (x : F) : flt x x = false.
Proof.
  destruct (flt x x) eqn:E; [|reflexivity].
  pose proof (flt_asym _ _ E). congruence.
Qed.

(** A flow at or below the cutoff is neither above the cutoff nor above
    the start threshold. *)
Lemma below_cutoff (x : F) :
  fle x CUTOFF_THRESHOLD = true ->
  flt CUTOFF_THRESHOLD x = false /\ flt START_THRESHOLD x = false.
Proof.
  intros Hle. pose proof (fle_not_gt _ _ Hle) as Hc. split; [exact Hc|].
  destruct (flt START_THRESHOLD x) eqn:E; [|reflexivity].
  pose proof (flt_trans _ _ _ cutoff_lt_start E). congruence.
Qed.


Lemma measure_below_cutoff s i :
  fle (tick_flow s i) CUTOFF_THRESHOLD = true ->
  peakFlow (measure s i) = peakFlow s /\
  currentVol (measure s i) = currentVol s /\
  isBreathing (measure s i) = isBreathing s.
Proof.
  intros Hle. destruct (below_cutoff _ Hle) as [Hc Hs].
  unfold measure. cbn [peakFlow currentVol isBreathing]. fold (tick_flow s i).
  rewrite Hs, Hc. cbn [andb]. now rewrite andb_false_r.
Qed.

(** Over a stretch of passes without a breath end the peak keeps its value
    or ends strictly above it. *)
Lemma peak_run s ticks :
  summaries (snd (run s ticks)) = [] ->
  peakFlow (fst (run s ticks)) = peakFlow s \/
  flt (peakFlow s) (peakFlow (fst (run s ticks))) = true.
Proof.
  revert s; induction ticks as [|i ticks IH]; intros s Hs.
  - left. reflexivity.
  - apply summaries_nil_cons in Hs. destruct Hs as [He Hs].
    rewrite run_cons. cbn [fst]. specialize (IH _ Hs).
    rewrite loop_peak, He in IH.
    destruct (measure_peak s i) as [Hm | (Hm & _)].
    + rewrite Hm in IH. exact IH.
    + right. destruct IH as [-> | IH]; [exact Hm|].
      exact (flt_trans _ _ _ Hm IH).
Qed.

End Thresholds.

(** ** Still air under exact arithmetic *)

Section StillAir.
Open Scope R_scope.

Lemma fold_add_repeat (r : Z) (n : nat) (acc : Z) :
  fold_left Z.add (repeat r n) acc = (acc + Z.of_nat n * r)%Z.
Proof.
  revert acc; induction n as [|n IH]; intros acc.
  - cbn. lia.
  - cbn [repeat fold_left]. rewrite IH. lia.
Qed.

(** Calibrated on 50 readings [r], the offset is [r]. *)
Lemma setup_offset_R (r t0 : Z) :
  sensorOffset (setup (F:=R) (repeat r 50) t0) = IZR r.
Proof.
  unfold setup. cbn [sensorOffset].
  rewrite firstn_all2 by (rewrite repeat_length; lia).
  rewrite fold_add_repeat. unfold dec. cbn [of_int fdiv Rops].
  replace (0 + Z.of_nat 50 * r)%Z with (50 * r)%Z by lia.
  rewrite mult_IZR. cbn. lra.
Qed.

Lemma at_rest_flow r s c :
  at_rest r s ->
  tick_filtered s (mkTick r c) = 0 /\ tick_flow s (mkTick r c) = 0.
Proof.
  intros (Ho & Hf & _).
  assert (H0 : tick_filtered s (mkTick r c) = 0).
  { unfold tick_filtered. cbn [raw]. rewrite Ho, Hf, smooth_R, adjusted_R.
    destruct (Rlt_dec _ _); lra. }
  split; [exact H0|]. unfold tick_flow. rewrite H0. apply flowOf_zero. lra.
Qed.

Lemma at_rest_quiet r s c :
  at_rest r s -> flt START_THRESHOLD (tick_flow s (mkTick r c)) = false.
Proof.
  intros H. destruct (at_rest_flow c H) as [_ ->].
  rewrite START_THRESHOLD_R. cbn [flt Rops]. apply Rltb_false. lra.
Qed.

Lemma at_rest_loop r s c :
  at_rest r s -> at_rest r (fst (loop s (mkTick r c))).
Proof.
  intros H. pose proof (at_rest_quiet c H) as Hq.
  destruct (at_rest_flow c H) as [Hf _]. destruct H as (Ho & _ & Hb).
  destruct (loop_fields s (mkTick r c)) as (Hso & Hfil & _ & _ & _ & _ & _ & Hbr).
  unfold at_rest. rewrite Hso, Hfil, Hbr, Hf, measure_breathing, Hq, Hb.
  destruct (ends_breath _ _); auto.
Qed.

Lemma at_rest_run_quiet r s clocks :
  at_rest r s -> quiet s (map (mkTick r) clocks).
Proof.
  revert s; induction clocks as [|c clocks IH]; intros s H; cbn [map quiet].
  - exact I.
  - split; [now apply at_rest_quiet | now apply IH, at_rest_loop].
Qed.

End StillAir.

(** ** Signs in binary32 *)

(** Rounding keeps the sign it is given and never produces NaN. *)
Section Rounding.
Variables prec emax : Z.
Open Scope Z_scope.

Lemma shr_1_nonneg mrs : 0 <= shr_m mrs -> 0 <= shr_m (shr_1 mrs).
Proof.
  destruct mrs as [m r s]. cbn [shr_m].
  destruct m as [|p|p]; [| destruct p | destruct p]; cbn; lia.
Qed.

Lemma iter_shr_1_nonneg p mrs :
  0 <= shr_m mrs -> 0 <= shr_m (iter_pos shr_1 p mrs).
Proof.
  revert mrs. induction p as [p IH|p IH|]; intros mrs H; cbn [iter_pos].
  - apply IH, IH, shr_1_nonneg, H.
  - apply IH, IH, H.
  - apply shr_1_nonneg, H.
Qed.

Lemma shr_fexp_nonneg m e l :
  0 <= m -> 0 <= shr_m (fst (shr_fexp prec emax m e l)).
Proof.
  intros H. unfold shr_fexp, shr.
  assert (H0 : 0 <= shr_m (shr_record_of_loc m l))
    by (destruct l as [|[]]; exact H).
  destruct (fexp prec emax (Zdigits2 m + e) - e); cbn [fst]; auto.
  now apply iter_shr_1_nonneg.
Qed.

Lemma round_nearest_even_nonneg m l : 0 <= m -> 0 <= round_nearest_even m l.
Proof.
  intros H. destruct l as [|[]]; cbn; try lia. destruct (Z.even m); lia.
Qed.

Lemma binary_round_aux_signed sx mx ex lx :
  0 <= mx -> B32.signed sx (binary_round_aux prec emax sx mx ex lx).
Proof.
  intros H. unfold binary_round_aux.
  pose proof (@shr_fexp_nonneg mx ex lx H) as H1.
  destruct (shr_fexp prec emax mx ex lx) as [mrs' e']. cbn [fst] in H1.
  pose proof (@shr_fexp_nonneg _ e' loc_Exact
                (@round_nearest_even_nonneg _ (loc_of_shr_record mrs') H1))
    as H2.
  destruct (shr_fexp prec emax _ e' loc_Exact) as [mrs'' e'']. cbn [fst] in H2.
  destruct (shr_m mrs'') as [|m|m]; cbn.
  - reflexivity.
  - destruct (e'' <=? emax - prec); reflexivity.
  - lia.
Qed.

Lemma binary_round_signed sx mx ex :
  B32.signed sx (binary_round prec emax sx mx ex).
Proof.
  unfold binary_round. destruct (shl_align _ _ _) as [mz ez].
  apply binary_round_aux_signed. lia.
Qed.

Lemma binary_normalize_signed m e :
  B32.signed (m <? 0) (binary_normalize prec emax m e false).
Proof.
  destruct m; cbn [binary_normalize]; try apply binary_round_signed.
  reflexivity.
Qed.

Lemma SFmul_signed sx x my ey :
  B32.signed sx x ->
  B32.signed sx (SFmul prec emax x (S754_finite false my ey)).
Proof.
  destruct x as [s|s| |s m e]; cbn [B32.signed SFmul]; intros H; subst;
    rewrite ?xorb_false_r; try easy.
  apply binary_round_aux_signed. lia.
Qed.

Lemma SFmul_signed_l sx x my ey :
  B32.signed sx x ->
  B32.signed sx (SFmul prec emax (S754_finite false my ey) x).
Proof.
  destruct x as [s|s| |s m e]; cbn [B32.signed SFmul]; intros H; subst;
    rewrite ?xorb_false_l; try easy.
  apply binary_round_aux_signed. lia.
Qed.

Lemma SFmul_not_negative x y :
  B32.not_negative x -> B32.not_negative y ->
  B32.not_negative (SFmul prec emax x y).
Proof.
  unfold B32.not_negative, B32.nonneg.
  intros [-> | Hx]; [left; reflexivity|].
  intros [-> | Hy]; [left; now destruct x|].
  destruct x as [s|s| |s m e]; destruct y as [s'|s'| |s' m' e'];
    cbn [B32.signed SFmul] in *; subst; cbn [xorb]; auto; try easy.
  right. apply binary_round_aux_signed. lia.
Qed.

Lemma div_eucl_nonneg a b : 0 <= a -> 0 < b -> 0 <= fst (Z.div_eucl a b).
Proof.
  intros Ha Hb. pose proof (Z_div_mod a b ltac:(lia)) as H.
  destruct (Z.div_eucl a b) as [q r]. cbn [fst]. nia.
Qed.

Lemma SFdiv_signed sx x my ey :
  B32.signed sx x ->
  B32.signed sx (SFdiv prec emax x (S754_finite false my ey)).
Proof.
  destruct x as [s|s| |s m e]; cbn [B32.signed SFdiv]; intros H; subst;
    rewrite ?xorb_false_r; try easy.
  unfold SFdiv_core_binary.
  match goal with
  | |- context [Z.div_eucl ?a ?b] =>
      pose proof (@div_eucl_nonneg a b) as Hq;
      destruct (Z.div_eucl a b) as [q r]
  end.
  apply binary_round_aux_signed. apply Hq; [|lia].
  destruct (_ - _ - _) as [|p|p]; try lia. apply Z.shiftl_nonneg. lia.
Qed.

Lemma sqrtrem_nonneg a : 0 <= a -> 0 <= fst (Z.sqrtrem a).
Proof.
  intros Ha. pose proof (Z.sqrtrem_spec a Ha) as H.
  destruct (Z.sqrtrem a) as [q r]. cbn [fst]. lia.
Qed.

Lemma SFsqrt_signed x :
  B32.signed false x -> B32.signed false (SFsqrt prec emax x).
Proof.
  destruct x as [s|s| |s m e]; cbn [B32.signed SFsqrt]; intros H; subst;
    try easy.
  unfold SFsqrt_core_binary.
  match goal with
  | |- context [Z.sqrtrem ?a] =>
      pose proof (@sqrtrem_nonneg a) as Hq; destruct (Z.sqrtrem a) as [q r]
  end.
  apply binary_round_aux_signed. apply Hq.
  destruct (_ - _) as [|p|p]; try lia. apply Z.shiftl_nonneg. lia.
Qed.

Lemma SFadd_signed x y :
  B32.signed false x -> B32.signed false y ->
  B32.signed false (SFadd prec emax x y).
Proof.
  destruct x as [s|s| |s m e]; destruct y as [s'|s'| |s' m' e'];
    cbn [B32.signed SFadd]; intros H H'; subst; try easy.
  cbn [cond_Zopp].
  match goal with
  | |- B32.signed false (binary_normalize _ _ ?z _ _) =>
      assert (Hz : (z <? 0) = false) by (apply Z.ltb_ge; lia);
      rewrite <- Hz
  end.
  apply binary_normalize_signed.
Qed.

Lemma SFadd_not_negative x y :
  B32.not_negative x -> B32.not_negative y ->
  B32.not_negative (SFadd prec emax x y).
Proof.
  unfold B32.not_negative, B32.nonneg.
  intros [-> | Hx]; [left; reflexivity|].
  intros [-> | Hy]; [left; now destruct x|].
  right. now apply SFadd_signed.
Qed.

Lemma signed_not_nan sx x : B32.signed sx x -> x <> S754_nan.
Proof. intros H ->. exact H. Qed.

Lemma SFsub_not_nan x y :
  B32.finite x = true -> y <> S754_nan -> SFsub prec emax x y <> S754_nan.
Proof.
  destruct x as [s|s| |s m e]; destruct y as [s'|s'| |s' m' e'];
    cbn [B32.finite SFsub]; intros H H'; try easy.
  - destruct s, s'; easy.
  - eapply signed_not_nan, binary_normalize_signed.
Qed.

(** What is not below a positive number is positive (or NaN). *)
Lemma not_ltb_signed x m e :
  x <> S754_nan -> SFltb x (S754_finite false m e) = false ->
  B32.signed false x.
Proof.
  unfold SFltb.
  destruct x as [s|s| |s m' e']; cbn; intros Hn H; try easy;
    destruct s; easy.
Qed.

Lemma zero_ltb_signed x :
  SFltb (S754_zero false) x = true -> B32.signed false x.
Proof.
  unfold SFltb. destruct x as [s|s| |s m e]; cbn; try easy; destruct s; easy.
Qed.

Lemma signed_zero_leb x :
  B32.signed false x -> SFleb (S754_zero false) x = true.
Proof.
  unfold SFleb. destruct x as [s|s| |s m e]; cbn; intros H; subst; easy.
Qed.

Lemma signed_not_gt_zero x :
  B32.signed false x -> SFltb (S754_zero false) x = false ->
  x = S754_zero false.
Proof.
  unfold SFltb. destruct x as [s|s| |s m e]; cbn; intros H; subst; easy.
Qed.

Lemma not_negative_ltb x :
  B32.not_negative x -> SFltb x (S754_zero false) = false.
Proof.
  unfold SFltb. intros [-> | H]; [reflexivity|].
  destruct x as [s|s| |s m e]; cbn in *; subst; easy.
Qed.

End Rounding.

(** The sketch in binary32. *)
Section Binary32.
Implicit Types (s : State B32.t) (i : Tick) (x : B32.t).

Ltac posfin_const := vm_compute; do 2 eexists; reflexivity.

Lemma posfin_k : B32.posfin k_constant.
Proof. posfin_const. Qed.
Lemma posfin_scaler : B32.posfin VOLUME_SCALER.
Proof. posfin_const. Qed.
Lemma posfin_alpha : B32.posfin alpha.
Proof. posfin_const. Qed.
Lemma posfin_one_minus_alpha : B32.posfin (fsub (dec 10 1) alpha).
Proof. posfin_const. Qed.
Lemma posfin_deadzone : B32.posfin (dec 54 1).
Proof. posfin_const. Qed.
Lemma posfin_volt_per_count : B32.posfin (fdiv (dec 50 1) (dec 10230 1)).
Proof. posfin_const. Qed.
Lemma posfin_sensitivity : B32.posfin (dec 45 2).
Proof. posfin_const. Qed.
Lemma posfin_1000 : B32.posfin (dec 10000 1).
Proof. posfin_const. Qed.
Lemma posfin_2 : B32.posfin (dec 20 1).
Proof. posfin_const. Qed.
Lemma posfin_60 : B32.posfin (dec 600 1).
Proof. posfin_const. Qed.
Lemma posfin_50 : B32.posfin (dec 500 1).
Proof. posfin_const. Qed.

Lemma fmul_signed sx x c :
  B32.posfin c -> B32.signed sx x -> B32.signed sx (fmul x c).
Proof. intros (m & e & ->). apply SFmul_signed. Qed.

Lemma fmul_signed_l sx x c :
  B32.posfin c -> B32.signed sx x -> B32.signed sx (fmul c x).
Proof. intros (m & e & ->). apply SFmul_signed_l. Qed.

Lemma fdiv_signed sx x c :
  B32.posfin c -> B32.signed sx x -> B32.signed sx (fdiv x c).
Proof. intros (m & e & ->). apply SFdiv_signed. Qed.

Lemma of_Z_signed z : B32.signed (z <? 0)%Z (B32.of_Z z).
Proof. apply binary_normalize_signed. Qed.

Lemma of_Z_nonneg z : (0 <= z)%Z -> B32.nonneg (B32.of_Z z).
Proof.
  intros H. unfold B32.nonneg.
  replace false with (z <? 0)%Z by (apply Z.ltb_ge; lia). apply of_Z_signed.
Qed.

Lemma pressure_nonneg x : B32.nonneg x -> B32.nonneg (pressure x).
Proof.
  intros H. unfold pressure, B32.nonneg.
  apply fmul_signed; [apply posfin_1000|].
  apply fdiv_signed; [apply posfin_sensitivity|].
  apply fmul_signed; [apply posfin_volt_per_count|]. exact H.
Qed.

(** For every filtered value, NaN and the infinities included, the flow is
    +0, a positive number or +infinity. *)
Lemma flowOf_nonneg32 x : B32.nonneg (flowOf x).
Proof.
  unfold flowOf. destruct (flt (of_int 0) (pressure x)) eqn:E.
  - apply zero_ltb_signed in E.
    apply fmul_signed_l; [apply posfin_k|].
    apply SFsqrt_signed. apply fdiv_signed; [apply posfin_1000|]. exact E.
  - reflexivity.
Qed.

Lemma eqb_eq x y : B32.eqb x y = true -> x = y.
Proof.
  destruct x as [s|s| |s m e]; destruct y as [s'|s'| |s' m' e']; cbn;
    try discriminate; try reflexivity.
  - intros H. apply Bool.eqb_prop in H. now subst.
  - intros H. apply Bool.eqb_prop in H. now subst.
  - intros H. apply andb_prop in H. destruct H as [H He].
    apply andb_prop in H. destruct H as [Hs Hm].
    apply Bool.eqb_prop in Hs. apply Pos.eqb_eq in Hm. apply Z.eqb_eq in He.
    now subst.
Qed.

(** A check on every value of the converter holds on the range. *)
Lemma adc_enum (f : Z -> bool) :
  forallb f adc_values = true ->
  forall r, (0 <= r <= 1023)%Z -> f r = true.
Proof.
  intros H r Hr. rewrite forallb_forall in H. apply H.
  unfold adc_values. rewrite in_map_iff. exists (Z.to_nat r).
  split; [lia|]. apply in_seq. lia.
Qed.

Lemma of_Z_adc_finite r :
  (0 <= r <= 1023)%Z -> B32.finite (B32.of_Z r) = true.
Proof.
  apply (adc_enum (fun r => B32.finite (B32.of_Z r))).
  vm_compute. reflexivity.
Qed.

Lemma adjusted_nonneg32 offset r :
  offset <> S754_nan -> (0 <= r <= 1023)%Z -> B32.nonneg (adjusted offset r).
Proof.
  intros Ho Hr. unfold adjusted.
  destruct (flt _ _) eqn:E; [reflexivity|].
  destruct posfin_deadzone as (m & e & Hd). rewrite Hd in E.
  apply (@not_ltb_signed _ m e); [|exact E].
  apply SFsub_not_nan; [now apply of_Z_adc_finite | exact Ho].
Qed.

Lemma smooth_nonneg32 p a :
  B32.nonneg p -> B32.nonneg a -> B32.nonneg (smooth p a).
Proof.
  intros Hp Ha. unfold smooth. apply SFadd_signed.
  - apply fmul_signed; [apply posfin_one_minus_alpha | exact Hp].
  - apply fmul_signed; [apply posfin_alpha | exact Ha].
Qed.

Lemma tick_dt_nonneg32 s i : B32.nonneg (tick_dt s i).
Proof.
  unfold tick_dt. apply fdiv_signed; [apply posfin_1000|].
  apply of_Z_nonneg. apply wrap32_range.
Qed.

Lemma nonneg_not_negative x : B32.nonneg x -> B32.not_negative x.
Proof. intros H. right. exact H. Qed.

Lemma increment_not_negative f p dt :
  B32.nonneg f -> B32.nonneg p -> B32.nonneg dt ->
  B32.not_negative (increment f p dt).
Proof.
  intros Hf Hp Hdt. unfold increment.
  destruct posfin_scaler as (m & e & ->).
  apply SFmul_not_negative; [|right; reflexivity].
  apply SFmul_not_negative; [|now right].
  right. apply fdiv_signed; [apply posfin_60|].
  apply fdiv_signed; [apply posfin_2|]. now apply SFadd_signed.
Qed.

Lemma session_signed_setup reads t0 : session_signed (setup reads t0).
Proof. split; [right|]; reflexivity. Qed.

Lemma session_signed_loop s i :
  session_signed s -> session_signed (fst (loop s i)).
Proof.
  intros [Hv Hp].
  destruct (loop_fields s i) as (_ & _ & _ & _ & Hcv & _ & Hpf & _).
  unfold session_signed. rewrite Hcv, Hpf.
  destruct (ends_breath s i); [split; [right|]; reflexivity|].
  split; [|apply flowOf_nonneg32].
  unfold measure. cbn [currentVol]. destruct (_ && _); [|exact Hv].
  apply SFadd_not_negative; [exact Hv|].
  apply increment_not_negative;
    [apply flowOf_nonneg32 | exact Hp | apply tick_dt_nonneg32].
Qed.

Lemma setup_offset_not_nan reads t0 :
  sensorOffset (setup (F:=B32.t) reads t0) <> S754_nan.
Proof.
  unfold setup. cbn [sensorOffset].
  eapply signed_not_nan, fdiv_signed; [apply posfin_50 | apply of_Z_signed].
Qed.

Lemma filter_signed_setup reads t0 : filter_signed (setup reads t0).
Proof. split; [apply setup_offset_not_nan | reflexivity]. Qed.

Lemma tick_filtered_nonneg32 s i :
  filter_signed s -> adc_sample i -> B32.nonneg (tick_filtered s i).
Proof.
  intros [Ho Hf] Hi. apply smooth_nonneg32; [exact Hf|].
  now apply adjusted_nonneg32.
Qed.

Lemma filter_signed_loop s i :
  filter_signed s -> adc_sample i -> filter_signed (fst (loop s i)).
Proof.
  intros Hs Hi. pose proof (tick_filtered_nonneg32 Hs Hi) as Ht.
  destruct Hs as [Ho Hf].
  destruct (loop_fields s i) as (Hso & Hfil & _).
  unfold filter_signed. rewrite Hso, Hfil.
  split; [exact Ho|]. destruct (ends_breath s i); [reflexivity | exact Ht].
Qed.

Lemma filter_signed_run s ticks :
  filter_signed s -> Forall adc_sample ticks ->
  filter_signed (fst (run s ticks)).
Proof.
  intros Hs Hall. revert s Hs.
  induction Hall as [|i ticks Hi _ IH]; intros s Hs.
  - exact Hs.
  - rewrite run_cons. cbn [fst]. apply IH. now apply filter_signed_loop.
Qed.

(** Still air. *)
Lemma setup_offset_32 r t0 :
  (0 <= r <= 1023)%Z ->
  sensorOffset (setup (F:=B32.t) (repeat r 50) t0) = B32.of_Z r.
Proof.
  intros Hr. unfold setup. cbn [sensorOffset].
  rewrite firstn_all2 by (rewrite repeat_length; lia).
  rewrite fold_add_repeat.
  apply eqb_eq.
  apply (adc_enum
           (fun r => B32.eqb (fdiv (of_int (0 + Z.of_nat 50 * r)) (dec 500 1))
                             (B32.of_Z r))); [|exact Hr].
  vm_compute. reflexivity.
Qed.

Lemma at_rest32_flow r s c :
  (0 <= r <= 1023)%Z -> at_rest32 r s ->
  tick_filtered s (mkTick r c) = S754_zero false /\
  tick_flow s (mkTick r c) = S754_zero false.
Proof.
  intros Hr (Ho & Hf & _).
  assert (Ha : adjusted (B32.of_Z r) r = S754_zero false).
  { apply eqb_eq.
    apply (adc_enum (fun r => B32.eqb (adjusted (B32.of_Z r) r)
                                      (S754_zero false))); [|exact Hr].
    vm_compute. reflexivity. }
  assert (H0 : tick_filtered s (mkTick r c) = S754_zero false).
  { unfold tick_filtered. cbn [raw]. rewrite Ho, Hf, Ha. reflexivity. }
  split; [exact H0|]. unfold tick_flow. rewrite H0. reflexivity.
Qed.

Lemma at_rest32_loop r s c :
  (0 <= r <= 1023)%Z -> at_rest32 r s ->
  flt START_THRESHOLD (tick_flow s (mkTick r c)) = false /\
  at_rest32 r (fst (loop s (mkTick r c))).
Proof.
  intros Hr H. destruct (at_rest32_flow c Hr H) as [Hf Hfl].
  assert (Hq : flt START_THRESHOLD (tick_flow s (mkTick r c)) = false)
    by (rewrite Hfl; reflexivity).
  split; [exact Hq|]. destruct H as (Ho & _ & Hb).
  destruct (loop_fields s (mkTick r c))
    as (Hso & Hfil & _ & _ & _ & _ & _ & Hbr).
  unfold at_rest32. rewrite Hso, Hfil, Hbr, Hf, measure_breathing, Hq, Hb.
  destruct (ends_breath _ _); auto.
Qed.

Lemma at_rest32_run_quiet r s clocks :
  (0 <= r <= 1023)%Z -> at_rest32 r s -> quiet s (map (mkTick r) clocks).
Proof.
  intros Hr. revert s.
  induction clocks as [|c clocks IH]; intros s H; cbn [map quiet].
  - exact I.
  - destruct (at_rest32_loop c Hr H) as [Hq H']. split; [exact Hq|].
    now apply IH.
Qed.

End Binary32.

(** ** Magnitudes in binary32 *)

(** Powers of two. *)
Section Bpow.
Open Scope R_scope.

Lemma bpow_pos e : 0 < bpow e.
Proof. apply powerRZ_lt. lra. Qed.

Lemma bpow_add a b : bpow (a + b) = bpow a * bpow b.
Proof. apply powerRZ_add. lra. Qed.

Lemma bpow_IZR n : (0 <= n)%Z -> bpow n = IZR (2 ^ n).
Proof.
  intros H. unfold bpow. destruct n as [|p|p]; [reflexivity| |lia].
  cbn [powerRZ]. rewrite pow_IZR, positive_nat_Z. reflexivity.
Qed.

Lemma bpow_ge_1 n : (0 <= n)%Z -> 1 <= bpow n.
Proof.
  intros H. rewrite bpow_IZR by exact H. apply IZR_le.
  pose proof (Z.pow_pos_nonneg 2 n). lia.
Qed.

Lemma bpow_le a b : (a <= b)%Z -> bpow a <= bpow b.
Proof.
  intros H. replace b with (a + (b - a))%Z by lia. rewrite bpow_add.
  pose proof (bpow_pos a). pose proof (@bpow_ge_1 (b - a)%Z ltac:(lia)). nra.
Qed.

Lemma bpow_max a b : bpow (Z.max a b) <= bpow a + bpow b.
Proof.
  pose proof (bpow_pos a). pose proof (bpow_pos b).
  destruct (Z.max_spec a b) as [[_ ->] | [_ ->]]; lra.
Qed.

End Bpow.

(** The number of binary digits of a mantissa. *)
Section Digits.
Open Scope Z_scope.

Lemma digits2_size p : digits2_pos p = Pos.size p.
Proof. induction p; cbn; congruence. Qed.

Lemma digits2_bounds p :
  2 ^ (Zpos (digits2_pos p) - 1) <= Zpos p < 2 ^ Zpos (digits2_pos p).
Proof.
  rewrite digits2_size. split.
  - pose proof (Pos.size_le p) as H.
    assert (E : 2 ^ Zpos (Pos.size p) = 2 * 2 ^ (Zpos (Pos.size p) - 1)).
    { rewrite <- Z.pow_succ_r by lia. f_equal. lia. }
    assert (H' : (2 ^ Zpos (Pos.size p) <= Zpos p~0)%Z).
    { rewrite <- Pos2Z.inj_pow. apply Pos2Z.pos_le_pos. exact H. }
    lia.
  - pose proof (Pos.size_gt p) as H.
    rewrite <- Pos2Z.inj_pow. apply Pos2Z.pos_lt_pos. exact H.
Qed.

End Digits.

(** Right shifts and the two shifts of a rounding. *)
Section Shift.
Variables prec emax : Z.
Open Scope Z_scope.

Lemma shr_1_half mrs : 0 <= shr_m mrs -> shr_m (shr_1 mrs) = shr_m mrs / 2.
Proof.
  destruct mrs as [m r s]. cbn [shr_m]. intros H.
  destruct m as [|p|p]; [reflexivity| |lia].
  destruct p as [p|p|]; cbn [shr_1 shr_m].
  - rewrite Pos2Z.inj_xI. apply Z.div_unique with (r := 1); lia.
  - rewrite Pos2Z.inj_xO. apply Z.div_unique with (r := 0); lia.
  - reflexivity.
Qed.

Lemma iter_shr_1_div p mrs :
  0 <= shr_m mrs ->
  shr_m (iter_pos shr_1 p mrs) = shr_m mrs / 2 ^ Zpos p.
Proof.
  revert mrs. induction p as [p IH|p IH|]; intros mrs H; cbn [iter_pos].
  - assert (H1 : 0 <= shr_m (shr_1 mrs)) by now apply shr_1_nonneg.
    assert (H2 : 0 <= shr_m (iter_pos shr_1 p (shr_1 mrs)))
      by now apply iter_shr_1_nonneg.
    assert (Hp : 0 < 2 ^ Zpos p) by (apply Z.pow_pos_nonneg; lia).
    assert (E : 2 ^ Zpos p~1 = 2 * 2 ^ Zpos p * 2 ^ Zpos p).
    { replace (2 * 2 ^ Zpos p * 2 ^ Zpos p) with (2 ^ (1 + Zpos p + Zpos p))
        by (rewrite !Z.pow_add_r by lia; lia).
      f_equal. lia. }
    rewrite IH, IH, shr_1_half, E by assumption.
    rewrite !Z.div_div by lia. f_equal. lia.
  - assert (H2 : 0 <= shr_m (iter_pos shr_1 p mrs))
      by now apply iter_shr_1_nonneg.
    assert (Hp : 0 < 2 ^ Zpos p) by (apply Z.pow_pos_nonneg; lia).
    assert (E : 2 ^ Zpos p~0 = 2 ^ Zpos p * 2 ^ Zpos p).
    { rewrite <- Z.pow_add_r by lia. f_equal. lia. }
    rewrite IH, IH, E by assumption.
    rewrite !Z.div_div by lia. f_equal.
  - rewrite shr_1_half by assumption. reflexivity.
Qed.

(** Shifting right by [n] divides the mantissa by [2^n]. *)
Lemma shr_div mrs e n :
  0 <= shr_m mrs ->
  shr_m (fst (shr mrs e n)) = shr_m mrs / 2 ^ Z.max 0 n /\
  snd (shr mrs e n) = e + Z.max 0 n /\
  (n <= 0 -> fst (shr mrs e n) = mrs).
Proof.
  intros H. destruct n as [|p|p]; cbn [shr fst snd].
  - rewrite Z.div_1_r. repeat split; lia.
  - rewrite iter_shr_1_div by exact H. repeat split; lia.
  - rewrite Z.div_1_r. cbn. repeat split; lia.
Qed.

Lemma round_nearest_even_le m l :
  m <= round_nearest_even m l <= m + 1.
Proof. destruct l as [|[]]; cbn; try lia. destruct (Z.even m); lia. Qed.

(** The shape of a rounded result: a mantissa [m] and an exponent [e] at or
    above the given one, with [m * 2^(e - ex)] at most one unit of the
    first shift above [mx], and at most [mx] when nothing is shifted out. *)
Lemma binary_round_aux_shape sx mx ex lx :
  0 <= mx ->
  exists m e,
    0 <= m /\ ex <= e /\
    m * 2 ^ (e - ex)
    <= mx + 2 ^ Z.max 0 (fexp prec emax (Zdigits2 mx + ex) - ex) /\
    (lx = loc_Exact -> fexp prec emax (Zdigits2 mx + ex) <= ex ->
     m * 2 ^ (e - ex) <= mx) /\
    binary_round_aux prec emax sx mx ex lx =
    match m with
    | Z0 => S754_zero sx
    | Zpos p =>
        if e <=? emax - prec then S754_finite sx p e else S754_infinity sx
    | Zneg _ => S754_nan
    end.
Proof.
  intros H. unfold binary_round_aux, shr_fexp.
  set (n1 := fexp prec emax (Zdigits2 mx + ex) - ex).
  assert (H0 : 0 <= shr_m (shr_record_of_loc mx lx))
    by (destruct lx as [|[]]; exact H).
  assert (Hm0 : shr_m (shr_record_of_loc mx lx) = mx)
    by (destruct lx as [|[]]; reflexivity).
  destruct (shr_div (shr_record_of_loc mx lx) ex n1 H0) as (Hm1 & He1 & Hid).
  destruct (shr (shr_record_of_loc mx lx) ex n1) as [mrs' e'].
  cbn [fst snd] in Hm1, He1, Hid. rewrite Hm0 in Hm1.
  set (m2 := round_nearest_even (shr_m mrs') (loc_of_shr_record mrs')).
  pose proof (round_nearest_even_le (shr_m mrs') (loc_of_shr_record mrs'))
    as Hm2. fold m2 in Hm2.
  assert (Hp1 : 0 < 2 ^ Z.max 0 n1) by (apply Z.pow_pos_nonneg; lia).
  assert (Hm1' : 0 <= shr_m mrs')
    by (rewrite Hm1; apply Z.div_pos; lia).
  set (n2 := fexp prec emax (Zdigits2 m2 + e') - e').
  assert (H2 : 0 <= shr_m (shr_record_of_loc m2 loc_Exact)) by (cbn; lia).
  destruct (shr_div (shr_record_of_loc m2 loc_Exact) e' n2 H2)
    as (Hm3 & He3 & _).
  destruct (shr (shr_record_of_loc m2 loc_Exact) e' n2) as [mrs'' e''].
  cbn [fst snd shr_record_of_loc shr_m] in Hm3, He3.
  assert (Hp2 : 0 < 2 ^ Z.max 0 n2) by (apply Z.pow_pos_nonneg; lia).
  exists (shr_m mrs''), e''.
  assert (Hm3' : 0 <= shr_m mrs'') by (rewrite Hm3; apply Z.div_pos; lia).
  assert (Hexp : e'' - ex = Z.max 0 n2 + Z.max 0 n1) by lia.
  assert (Hle3 : shr_m mrs'' * 2 ^ Z.max 0 n2 <= m2).
  { rewrite Hm3, Z.mul_comm. apply Z.mul_div_le. lia. }
  assert (Hle1 : shr_m mrs' * 2 ^ Z.max 0 n1 <= mx).
  { rewrite Hm1, Z.mul_comm. apply Z.mul_div_le. lia. }
  split; [exact Hm3'|]. split; [lia|].
  rewrite Hexp, Z.pow_add_r, Z.mul_assoc by lia.
  split; [nia|]. split; [|reflexivity].
  intros -> Hfe.
  assert (Hn1 : n1 <= 0) by (unfold n1; lia).
  specialize (Hid Hn1). subst mrs'. cbn in m2. subst m2.
  replace (Z.max 0 n1) with 0 by lia. rewrite Z.pow_0_r. lia.
Qed.

End Shift.

(** The value of a rounded number. *)
Section RoundR.
Open Scope R_scope.

Lemma fexp32 k : fexp B32.prec B32.emax k = Z.max (k - 24) (-149).
Proof. reflexivity. Qed.

Lemma IZR_scaled m e ex :
  (ex <= e)%Z -> IZR m * bpow e = IZR (m * 2 ^ (e - ex)) * bpow ex.
Proof.
  intros H. rewrite mult_IZR, <- bpow_IZR by lia.
  replace e with ((e - ex) + ex)%Z at 1 by lia. rewrite bpow_add. ring.
Qed.

Lemma digits_bpow p ex :
  bpow (Zpos (digits2_pos p) + ex - 24) <= IZR (Zpos p) * bpow ex * eps.
Proof.
  pose proof (digits2_bounds p) as [Hlo _].
  replace (Zpos (digits2_pos p) + ex - 24)%Z
    with ((Zpos (digits2_pos p) - 1) + (ex + -23))%Z by lia.
  rewrite !bpow_add. rewrite bpow_IZR by lia.
  apply IZR_le in Hlo.
  replace (IZR (Zpos p) * bpow ex * eps)
    with (IZR (Zpos p) * (bpow ex * bpow (-23))) by (unfold eps; ring).
  apply Rmult_le_compat_r; [|exact Hlo].
  pose proof (bpow_pos ex). pose proof (bpow_pos (-23)). nra.
Qed.

(** Rounding an exact positive value: the relative error is at most [eps],
    up to [delta] near zero, and there is no overflow below [big]. *)
Lemma round_exact_R p ex :
  let v := IZR (Zpos p) * bpow ex in
  v * (1 + eps) + delta < big ->
  bounded (binary_round_aux B32.prec B32.emax false (Zpos p) ex loc_Exact)
          (v * (1 + eps) + delta).
Proof.
  intros v Hbig.
  destruct (@binary_round_aux_shape B32.prec B32.emax false (Zpos p) ex
              loc_Exact ltac:(lia)) as (m & e & Hm & He & Hgen & Hex & Heq).
  rewrite Heq. clear Heq.
  assert (Hv : 0 <= v).
  { unfold v. pose proof (bpow_pos ex). assert (0 < IZR (Zpos p)) by
      (apply IZR_lt; lia). nra. }
  assert (Heps : 0 < eps) by apply bpow_pos.
  assert (Hdelta : 0 < delta) by apply bpow_pos.
  assert (Hval : IZR m * bpow e <= v * (1 + eps) + delta).
  { rewrite (IZR_scaled m He).
    pose proof (bpow_pos ex) as Hb.
    destruct (Z_le_gt_dec (fexp B32.prec B32.emax (Zdigits2 (Zpos p) + ex)) ex)
      as [Hfe | Hfe].
    - specialize (Hex eq_refl Hfe). apply IZR_le in Hex. fold v. unfold v in *. nra.
    - clear Hex. apply IZR_le in Hgen. rewrite plus_IZR in Hgen.
      rewrite Z.max_r in Hgen by lia.
      rewrite <- bpow_IZR in Hgen by lia.
      assert (Hu : bpow (fexp B32.prec B32.emax (Zdigits2 (Zpos p) + ex) - ex)
                   * bpow ex <= v * eps + delta).
      { rewrite <- bpow_add.
        replace (fexp B32.prec B32.emax (Zdigits2 (Zpos p) + ex) - ex + ex)%Z
          with (fexp B32.prec B32.emax (Zdigits2 (Zpos p) + ex)) by lia.
        rewrite fexp32. cbn [Zdigits2].
        pose proof (bpow_max (Zpos (digits2_pos p) + ex - 24) (-149)) as H.
        pose proof (digits_bpow p ex) as H0. fold v in H0. unfold delta.
        lra. }
      unfold v in *. nra. }
  assert (Hve : 0 <= v * eps) by (apply Rmult_le_pos; lra).
  destruct m as [|q|q]; [| |lia].
  - repeat split. cbn [B2R]. lra.
  - destruct (e <=? B32.emax - B32.prec)%Z eqn:Ee.
    + repeat split. cbn [B2R]. lra.
    + exfalso. apply Z.leb_gt in Ee. change (B32.emax - B32.prec)%Z with 104%Z in Ee.
      assert (bpow 105 <= IZR (Zpos q) * bpow e).
      { pose proof (@bpow_le 105%Z e ltac:(lia)). pose proof (bpow_pos 105).
        assert (1 <= IZR (Zpos q)) by (apply IZR_le; lia). nra. }
      unfold big in Hbig. lra.
Qed.

End RoundR.

(** Upper bounds through multiplication, addition and conversion. *)
Section Bounds.
Open Scope R_scope.

Lemma eps_pos : 0 < eps.
Proof. apply bpow_pos. Qed.

Lemma delta_pos : 0 < delta.
Proof. apply bpow_pos. Qed.

Lemma B2R_nonneg x : B32.nonneg x -> 0 <= B2R x.
Proof.
  destruct x as [s|s| |s m e]; cbn; intros H; subst; try lra.
  pose proof (bpow_pos e). assert (0 < IZR (Zpos m)) by (apply IZR_lt; lia).
  nra.
Qed.

Lemma bounded_nonneg x a : bounded x a -> 0 <= a.
Proof. intros (H & _ & Hle). pose proof (B2R_nonneg x H). lra. Qed.

Lemma bounded_weaken x a a' : bounded x a -> a <= a' -> bounded x a'.
Proof. intros (H1 & H2 & H3) H. repeat split; auto. lra. Qed.

Lemma bounded_zero a : 0 <= a -> bounded (S754_zero false) a.
Proof. intros H. repeat split. exact H. Qed.

Lemma mul_bounded x y a b :
  bounded x a -> bounded y b ->
  a * b * (1 + eps) + delta < big ->
  bounded (SFmul B32.prec B32.emax x y) (a * b * (1 + eps) + delta).
Proof.
  intros Hx Hy Hbig.
  pose proof (bounded_nonneg Hx) as Ha. pose proof (bounded_nonneg Hy) as Hb.
  pose proof eps_pos. pose proof delta_pos.
  assert (Hnn : 0 <= a * b * (1 + eps) + delta).
  { assert (0 <= a * b) by nra. nra. }
  destruct Hx as (Sx & Fx & Lx), Hy as (Sy & Fy & Ly).
  destruct x as [s|s| |s mx ex]; try discriminate;
    destruct y as [s'|s'| |s' my ey]; try discriminate;
    cbn in Sx, Sy; subst; cbn [SFmul xorb]; try (now apply bounded_zero).
  pose proof (@round_exact_R (mx * my) (ex + ey)) as Hr. cbv zeta in Hr.
  assert (Hv : IZR (Zpos (mx * my)) * bpow (ex + ey)
               = B2R (S754_finite false mx ex) * B2R (S754_finite false my ey)).
  { cbn [B2R]. rewrite Pos2Z.inj_mul, mult_IZR, bpow_add. ring. }
  rewrite Hv in Hr.
  pose proof (B2R_nonneg (S754_finite false mx ex) eq_refl).
  pose proof (B2R_nonneg (S754_finite false my ey) eq_refl).
  assert (Hab : B2R (S754_finite false mx ex) * B2R (S754_finite false my ey)
                <= a * b) by nra.
  eapply bounded_weaken; [apply Hr|]; nra.
Qed.

Lemma iter_xO mx d : Zpos (Pos.iter xO mx d) = (Zpos mx * 2 ^ Zpos d)%Z.
Proof.
  induction d using Pos.peano_ind.
  - cbn. lia.
  - rewrite Pos.iter_succ, Pos2Z.inj_xO, IHd, Pos2Z.inj_succ.
    rewrite Z.pow_succ_r by lia. lia.
Qed.

Lemma shl_align_R mx ex ex' :
  IZR (Zpos (fst (shl_align mx ex ex'))) * bpow (snd (shl_align mx ex ex'))
  = IZR (Zpos mx) * bpow ex.
Proof.
  unfold shl_align. destruct (ex' - ex)%Z as [|d|d] eqn:E; cbn [fst snd];
    try reflexivity.
  rewrite iter_xO, mult_IZR, <- bpow_IZR by lia.
  replace ex with (Zpos d + ex')%Z by lia. rewrite bpow_add. ring.
Qed.

Lemma shl_align_snd mx ex ex' :
  (ex' <= ex)%Z -> snd (shl_align mx ex ex') = ex'.
Proof.
  intros H. unfold shl_align.
  destruct (ex' - ex)%Z as [|d|d] eqn:E; cbn [snd]; lia.
Qed.

Lemma binary_round_R p e :
  let v := IZR (Zpos p) * bpow e in
  v * (1 + eps) + delta < big ->
  bounded (binary_round B32.prec B32.emax false p e) (v * (1 + eps) + delta).
Proof.
  intros v Hbig. unfold binary_round.
  pose proof (shl_align_R p e
                (fexp B32.prec B32.emax (Zpos (digits2_pos p) + e))) as Hs.
  destruct (shl_align p e _) as [mz ez]. cbn [fst snd] in Hs.
  pose proof (@round_exact_R mz ez) as Hr. cbv zeta in Hr.
  rewrite Hs in Hr. now apply Hr.
Qed.

Lemma add_bounded x y a b :
  bounded x a -> bounded y b ->
  (a + b) * (1 + eps) + delta < big ->
  bounded (SFadd B32.prec B32.emax x y) ((a + b) * (1 + eps) + delta).
Proof.
  intros Hx Hy Hbig.
  pose proof (bounded_nonneg Hx) as Ha. pose proof (bounded_nonneg Hy) as Hb.
  pose proof eps_pos. pose proof delta_pos.
  assert (Hab : 0 <= (a + b) * eps) by (apply Rmult_le_pos; lra).
  assert (Hxw : bounded x ((a + b) * (1 + eps) + delta))
    by (apply (bounded_weaken Hx); lra).
  assert (Hyw : bounded y ((a + b) * (1 + eps) + delta))
    by (apply (bounded_weaken Hy); lra).
  destruct Hx as (Sx & Fx & Lx), Hy as (Sy & Fy & Ly).
  destruct x as [s|s| |s mx ex]; try discriminate;
    destruct y as [s'|s'| |s' my ey]; try discriminate;
    cbn in Sx, Sy; subst; cbn [SFadd]; try assumption.
  cbn [cond_Zopp].
  set (ez := Z.min ex ey).
  pose proof (shl_align_R mx ex ez) as Hsx.
  pose proof (shl_align_R my ey ez) as Hsy.
  rewrite (shl_align_snd mx (ex' := ez)) in Hsx by (unfold ez; lia).
  rewrite (shl_align_snd my (ex' := ez)) in Hsy by (unfold ez; lia).
  set (ma := fst (shl_align mx ex ez)) in *.
  set (mb := fst (shl_align my ey ez)) in *.
  change (Zpos ma + Zpos mb)%Z with (Zpos (ma + mb)).
  cbn [binary_normalize].
  pose proof (@binary_round_R (ma + mb) ez) as Hr. cbv zeta in Hr.
  assert (Hv : IZR (Zpos (ma + mb)) * bpow ez
               = B2R (S754_finite false mx ex) + B2R (S754_finite false my ey)).
  { cbn [B2R]. rewrite Pos2Z.inj_add, plus_IZR. lra. }
  rewrite Hv in Hr.
  pose proof (B2R_nonneg (S754_finite false mx ex) eq_refl).
  pose proof (B2R_nonneg (S754_finite false my ey) eq_refl).
  eapply bounded_weaken; [apply Hr|]; nra.
Qed.

Lemma of_Z_bounded z :
  (0 <= z)%Z -> IZR z * (1 + eps) + delta < big ->
  bounded (B32.of_Z z) (IZR z * (1 + eps) + delta).
Proof.
  intros Hz Hbig. pose proof eps_pos. pose proof delta_pos.
  unfold B32.of_Z. destruct z as [|p|p]; [| |lia]; cbn [binary_normalize].
  - apply bounded_zero. lra.
  - pose proof (@binary_round_R p 0) as Hr. cbv zeta in Hr.
    replace (IZR (Zpos p) * bpow 0) with (IZR (Zpos p)) in Hr
      by (unfold bpow; cbn; lra).
    now apply Hr.
Qed.

End Bounds.

(** Upper bounds through division. *)
Section CrudeBounds.
Open Scope R_scope.

(** Rounding a value known up to its location: at most two units of the
    given exponent are added on top of the relative error. *)
Lemma round_gen_R mx ex lx :
  (0 <= mx)%Z ->
  let v := IZR mx * bpow ex in
  v * (1 + eps) + 2 * bpow ex + delta < big ->
  bounded (binary_round_aux B32.prec B32.emax false mx ex lx)
          (v * (1 + eps) + 2 * bpow ex + delta).
Proof.
  intros Hmx v Hbig.
  destruct (@binary_round_aux_shape B32.prec B32.emax false mx ex lx Hmx)
    as (m & e & Hm & He & Hgen & _ & Heq).
  rewrite Heq. clear Heq.
  pose proof (bpow_pos ex) as Hb.
  assert (Hv : 0 <= v).
  { unfold v. apply IZR_le in Hmx. nra. }
  pose proof eps_pos as Heps. pose proof delta_pos as Hdelta.
  assert (Hve : 0 <= v * eps) by (apply Rmult_le_pos; lra).
  assert (Hval : IZR m * bpow e <= v * (1 + eps) + 2 * bpow ex + delta).
  { rewrite (IZR_scaled m He).
    apply IZR_le in Hgen. rewrite plus_IZR in Hgen.
    rewrite <- bpow_IZR in Hgen by lia.
    set (n1 := (fexp B32.prec B32.emax (Zdigits2 mx + ex) - ex)%Z) in *.
    assert (Hu : bpow (Z.max 0 n1) * bpow ex <= v * eps + 2 * bpow ex + delta).
    { rewrite <- bpow_add.
      replace (Z.max 0 n1 + ex)%Z
        with (Z.max ex (fexp B32.prec B32.emax (Zdigits2 mx + ex)))
        by (unfold n1; lia).
      pose proof (bpow_max ex (fexp B32.prec B32.emax (Zdigits2 mx + ex)))
        as H1.
      rewrite fexp32 in *.
      pose proof (bpow_max (Zdigits2 mx + ex - 24) (-149)) as H2.
      fold delta in H2.
      assert (H3 : bpow (Zdigits2 mx + ex - 24) <= v * eps + bpow ex).
      { destruct mx as [|p|p]; [| |lia].
        - cbn [Zdigits2]. pose proof (@bpow_le (0 + ex - 24)%Z ex ltac:(lia)).
          lra.
        - cbn [Zdigits2]. pose proof (digits_bpow p ex). fold v in H. lra. }
      lra. }
    unfold v in *. nra. }
  destruct m as [|q|q]; [| |lia].
  - repeat split. cbn [B2R]. lra.
  - destruct (e <=? B32.emax - B32.prec)%Z eqn:Ee.
    + repeat split. cbn [B2R]. lra.
    + exfalso. apply Z.leb_gt in Ee.
      change (B32.emax - B32.prec)%Z with 104%Z in Ee.
      assert (bpow 105 <= IZR (Zpos q) * bpow e).
      { pose proof (@bpow_le 105%Z e ltac:(lia)). pose proof (bpow_pos 105).
        assert (1 <= IZR (Zpos q)) by (apply IZR_le; lia). nra. }
      unfold big in Hbig. lra.
Qed.

Lemma B2R_digits_lo m e :
  bpow (Zpos (digits2_pos m) - 1 + e) <= B2R (S754_finite false m e).
Proof.
  cbn [B2R]. pose proof (digits2_bounds m) as [Hlo _].
  rewrite bpow_add, (@bpow_IZR (Zpos (digits2_pos m) - 1)), Rmult_1_l by lia.
  apply IZR_le in Hlo.
  apply Rmult_le_compat_r; [apply Rlt_le, bpow_pos | exact Hlo].
Qed.

Lemma B2R_digits_hi m e :
  B2R (S754_finite false m e) <= bpow (Zpos (digits2_pos m) + e).
Proof.
  cbn [B2R]. pose proof (digits2_bounds m) as [_ Hhi].
  rewrite bpow_add, (@bpow_IZR (Zpos (digits2_pos m))), Rmult_1_l by lia.
  apply IZR_lt in Hhi.
  apply Rmult_le_compat_r; [apply Rlt_le, bpow_pos | lra].
Qed.

Lemma B2R_pos m e : 0 < B2R (S754_finite false m e).
Proof.
  cbn [B2R]. pose proof (bpow_pos e).
  assert (0 < IZR (Zpos m)) by (apply IZR_lt; lia). nra.
Qed.

Lemma bpow_opp e : bpow (- e) = / bpow e.
Proof.
  pose proof (bpow_pos e). pose proof (bpow_add e (- e)) as H1.
  replace (e + - e)%Z with 0%Z in H1 by lia.
  change (bpow 0) with 1 in H1. apply Rmult_eq_reg_l with (bpow e); [|lra].
  rewrite Rinv_r by lra. lra.
Qed.

(** Division by a positive finite number. *)
Lemma div_bounded x a mc ec :
  let c := S754_finite false mc ec in
  bounded x a ->
  a / B2R c * (1 + 3 * eps) + 3 * delta < big ->
  bounded (SFdiv B32.prec B32.emax x c) (a / B2R c * (1 + 3 * eps) + 3 * delta).
Proof.
  intros c Hx Hbig.
  pose proof (bounded_nonneg Hx) as Ha.
  pose proof eps_pos as Heps. pose proof delta_pos as Hdelta.
  pose proof (B2R_pos mc ec) as Hc. fold c in Hc.
  assert (Hac : 0 <= a / B2R c).
  { unfold Rdiv. apply Rmult_le_pos; [lra|].
    apply Rlt_le, Rinv_0_lt_compat. lra. }
  assert (Hnn : 0 <= a / B2R c * (1 + 3 * eps) + 3 * delta).
  { assert (0 <= a / B2R c * eps) by (apply Rmult_le_pos; lra). lra. }
  destruct Hx as (Sx & Fx & Lx).
  destruct x as [s|s| |s m1 e1]; try discriminate; cbn in Sx; subst;
    unfold c; cbn [SFdiv xorb]; [now apply bounded_zero|].
  unfold SFdiv_core_binary.
  set (d1 := Zdigits2 (Zpos m1)). set (d2 := Zdigits2 (Zpos mc)).
  set (e' := Z.min (fexp B32.prec B32.emax (d1 + e1 - (d2 + ec))) (e1 - ec)).
  set (s := (e1 - ec - e')%Z).
  assert (Hs : (0 <= s)%Z) by (unfold s, e'; lia).
  set (m' := match s with
             | 0%Z => Zpos m1
             | Zpos _ => Z.shiftl (Zpos m1) s
             | Zneg _ => 0%Z
             end).
  assert (Hm' : m' = (Zpos m1 * 2 ^ s)%Z).
  { unfold m'. destruct s as [|p|p]; [lia | | lia].
    rewrite Z.shiftl_mul_pow2 by lia. reflexivity. }
  pose proof (Z_div_mod m' (Zpos mc) ltac:(lia)) as Hdm.
  destruct (Z.div_eucl m' (Zpos mc)) as [q r].
  destruct Hdm as [Hdm Hr].
  assert (Hq : (0 <= q)%Z).
  { assert (0 < 2 ^ s)%Z by (apply Z.pow_pos_nonneg; lia). nia. }
  set (X := B2R (S754_finite false m1 e1)) in *.
  assert (HX : 0 < X) by apply B2R_pos.
  (* the quotient is below the exact quotient *)
  assert (Hqv : IZR q * bpow e' <= X / B2R c).
  { apply Rmult_le_reg_r with (B2R c); [exact Hc|].
    replace (X / B2R c * B2R c) with X by (field; lra).
    unfold c, X. cbn [B2R].
    assert (Hqm : (q * Zpos mc <= Zpos m1 * 2 ^ s)%Z) by lia.
    apply IZR_le in Hqm. rewrite !mult_IZR, <- bpow_IZR in Hqm by lia.
    replace e1 with (s + e' + ec)%Z at 1 by (unfold s; lia).
    rewrite !bpow_add.
    pose proof (bpow_pos e'). pose proof (bpow_pos ec).
    replace (IZR q * bpow e' * (1 * IZR (Zpos mc) * bpow ec))
      with (IZR q * IZR (Zpos mc) * (bpow e' * bpow ec)) by ring.
    replace (1 * IZR (Zpos m1) * (bpow s * bpow e' * bpow ec))
      with (IZR (Zpos m1) * bpow s * (bpow e' * bpow ec)) by ring.
    apply Rmult_le_compat_r; [nra | exact Hqm]. }
  (* one unit of the exponent is small against the quotient *)
  assert (Hu : bpow e' <= X / B2R c * eps + delta).
  { assert (H1 : bpow e' <= bpow (fexp B32.prec B32.emax (d1 + e1 - (d2 + ec))))
      by (apply bpow_le; unfold e'; lia).
    rewrite fexp32 in H1.
    pose proof (bpow_max (d1 + e1 - (d2 + ec) - 24) (-149)) as H2.
    fold delta in H2.
    assert (H3 : bpow (d1 + e1 - (d2 + ec) - 24) <= X / B2R c * eps).
    { pose proof (B2R_digits_lo m1 e1) as Hlo. fold X in Hlo.
      pose proof (B2R_digits_hi mc ec) as Hhi. fold c in Hhi.
      change (Zpos (digits2_pos m1)) with d1 in Hlo.
      change (Zpos (digits2_pos mc)) with d2 in Hhi.
      remember (d1 - 1 + e1)%Z as a1 eqn:Ea1.
      remember (d2 + ec)%Z as a2 eqn:Ea2.
      replace (d1 + e1 - a2 - 24)%Z with (a1 + (- a2) + -23)%Z by lia.
      rewrite !bpow_add, bpow_opp. fold eps.
      assert (HA : 0 < bpow a1) by apply bpow_pos.
      assert (HB : 0 < bpow a2) by apply bpow_pos.
      assert (Hi : / bpow a2 <= / B2R c) by (apply Rinv_le_contravar; lra).
      assert (HiB : 0 < / bpow a2) by (apply Rinv_0_lt_compat; lra).
      unfold Rdiv.
      apply Rmult_le_compat_r; [lra|].
      apply Rmult_le_compat; lra. }
    lra. }
  pose proof (@round_gen_R q e' (new_location (Zpos mc) r) Hq) as Hr'.
  cbv zeta in Hr'.
  assert (HXa : X / B2R c <= a / B2R c).
  { unfold Rdiv. apply Rmult_le_compat_r; [|exact Lx].
    apply Rlt_le, Rinv_0_lt_compat. lra. }
  assert (Hqe : 0 <= IZR q * bpow e' * eps).
  { apply IZR_le in Hq. pose proof (bpow_pos e').
    apply Rmult_le_pos; [nra | lra]. }
  assert (Hle : IZR q * bpow e' * (1 + eps) + 2 * bpow e' + delta
                <= a / B2R c * (1 + 3 * eps) + 3 * delta).
  { assert (IZR q * bpow e' * eps <= X / B2R c * eps)
      by (apply Rmult_le_compat_r; lra).
    assert (X / B2R c * eps <= a / B2R c * eps)
      by (apply Rmult_le_compat_r; lra).
    lra. }
  eapply bounded_weaken; [apply Hr'; lra | exact Hle].
Qed.

End CrudeBounds.

(** Upper bounds through the square root. *)
Section Sqrt.
Open Scope R_scope.

(** Square root: a crude bound, enough to exclude an overflow. *)
Lemma sqrt_bounded x a :
  bounded x a ->
  (1 + a) * (3 + eps) + delta < big ->
  bounded (SFsqrt B32.prec B32.emax x) ((1 + a) * (3 + eps) + delta).
Proof.
  intros Hx Hbig.
  pose proof (bounded_nonneg Hx) as Ha.
  pose proof eps_pos as Heps. pose proof delta_pos as Hdelta.
  assert (Hnn : 0 <= (1 + a) * (3 + eps) + delta) by nra.
  destruct Hx as (Sx & Fx & Lx).
  destruct x as [s|s| |s m e]; try discriminate; cbn in Sx; subst;
    cbn [SFsqrt]; [now apply bounded_zero|].
  unfold SFsqrt_core_binary.
  set (d := Zdigits2 (Zpos m)).
  set (e' := Z.min (fexp B32.prec B32.emax (Z.div2 (d + e + 1))) (Z.div2 e)).
  set (s := (e - 2 * e')%Z).
  assert (Hs : (0 <= s)%Z).
  { unfold s, e'. pose proof (Z.div2_div e) as H2.
    pose proof (Z.mul_div_le e 2 ltac:(lia)). lia. }
  set (m' := match s with
             | 0%Z => Zpos m
             | Zpos _ => Z.shiftl (Zpos m) s
             | Zneg _ => 0%Z
             end).
  assert (Hm' : m' = (Zpos m * 2 ^ s)%Z).
  { unfold m'. destruct s as [|p|p]; [lia | | lia].
    rewrite Z.shiftl_mul_pow2 by lia. reflexivity. }
  assert (Hm'pos : (0 < m')%Z).
  { rewrite Hm'. assert (0 < 2 ^ s)%Z by (apply Z.pow_pos_nonneg; lia). nia. }
  pose proof (Z.sqrtrem_spec m' ltac:(lia)) as Hsq.
  destruct (Z.sqrtrem m') as [q r].
  destruct Hsq as [Hsq Hr].
  assert (Hq : (1 <= q)%Z) by nia.
  set (X := B2R (S754_finite false m e)) in *.
  set (y := IZR q * bpow e').
  assert (Hy : 0 < y).
  { unfold y. pose proof (bpow_pos e'). assert (1 <= IZR q) by
      (apply IZR_le; lia). nra. }
  assert (Hyy : y * y <= X).
  { unfold y, X. cbn [B2R].
    assert (Hqm : (q * q <= Zpos m * 2 ^ s)%Z) by nia.
    apply IZR_le in Hqm. rewrite !mult_IZR, <- bpow_IZR in Hqm by lia.
    replace e with (s + e' + e')%Z at 1 by (unfold s; lia).
    rewrite !bpow_add. pose proof (bpow_pos e').
    replace (IZR q * bpow e' * (IZR q * bpow e'))
      with (IZR q * IZR q * (bpow e' * bpow e')) by ring.
    replace (1 * IZR (Zpos m) * (bpow s * bpow e' * bpow e'))
      with (IZR (Zpos m) * bpow s * (bpow e' * bpow e')) by ring.
    apply Rmult_le_compat_r; [nra | exact Hqm]. }
  assert (Hy1 : y <= 1 + a) by nra.
  assert (Hu : bpow e' <= y).
  { unfold y. pose proof (bpow_pos e'). assert (1 <= IZR q) by
      (apply IZR_le; lia). nra. }
  match goal with
  | |- bounded (binary_round_aux _ _ _ _ _ ?l) _ =>
      pose proof (@round_gen_R q e' l ltac:(lia)) as Hr'
  end.
  cbv zeta in Hr'. fold y in Hr'.
  assert (Hle : y * (1 + eps) + 2 * bpow e' + delta
                <= (1 + a) * (3 + eps) + delta) by nra.
  eapply bounded_weaken; [apply Hr'; lra | exact Hle].
Qed.

End Sqrt.

(** The constants as decimals. *)
Section Numbers.
Open Scope R_scope.

Lemma eps_val : eps = / 8388608.
Proof. unfold eps, bpow. cbn [powerRZ]. simpl. lra. Qed.

Lemma delta_small : delta <= / 1000000000000.
Proof.
  unfold delta. replace (-149)%Z with (-40 + -109)%Z by lia. rewrite bpow_add.
  assert (bpow (-40) <= / 1000000000000)
    by (unfold bpow; cbn [powerRZ]; simpl; lra).
  assert (bpow (-109) <= 1) by (apply (@bpow_le (-109)%Z 0%Z); lia).
  pose proof (bpow_pos (-40)). pose proof (bpow_pos (-109)). nra.
Qed.

Lemma big_large : 1000000000000 <= big.
Proof.
  unfold big. replace 105%Z with (40 + 65)%Z by lia. rewrite bpow_add.
  assert (1000000000000 <= bpow 40)
    by (unfold bpow; cbn [powerRZ]; simpl; lra).
  pose proof (@bpow_ge_1 65%Z ltac:(lia)). nra.
Qed.

End Numbers.

(** Closes a numeric side condition on [eps], [delta] and [big]. *)
Ltac numeric :=
  pose proof delta_pos; pose proof delta_small; pose proof big_large;
  rewrite ?eps_val in *; lra.

(** The value of a binary32 constant against a decimal bound. *)
Ltac constant :=
  cbn [B2R]; unfold bpow; cbn [powerRZ]; simpl; lra.

(** The filter and the pressure stay small. *)
Section FilterBound.
Open Scope R_scope.
Implicit Types (s : State B32.t) (i : Tick) (x : B32.t).

Lemma one_minus_alpha_val :
  fsub (dec 10 1) alpha = S754_finite false 15099494 (-24).
Proof. vm_compute. reflexivity. Qed.
Lemma alpha_val : alpha = S754_finite false 13421773 (-27).
Proof. vm_compute. reflexivity. Qed.
Lemma volt_per_count_val :
  fdiv (dec 50 1) (dec 10230 1) = S754_finite false 10496010 (-31).
Proof. vm_compute. reflexivity. Qed.
Lemma sensitivity_val : dec 45 2 = S754_finite false 15099494 (-25).
Proof. vm_compute. reflexivity. Qed.
Lemma thousand_val : dec 10000 1 = S754_finite false 16384000 (-14).
Proof. vm_compute. reflexivity. Qed.
Lemma k_val : k_constant = S754_finite false 12189696 (-18).
Proof. vm_compute. reflexivity. Qed.
Lemma two_val : dec 20 1 = S754_finite false 8388608 (-22).
Proof. vm_compute. reflexivity. Qed.
Lemma sixty_val : dec 600 1 = S754_finite false 15728640 (-18).
Proof. vm_compute. reflexivity. Qed.
Lemma scaler_val : VOLUME_SCALER = S754_finite false 14260634 (-23).
Proof. vm_compute. reflexivity. Qed.
Lemma deadzone_val : dec 54 1 = S754_finite false 11324621 (-21).
Proof. vm_compute. reflexivity. Qed.

Lemma bounded_const m e a :
  B2R (S754_finite false m e) <= a -> bounded (S754_finite false m e) a.
Proof. intros H. repeat split. exact H. Qed.

(** The smoothing keeps the filtered value at or below 2048. *)
Lemma smooth_bounded p a :
  bounded p 2048 -> bounded a 1024 -> bounded (smooth p a) 2048.
Proof.
  intros Hp Ha. unfold smooth. rewrite one_minus_alpha_val, alpha_val.
  cbn [fadd fmul B32.ops].
  assert (H9 : bounded (S754_finite false 15099494 (-24)) (9 / 10))
    by (apply bounded_const; constant).
  assert (H1 : bounded (S754_finite false 13421773 (-27)) (1001 / 10000))
    by (apply bounded_const; constant).
  assert (Hm1 : bounded (SFmul B32.prec B32.emax p
                           (S754_finite false 15099494 (-24))) 1844).
  { eapply bounded_weaken; [apply (mul_bounded Hp H9)|]; numeric. }
  assert (Hm2 : bounded (SFmul B32.prec B32.emax a
                           (S754_finite false 13421773 (-27))) 103).
  { eapply bounded_weaken; [apply (mul_bounded Ha H1)|]; numeric. }
  eapply bounded_weaken; [apply (add_bounded Hm1 Hm2)|]; numeric.
Qed.

Lemma pressure_bounded x : bounded x 2048 -> bounded (pressure x) 30000.
Proof.
  intros Hx. unfold pressure.
  rewrite volt_per_count_val, sensitivity_val, thousand_val.
  cbn [fmul fdiv B32.ops].
  assert (Hc : bounded (S754_finite false 10496010 (-31)) (5 / 1000))
    by (apply bounded_const; constant).
  assert (Hv : bounded (SFmul B32.prec B32.emax x
                          (S754_finite false 10496010 (-31))) 11).
  { eapply bounded_weaken; [apply (mul_bounded Hx Hc)|]; numeric. }
  assert (Hs : 44 / 100 <= B2R (S754_finite false 15099494 (-25)))
    by constant.
  assert (Hd : bounded (SFdiv B32.prec B32.emax
                          (SFmul B32.prec B32.emax x
                             (S754_finite false 10496010 (-31)))
                          (S754_finite false 15099494 (-25))) 26).
  { assert (Hq : 11 / B2R (S754_finite false 15099494 (-25)) <= 25).
    { apply Rmult_le_reg_r with (B2R (S754_finite false 15099494 (-25)));
        [lra|].
      unfold Rdiv. rewrite Rmult_assoc, Rinv_l by lra. lra. }
    assert (Hq0 : 0 < 11 / B2R (S754_finite false 15099494 (-25))).
    { apply Rdiv_lt_0_compat; lra. }
    eapply bounded_weaken; [apply (div_bounded Hv)|]; numeric. }
  assert (Ht : bounded (S754_finite false 16384000 (-14)) 1000)
    by (apply bounded_const; constant).
  eapply bounded_weaken; [apply (mul_bounded Hd Ht)|]; numeric.
Qed.

End FilterBound.

(** So do the flow, the elapsed time and the increment. *)
Section FlowBound.
Open Scope R_scope.
Implicit Types (s : State B32.t) (i : Tick) (x : B32.t).

(** A quotient by a binary32 constant known from below. *)
Lemma div_bounded_by x a m e lo b :
  bounded x a -> 0 < lo -> lo <= B2R (S754_finite false m e) ->
  a / lo * (1 + 3 * eps) + 3 * delta <= b -> b < big ->
  bounded (SFdiv B32.prec B32.emax x (S754_finite false m e)) b.
Proof.
  intros Hx Hlo Hc Hb Hbig.
  pose proof (bounded_nonneg Hx) as Ha. pose proof eps_pos.
  assert (Hq : a / B2R (S754_finite false m e) <= a / lo).
  { unfold Rdiv. apply Rmult_le_compat_l; [exact Ha|].
    apply Rinv_le_contravar; lra. }
  assert (Hq' : a / B2R (S754_finite false m e) * (1 + 3 * eps)
                <= a / lo * (1 + 3 * eps))
    by (apply Rmult_le_compat_r; lra).
  eapply bounded_weaken; [apply (div_bounded Hx)|]; lra.
Qed.

Lemma flowOf_bounded x : bounded x 2048 -> bounded (flowOf x) 5000.
Proof.
  intros Hx. pose proof (pressure_bounded Hx) as Hp.
  unfold flowOf. destruct (flt (of_int 0) (pressure x));
    [|apply bounded_zero; lra].
  rewrite thousand_val, k_val. cbn [fmul fdiv fsqrt B32.ops].
  assert (Hd : bounded (SFdiv B32.prec B32.emax (pressure x)
                          (S754_finite false 16384000 (-14))) 31).
  { apply (div_bounded_by (lo := 999) Hp); [lra | constant | numeric | numeric]. }
  assert (Hs : bounded (SFsqrt B32.prec B32.emax
                          (SFdiv B32.prec B32.emax (pressure x)
                             (S754_finite false 16384000 (-14)))) 100).
  { eapply bounded_weaken; [apply (sqrt_bounded Hd)|]; numeric. }
  assert (Hk : bounded (S754_finite false 12189696 (-18)) 47)
    by (apply bounded_const; constant).
  eapply bounded_weaken; [apply (mul_bounded Hk Hs)|]; numeric.
Qed.

Lemma tick_dt_bounded s i : bounded (tick_dt s i) 4400000.
Proof.
  unfold tick_dt. rewrite thousand_val. cbn [fdiv of_int B32.ops].
  pose proof (wrap32_range (t_loop (clk i) - previousMillis s)) as Hw.
  set (w := wrap32 (t_loop (clk i) - previousMillis s)) in *.
  assert (Hr : IZR w <= 4294967296).
  { apply IZR_le. change (2 ^ 32)%Z with 4294967296%Z in Hw. lia. }
  assert (Hr0 : 0 <= IZR w) by (apply IZR_le; lia).
  assert (Ho : bounded (B32.of_Z w) 4294970000).
  { eapply bounded_weaken; [apply of_Z_bounded; [lia|]|]; numeric. }
  apply (div_bounded_by (lo := 999) Ho); [lra | constant | numeric | numeric].
Qed.

Lemma increment_bounded f p dt :
  bounded f 5000 -> bounded p 5000 -> bounded dt 4400000 ->
  bounded (increment f p dt) 1000000000.
Proof.
  intros Hf Hp Hdt. unfold increment.
  rewrite two_val, sixty_val, scaler_val. cbn [fadd fmul fdiv B32.ops].
  assert (Ha : bounded (SFadd B32.prec B32.emax f p) 10001).
  { eapply bounded_weaken; [apply (add_bounded Hf Hp)|]; numeric. }
  assert (H2 : bounded (SFdiv B32.prec B32.emax (SFadd B32.prec B32.emax f p)
                          (S754_finite false 8388608 (-22))) 5001).
  { apply (div_bounded_by (lo := 2) Ha); [lra | constant | numeric | numeric]. }
  assert (H60 : bounded (SFdiv B32.prec B32.emax
                           (SFdiv B32.prec B32.emax
                              (SFadd B32.prec B32.emax f p)
                              (S754_finite false 8388608 (-22)))
                           (S754_finite false 15728640 (-18))) 84).
  { apply (div_bounded_by (lo := 60) H2); [lra | constant | numeric | numeric]. }
  assert (Hi : bounded (SFmul B32.prec B32.emax
                          (SFdiv B32.prec B32.emax
                             (SFdiv B32.prec B32.emax
                                (SFadd B32.prec B32.emax f p)
                                (S754_finite false 8388608 (-22)))
                             (S754_finite false 15728640 (-18))) dt)
                       370000000).
  { eapply bounded_weaken; [apply (mul_bounded H60 Hdt)|]; numeric. }
  assert (Hsc : bounded (S754_finite false 14260634 (-23)) 2)
    by (apply bounded_const; constant).
  eapply bounded_weaken; [apply (mul_bounded Hi Hsc)|]; numeric.
Qed.

Lemma signed_true_ltb x m e :
  B32.signed true x -> SFltb x (S754_finite false m e) = true.
Proof.
  unfold SFltb. destruct x as [s|s| |s m' e']; cbn; intros H; subst; easy.
Qed.

(** The sample after offset and deadzone is at most 1024. *)
Lemma adjusted_bounded offset r :
  B32.nonneg offset -> (0 <= r <= 1023)%Z -> bounded (adjusted offset r) 1024.
Proof.
  intros Ho Hr. unfold adjusted. rewrite deadzone_val.
  destruct (flt _ _) eqn:E; [apply bounded_zero; lra|].
  cbn [flt fsub of_int B32.ops] in *.
  assert (Hx : bounded (B32.of_Z r) 1023.001).
  { assert (0 <= IZR r <= 1023) by (split; apply IZR_le; lia).
    eapply bounded_weaken; [apply of_Z_bounded; [lia|]|]; numeric. }
  destruct Hx as (Sx & Fx & Lx).
  destruct (B32.of_Z r) as [s|s| |s mx ex]; try discriminate;
    destruct offset as [s'|s'| |s' my ey]; cbn in Sx, Ho; subst;
    try contradiction; cbn [SFsub] in *; try discriminate.
  - repeat split. lra.
  - cbn [cond_Zopp] in *.
    set (ez := Z.min ex ey) in *.
    pose proof (shl_align_R mx ex ez) as Hsx.
    pose proof (shl_align_R my ey ez) as Hsy.
    rewrite (shl_align_snd mx (ex' := ez)) in Hsx by (unfold ez; lia).
    rewrite (shl_align_snd my (ex' := ez)) in Hsy by (unfold ez; lia).
    set (ma := fst (shl_align mx ex ez)) in *.
    set (mb := fst (shl_align my ey ez)) in *.
    destruct (Zpos ma - Zpos mb)%Z as [|d|d] eqn:Ed;
      cbn [binary_normalize] in *.
    + discriminate.
    + pose proof (@binary_round_R d ez) as Hb. cbv zeta in Hb.
      assert (Hv : IZR (Zpos d) * bpow ez <= 1023.001).
      { rewrite <- Ed, minus_IZR, Rmult_minus_distr_r, Hsx.
        cbn [B2R] in Lx.
        assert (0 < IZR (Zpos mb) * bpow ez).
        { rewrite Hsy. pose proof (B2R_pos my ey) as H. cbn [B2R] in H. lra. }
        lra. }
      assert (Hv0 : 0 <= IZR (Zpos d) * bpow ez).
      { pose proof (bpow_pos ez). assert (0 < IZR (Zpos d)) by
          (apply IZR_lt; lia). nra. }
      eapply bounded_weaken; [apply Hb|]; numeric.
    + rewrite signed_true_ltb in E; [discriminate|].
      apply binary_round_signed.
Qed.

End FlowBound.

(** The magnitude invariant holds in every reachable session. *)
Section Invariant32.
Implicit Types (s : State B32.t) (i : Tick).

Lemma Forall_first (A : Type) (P : A -> Prop) (n : nat) (l : list A) :
  Forall P l -> Forall P (firstn n l).
Proof.
  revert l. induction n as [|n IH]; intros l H; [constructor|].
  destruct H as [|x l Hx Hl]; cbn [firstn]; constructor; auto.
Qed.

Lemma fold_add_nonneg (l : list Z) (acc : Z) :
  Forall adc_read l -> (0 <= acc)%Z -> (0 <= fold_left Z.add l acc)%Z.
Proof.
  intros H. revert acc. induction H as [|r l Hr _ IH]; intros acc Ha.
  - exact Ha.
  - cbn [fold_left]. apply IH. unfold adc_read in Hr. lia.
Qed.

Lemma session_bounded_setup reads t0 :
  Forall adc_read reads -> session_bounded (setup reads t0).
Proof.
  intros H. unfold session_bounded, setup.
  cbn [sensorOffset filteredValue previousFlow currentVol].
  split; [|split; [|split]].
  - apply fdiv_signed; [apply posfin_50|]. apply of_Z_nonneg.
    apply fold_add_nonneg; [|lia]. now apply Forall_first.
  - apply bounded_zero. lra.
  - apply bounded_zero. lra.
  - reflexivity.
Qed.

Lemma session_bounded_loop s i :
  session_bounded s -> adc_sample i -> session_bounded (fst (loop s i)).
Proof.
  intros (Ho & Hf & Hp & Hv) Hi.
  assert (Ht : bounded (tick_filtered s i) 2048).
  { apply smooth_bounded; [exact Hf|]. now apply adjusted_bounded. }
  assert (Hfl : bounded (tick_flow s i) 5000) by now apply flowOf_bounded.
  destruct (loop_fields s i) as (Hso & Hfil & _ & _ & Hcv & _ & Hpf & _).
  unfold session_bounded. rewrite Hso, Hfil, Hcv, Hpf.
  split; [exact Ho|].
  destruct (ends_breath s i).
  - repeat split; try (apply bounded_zero; lra); lra.
  - split; [exact Ht|]. split; [exact Hfl|].
    unfold measure. cbn [currentVol]. destruct (_ && _); [|exact Hv].
    apply SFadd_signed; [exact Hv|].
    apply (increment_bounded Hfl Hp (tick_dt_bounded s i)).
Qed.

Lemma session_bounded_run s ticks :
  session_bounded s -> Forall adc_sample ticks ->
  session_bounded (fst (run s ticks)).
Proof.
  intros Hs Hall. revert s Hs.
  induction Hall as [|i ticks Hi _ IH]; intros s Hs.
  - exact Hs.
  - rewrite run_cons. cbn [fst]. apply IH. now apply session_bounded_loop.
Qed.

End Invariant32.

(** The run [decay], evaluated. *)
Section DecayRun.


End DecayRun.

(** * The statements of the specification *)

(** ** Breath-end timing (C1) *)

(** C1 (as amended).  The stop timer is the clock reading taken by the last
    pass whose flow exceeded START_THRESHOLD.  After such a pass [i], and as
    long as no later pass exceeds START_THRESHOLD, a pass [j] takes the
    session from Breathing to Idle if and only if its flow is at or below
    CUTOFF_THRESHOLD and its clock reading is more than BREATH_TIMEOUT
    milliseconds (modulo 2^32) past the reading of pass [i]: the timeout
    runs from the last flow above the start threshold, not from the moment
    the flow fell to the cutoff. *)
Theorem C1_breath_ends_after_stop_timer :
  forall (F : Type) (ops : FloatOps F) (s : State F) (i : Tick)
         (mid : list Tick) (j : Tick),
    flt START_THRESHOLD (tick_flow s i) = true ->
    quiet (fst (loop s i)) (mid ++ [j]) ->
    let sj := fst (run (fst (loop s i)) mid) in
    breathStopTimer sj = t_start (clk i) /\
    ((isBreathing sj = true /\ isBreathing (fst (loop sj j)) = false) <->
     (isBreathing sj = true /\
      fle (tick_flow sj j) CUTOFF_THRESHOLD = true /\
      (BREATH_TIMEOUT < wrap32 (t_stop (clk j) - t_start (clk i)))%Z)).
Proof.
  intros F ops s i mid j Hstart Hq sj.
  apply quiet_app in Hq. destruct Hq as [Hmid [Hj _]]. fold sj in Hj.
  assert (Ht : breathStopTimer sj = t_start (clk i)).
  { unfold sj. rewrite (quiet_timer _ _ Hmid).
    destruct (loop_fields s i) as (_ & _ & _ & Ht & _). rewrite Ht.
    now rewrite measure_timer, Hstart. }
  split; [exact Ht|].
  split.
  - intros [Hb Hidle]. apply (breathing_to_idle sj j Hb) in Hidle.
    rewrite ends_breath_spec, Hj, Hb, Ht in Hidle. cbn [orb] in Hidle.
    apply andb_prop in Hidle. destruct Hidle as [Hle Hlt].
    rewrite andb_true_l in Hle. apply Z.ltb_lt in Hlt. auto.
  - intros (Hb & Hle & Hlt). split; [exact Hb|].
    apply (breathing_to_idle sj j Hb).
    rewrite ends_breath_spec, Hj, Hb, Ht, Hle. cbn [orb andb].
    now apply Z.ltb_lt.
Qed.

(** C1 (as amended) on the run [breath]: [i] is the pass at 1950 ms, the
    last one above START_THRESHOLD, and [j] the pass at 3000 ms. *)
Lemma C1_witness :
  let s := Scenario.after 38 in
  let i := Scenario.at_time 500 1950 in
  let mid := firstn 20 (skipn 39 Scenario.breath) in
  let j := Scenario.at_time 500 3000 in
  let sj := fst (run (fst (loop s i)) mid) in
  breathStopTimer sj = t_start (clk i) /\
  ((isBreathing sj = true /\ isBreathing (fst (loop sj j)) = false) <->
   (isBreathing sj = true /\
    fle (tick_flow sj j) CUTOFF_THRESHOLD = true /\
    (BREATH_TIMEOUT < wrap32 (t_stop (clk j) - t_start (clk i)))%Z)).
Proof.
  assert (H1 : flt START_THRESHOLD
                 (tick_flow (Scenario.after 38) (Scenario.at_time 500 1950))
               = true) by (vm_compute; reflexivity).
  assert (H2 : quiet (fst (loop (Scenario.after 38) (Scenario.at_time 500 1950)))
                 (firstn 20 (skipn 39 Scenario.breath)
                  ++ [Scenario.at_time 500 3000])).
  { vm_compute. repeat (split; [reflexivity|]). exact I. }
  exact (C1_breath_ends_after_stop_timer B32.ops (Scenario.after 38)
           (Scenario.at_time 500 1950)
           (firstn 20 (skipn 39 Scenario.breath))
           (Scenario.at_time 500 3000) H1 H2).
Defined.

(** C1, counterexample.  In the run [breath] the flow is still above
    CUTOFF_THRESHOLD in the pass at 2600 ms and is at or below it from the
    pass at 2650 ms on; the last pass above START_THRESHOLD is at 1950 ms;
    the breath is finalized by the pass at 3000 ms, 350 ms after the flow
    fell to the cutoff and 400 ms after a pass above it, with a pass every
    50 ms. *)
Lemma C1_counterexample :
  ~ ends_only_after_timeout_below_cutoff 50 Scenario.breath_obs /\
  map (@o_time _) (skipn 51 Scenario.breath_obs)
  = [2600; 2650; 2700; 2750; 2800; 2850; 2900; 2950; 3000]%Z /\
  map (fun o => fle (o_flow o) CUTOFF_THRESHOLD) (skipn 51 Scenario.breath_obs)
  = [false; true; true; true; true; true; true; true; true] /\
  map (@o_ended _) (skipn 51 Scenario.breath_obs)
  = [false; false; false; false; false; false; false; false; true] /\
  map (@o_breathing _) (skipn 51 Scenario.breath_obs)
  = [true; true; true; true; true; true; true; true; false] /\
  breathStopTimer (Scenario.after 59) = 1950%Z.
Proof.
  split; [|split; [|split; [|split; [|split]]]; vm_compute; reflexivity].
  intros H.
  pose (d := mkObs 0%Z (of_int (F:=B32.t) 0) (of_int 0) (of_int 0) false false).
  assert (Ej : nth_error Scenario.breath_obs 59
               = Some (nth 59 Scenario.breath_obs d))
    by (vm_compute; reflexivity).
  assert (Ek : nth_error Scenario.breath_obs 51
               = Some (nth 51 Scenario.breath_obs d))
    by (vm_compute; reflexivity).
  assert (Hend : o_ended (nth 59 Scenario.breath_obs d) = true)
    by (vm_compute; reflexivity).
  assert (Hle : (51 <= 59)%nat) by lia.
  assert (Ht : (o_time (nth 59 Scenario.breath_obs d)
                - o_time (nth 51 Scenario.breath_obs d) + 50
                < BREATH_TIMEOUT)%Z)
    by (vm_compute; reflexivity).
  specialize (H _ _ _ _ Ej Hend Hle Ek Ht).
  assert (Hk : fle (o_flow (nth 51 Scenario.breath_obs d)) CUTOFF_THRESHOLD
               = false) by (vm_compute; reflexivity).
  congruence.
Qed.

(** ** The deadzone (C2) *)

(** C2 (as amended).  In a pass whose sample the deadzone forces to 0, the
    sample contributes nothing to the filtered value, which becomes the
    previous filtered value times (1 - alpha) (plus 0 times alpha), and the
    flow of the pass is the flow of that decayed value, which in general is
    not 0.  It is exactly 0 when the previous filtered value is 0. *)
Theorem C2_deadzone_flow :
  (forall (F : Type) (ops : FloatOps F) (s : State F) (i : Tick),
      flt (fsub (of_int (raw i)) (sensorOffset s)) (dec 54 1) = true ->
      adjusted (sensorOffset s) (raw i) = of_int 0 /\
      tick_filtered s i =
        fadd (fmul (filteredValue s) (fsub (dec 10 1) alpha))
             (fmul (of_int 0) alpha) /\
      tick_flow s i = flowOf (tick_filtered s i)) /\
  (forall (s : State B32.t) (i : Tick),
      flt (fsub (of_int (raw i)) (sensorOffset s)) (dec 54 1) = true ->
      filteredValue s = S754_zero false ->
      tick_flow s i = S754_zero false).
Proof.
  assert (G : forall (F : Type) (ops : FloatOps F) (s : State F) (i : Tick),
             flt (fsub (of_int (raw i)) (sensorOffset s)) (dec 54 1) = true ->
             adjusted (sensorOffset s) (raw i) = of_int 0).
  { intros F ops s i H. unfold adjusted. now rewrite H. }
  split.
  - intros F ops s i H. split; [now apply G|]. split; [|reflexivity].
    unfold tick_filtered. rewrite (G _ _ _ _ H). reflexivity.
  - intros s i H H0. unfold tick_flow, tick_filtered.
    rewrite (G _ _ _ _ H), H0. reflexivity.
Qed.

(** C2 (as amended) at power-up, with a sample equal to the baseline. *)
Lemma C2_witness :
  tick_flow Scenario.power_up (Scenario.at_time 500 50) = S754_zero false.
Proof.
  assert (H1 : flt (fsub (of_int (raw (Scenario.at_time 500 50)))
                         (sensorOffset Scenario.power_up)) (dec 54 1) = true)
    by (vm_compute; reflexivity).
  assert (H2 : filteredValue Scenario.power_up = S754_zero false)
    by (vm_compute; reflexivity).
  exact (proj2 C2_deadzone_flow Scenario.power_up
               (Scenario.at_time 500 50) H1 H2).
Defined.

(** C2, counterexample.  After the first pass of [breath] the filtered value
    is 10; in the next pass the sample equals the baseline, the deadzone
    forces it to 0, and the flow of that pass is above 14.5, not 0. *)
Lemma C2_counterexample :
  reachable (Scenario.after 1) /\
  adjusted (sensorOffset (Scenario.after 1)) 500 = of_int 0 /\
  ~ deadzone_zeroes_flow (Scenario.after 1) (Scenario.at_time 500 100) /\
  flt (dec 145 1) (tick_flow (Scenario.after 1) (Scenario.at_time 500 100))
  = true.
Proof.
  split; [|split; [|split]].
  - apply reachable_run, reachable_setup.
  - vm_compute. reflexivity.
  - intros H.
    assert (Hdz : flt (fsub (of_int 500) (sensorOffset (Scenario.after 1)))
                      (dec 54 1) = true) by (vm_compute; reflexivity).
    specialize (H Hdz). apply (f_equal (flt (of_int 0))) in H.
    assert (H1 : flt (of_int 0)
                   (tick_flow (Scenario.after 1) (Scenario.at_time 500 100))
                 = true) by (vm_compute; reflexivity).
    assert (H2 : flt (of_int 0) (of_int (F:=B32.t) 0) = false)
      by (vm_compute; reflexivity).
    congruence.
  - vm_compute. reflexivity.
Qed.

(** ** The flow model (C3) *)

(** C3.  For every arithmetic the flow is [k_constant * sqrt (pressurePa /
    1000.0)] when [pressurePa > 0] and the constant 0 otherwise, with
    [voltage = filtered * (5.0 / 1023.0)] and [pressurePa = (voltage / 0.45)
    * 1000.0].  Under exact arithmetic this is 46.5 * sqrt (pressure / 1000)
    for positive pressure and 0 otherwise, and the flow is never negative.
    In binary32 the flow compares at or above 0 for every filtered value,
    NaN and the infinities included: it is never negative and never NaN. *)
Theorem C3_flow_conversion :
  (forall (F : Type) (ops : FloatOps F) (filtered : F),
      let voltage := fmul filtered (fdiv (dec 50 1) (dec 10230 1)) in
      let pressurePa := fmul (fdiv voltage (dec 45 2)) (dec 10000 1) in
      flowOf filtered =
      if flt (of_int 0) pressurePa
      then fmul k_constant (fsqrt (fdiv pressurePa (dec 10000 1)))
      else of_int 0) /\
  (forall filtered : R,
      let voltage := (filtered * (5 / 1023))%R in
      let pressure_Pa := (voltage / 0.45 * 1000)%R in
      flowOf filtered =
      (if Rlt_dec 0 pressure_Pa then 46.5 * sqrt (pressure_Pa / 1000) else 0)%R
      /\ (0 <= flowOf filtered)%R) /\
  (forall filtered : B32.t,
      fle (of_int 0) (flowOf filtered) = true /\ flowOf filtered <> S754_nan).
Proof.
  split; [|split].
  - reflexivity.
  - intros filtered voltage pressure_Pa. split; [|apply flowOf_nonneg].
    rewrite flowOf_R, pressure_R. reflexivity.
  - intros filtered. pose proof (flowOf_nonneg32 filtered) as H. split.
    + now apply signed_zero_leb.
    + exact (signed_not_nan _ H).
Qed.

(** ** The finalized breath (C4) *)




(** ** Volume integration (C5, C6) *)

(** C5 (as amended).  The increment of a pass is
    ((flow + previousFlow) / 2 / 60) * dt * VOLUME_SCALER; the integration
    step adds it to the accumulated volume if and only if the session is
    breathing once the start check of the same pass has run and the flow is
    above CUTOFF_THRESHOLD, and otherwise leaves the volume as it was; the
    pass ends with that volume, except that a pass finalizing a breath ends
    with the volume reset to 0. *)
Theorem C5_volume_integration :
  forall (F : Type) (ops : FloatOps F) (s : State F) (i : Tick),
    let flow := tick_flow s i in
    let dt := fdiv (of_int (wrap32 (t_loop (clk i) - previousMillis s)))
                   (dec 10000 1) in
    let inc := fmul (fmul (fdiv (fdiv (fadd flow (previousFlow s)) (dec 20 1))
                                (dec 600 1)) dt) VOLUME_SCALER in
    let breathing := flt START_THRESHOLD flow || isBreathing s in
    currentVol (measure s i) =
      (if breathing && flt CUTOFF_THRESHOLD flow
       then fadd (currentVol s) inc else currentVol s) /\
    currentVol (fst (loop s i)) =
      (if ends_breath s i then of_int 0 else currentVol (measure s i)).
Proof.
  intros F ops s i flow dt inc breathing. split.
  - unfold measure. cbn [currentVol]. fold (tick_flow s i). fold flow.
    unfold breathing. destruct (flt START_THRESHOLD flow); reflexivity.
  - now destruct (loop_fields s i) as (_ & _ & _ & _ & Hv & _).
Qed.

(** C5, counterexample.  Before the pass at 3000 ms of [breath] the
    accumulated volume is above 0.39; the flow of that pass is below the
    cutoff, so nothing is added, yet the pass finalizes the breath and ends
    with the volume at 0. *)
Lemma C5_counterexample :
  reachable (Scenario.after 59) /\
  flt CUTOFF_THRESHOLD
      (tick_flow (Scenario.after 59) (Scenario.at_time 500 3000)) = false /\
  flt (dec 39 2) (currentVol (Scenario.after 59)) = true /\
  currentVol (fst (loop (Scenario.after 59) (Scenario.at_time 500 3000)))
  = of_int 0 /\
  ~ volume_only_integrates (Scenario.after 59) (Scenario.at_time 500 3000).
Proof.
  split; [|split; [|split; [|split]]].
  - apply reachable_run, reachable_setup.
  - vm_compute. reflexivity.
  - vm_compute. reflexivity.
  - vm_compute. reflexivity.
  - unfold volume_only_integrates. intros H.
    apply (f_equal (flt (of_int 0))) in H.
    assert (H1 : flt (of_int 0)
                   (currentVol (fst (loop (Scenario.after 59)
                                          (Scenario.at_time 500 3000))))
                 = false) by (vm_compute; reflexivity).
    rewrite H1 in H. symmetry in H.
    assert (H2 : isBreathing (measure (Scenario.after 59)
                                      (Scenario.at_time 500 3000))
                 && flt CUTOFF_THRESHOLD
                      (tick_flow (Scenario.after 59) (Scenario.at_time 500 3000))
                 = false) by (vm_compute; reflexivity).
    rewrite H2 in H.
    assert (H3 : flt (of_int 0) (currentVol (Scenario.after 59)) = true)
      by (vm_compute; reflexivity).
    congruence.
Qed.

(** C6.  In every reachable session the accumulated volume is at least 0:
    flow rates, elapsed times and increments are never negative, and a pass
    leaves the volume as it was, adds the increment to it, or resets it to
    0.  This holds under exact arithmetic and, for calibration readings and
    samples in the range of the converter, in binary32 (where "at least 0"
    also says "not NaN").  In binary32, whatever the inputs, the accumulated
    volume never compares below 0. *)
Theorem C6_volume_never_negative :
  (forall (reads : list Z) (t0 : Z) (ticks : list Tick),
      let s := fst (run (setup (F:=R) reads t0) ticks) in
      (0 <= currentVol s)%R /\
      forall i : Tick,
        let inc := increment (tick_flow s i) (previousFlow s) (tick_dt s i) in
        (0 <= tick_flow s i)%R /\ (0 <= tick_dt s i)%R /\ (0 <= inc)%R /\
        (currentVol (fst (loop s i)) = currentVol s \/
         currentVol (fst (loop s i)) = (currentVol s + inc)%R \/
         (currentVol (fst (loop s i)) = 0%R /\ ends_breath s i = true))) /\
  (forall (reads : list Z) (t0 : Z) (ticks : list Tick),
      Forall adc_read reads -> Forall adc_sample ticks ->
      let s := fst (run (setup (F:=B32.t) reads t0) ticks) in
      fle (of_int 0) (currentVol s) = true /\
      forall i : Tick,
        adc_sample i ->
        let inc := increment (tick_flow s i) (previousFlow s) (tick_dt s i) in
        fle (of_int 0) (tick_flow s i) = true /\
        fle (of_int 0) (tick_dt s i) = true /\
        fle (of_int 0) inc = true /\
        (currentVol (fst (loop s i)) = currentVol s \/
         currentVol (fst (loop s i)) = fadd (currentVol s) inc \/
         (currentVol (fst (loop s i)) = of_int 0 /\ ends_breath s i = true))) /\
  (forall (reads : list Z) (t0 : Z) (ticks : list Tick),
      let s := fst (run (setup (F:=B32.t) reads t0) ticks) in
      flt (currentVol s) (of_int 0) = false).
Proof.
  assert (Step : forall (F : Type) (ops : FloatOps F) (s : State F) (i : Tick),
             currentVol (fst (loop s i)) = currentVol s \/
             currentVol (fst (loop s i)) =
               fadd (currentVol s)
                    (increment (tick_flow s i) (previousFlow s) (tick_dt s i)) \/
             (currentVol (fst (loop s i)) = of_int 0 /\
              ends_breath s i = true)).
  { intros F ops s i.
    destruct (loop_fields s i) as (_ & _ & _ & _ & Hv & _). rewrite Hv.
    destruct (ends_breath s i); [auto|].
    unfold measure. cbn [currentVol]. fold (tick_flow s i).
    destruct (_ && _); auto. }
  split; [|split].
  - intros reads t0 ticks s.
    assert (Hok : session_ok s).
    { apply reachable_ok. now exists reads, t0, ticks. }
    split; [apply Hok|]. intros i inc.
    assert (Hflow : (0 <= tick_flow s i)%R) by apply flowOf_nonneg.
    assert (Hdt : (0 <= tick_dt s i)%R) by apply tick_dt_nonneg.
    assert (Hinc : (0 <= inc)%R).
    { apply increment_nonneg; auto.
      destruct Hok as (_ & _ & _ & ->). apply flowOf_nonneg. }
    split; [exact Hflow|]. split; [exact Hdt|]. split; [exact Hinc|].
    apply (Step R Rops s i).
  - intros reads t0 ticks Hr Ht s.
    assert (Hs : session_bounded s)
      by apply (session_bounded_run (session_bounded_setup t0 Hr) Ht).
    split; [apply signed_zero_leb, Hs|]. intros i Hi inc.
    destruct Hs as (Ho & Hf & Hp & Hv).
    assert (Hfl : bounded (tick_flow s i) 5000).
    { apply flowOf_bounded, smooth_bounded; [exact Hf|].
      now apply adjusted_bounded. }
    pose proof (tick_dt_bounded s i) as Hdt.
    pose proof (increment_bounded Hfl Hp Hdt) as Hinc.
    split; [apply signed_zero_leb, Hfl|].
    split; [apply signed_zero_leb, Hdt|].
    split; [apply signed_zero_leb, Hinc|].
    apply (Step _ B32.ops s i).
  - intros reads t0 ticks s.
    assert (Hs : session_signed s).
    { apply (reachable_ind session_signed).
      - apply session_signed_setup.
      - intros. now apply session_signed_loop.
      - now exists reads, t0, ticks. }
    apply not_negative_ltb, Hs.
Qed.

(** C6 in binary32 after the first two passes of the run [breath]. *)
Lemma C6_witness :
  fle (of_int 0)
      (currentVol (fst (run (setup (F:=B32.t) (repeat 500%Z 50) 0)
                            (firstn 2 Scenario.breath)))) = true.
Proof.
  assert (H1 : Forall adc_read (repeat 500%Z 50)).
  { apply Forall_forall. intros r Hin. apply repeat_spec in Hin. subst r.
    unfold adc_read. lia. }
  assert (H2 : Forall adc_sample (firstn 2 Scenario.breath)).
  { repeat constructor; cbn; lia. }
  exact (proj1 (proj1 (proj2 C6_volume_never_negative) (repeat 500%Z 50) 0%Z
                      (firstn 2 Scenario.breath) H1 H2)).
Defined.

(** ** Peak tracking (C7) *)

(** C7.  In a pass that does not finalize a breath, peakFlow either keeps its
    value or takes the flow of the pass, which is then strictly above it;
    so over any stretch of passes without a breath end peakFlow never
    decreases, and a pass that lowers peakFlow is a pass that finalizes a
    breath and leaves peakFlow at 0. *)
Theorem C7_peak_never_decreases_within_breath :
  (forall (F : Type) (ops : FloatOps F) (ord : FloatOrder F) (s : State F),
      (forall i : Tick,
          ends_breath s i = false ->
          (peakFlow (fst (loop s i)) = peakFlow s \/
           flt (peakFlow s) (peakFlow (fst (loop s i))) = true) /\
          flt (peakFlow (fst (loop s i))) (peakFlow s) = false) /\
      (forall ticks : list Tick,
          summaries (snd (run s ticks)) = [] ->
          (peakFlow (fst (run s ticks)) = peakFlow s \/
           flt (peakFlow s) (peakFlow (fst (run s ticks))) = true) /\
          flt (peakFlow (fst (run s ticks))) (peakFlow s) = false) /\
      (forall i : Tick,
          flt (peakFlow (fst (loop s i))) (peakFlow s) = true ->
          ends_breath s i = true /\ peakFlow (fst (loop s i)) = of_int 0)) /\
  (forall (s : State R) (ticks : list Tick),
      summaries (snd (run s ticks)) = [] ->
      (peakFlow s <= peakFlow (fst (run s ticks)))%R).
Proof.
  assert (A : forall (F : Type) (ops : FloatOps F) (ord : FloatOrder F)
                     (p p' : F),
             p' = p \/ flt p p' = true -> flt p' p = false).
  { intros F ops ord p p' [-> | H]; [apply flt_irrefl | now apply flt_asym]. }
  assert (T : forall (F : Type) (ops : FloatOps F) (ord : FloatOrder F)
                     (s : State F) (i : Tick),
             ends_breath s i = false ->
             peakFlow (fst (loop s i)) = peakFlow s \/
             flt (peakFlow s) (peakFlow (fst (loop s i))) = true).
  { intros F ops ord s i He. rewrite loop_peak, He.
    destruct (measure_peak s i) as [H | (H & _)]; auto. }
  split.
  - intros F ops ord s. split; [|split].
    + intros i He. split; [now apply T | now apply A, T].
    + intros ticks Hs. split; [now apply peak_run | now apply A, peak_run].
    + intros i Hlt. destruct (ends_breath s i) eqn:He.
      * split; [reflexivity|]. now rewrite loop_peak, He.
      * pose proof (A _ _ _ _ _ (T _ _ _ s i He)). congruence.
  - intros s ticks Hs.
    pose proof (A _ _ _ _ _ (peak_run s ticks Hs)) as H.
    cbn [flt Rops] in H. now apply Rltb_false in H.
Qed.

(** C7 on the first 40 passes of the run [breath], none of which finalizes
    a breath. *)
Lemma C7_witness :
  flt (peakFlow (fst (run Scenario.power_up (firstn 40 Scenario.breath))))
      (peakFlow Scenario.power_up) = false.
Proof.
  assert (H : summaries (snd (run Scenario.power_up
                                  (firstn 40 Scenario.breath))) = [])
    by (vm_compute; reflexivity).
  exact (proj2 (proj1 (proj2 (proj1 C7_peak_never_decreases_within_breath
                                B32.t B32.ops order32 Scenario.power_up))
                      (firstn 40 Scenario.breath) H)).
Defined.

(** ** Still air (C8) *)

(** C8.  From Idle, whatever the inputs (constant or not), as long as no
    pass computes a flow strictly above START_THRESHOLD the session is Idle
    after every pass, no breath is finalized and the accumulated volume keeps
    its value.  In particular, calibrated at a reading [r] and fed the
    constant sample [r], no pass exceeds the threshold: the session stays
    Idle, nothing is finalized and the volume stays 0, under exact
    arithmetic and, for every reading of the converter, in binary32. *)
Theorem C8_idle_stays_idle :
  (forall (F : Type) (ops : FloatOps F) (s : State F) (ticks : list Tick)
          (n : nat),
      isBreathing s = false -> quiet s ticks ->
      isBreathing (fst (run s (firstn n ticks))) = false /\
      summaries (snd (run s (firstn n ticks))) = [] /\
      currentVol (fst (run s (firstn n ticks))) = currentVol s) /\
  (forall (r t0 : Z) (clocks : list Clock) (n : nat),
      let s0 := setup (F:=R) (repeat r 50) t0 in
      let ticks := map (mkTick r) clocks in
      quiet s0 ticks /\
      isBreathing (fst (run s0 (firstn n ticks))) = false /\
      summaries (snd (run s0 (firstn n ticks))) = [] /\
      currentVol (fst (run s0 (firstn n ticks))) = 0%R) /\
  (forall (r t0 : Z) (clocks : list Clock) (n : nat),
      (0 <= r <= 1023)%Z ->
      let s0 := setup (F:=B32.t) (repeat r 50) t0 in
      let ticks := map (mkTick r) clocks in
      quiet s0 ticks /\
      isBreathing (fst (run s0 (firstn n ticks))) = false /\
      summaries (snd (run s0 (firstn n ticks))) = [] /\
      currentVol (fst (run s0 (firstn n ticks))) = S754_zero false).
Proof.
  assert (G : forall (F : Type) (ops : FloatOps F) (s : State F)
                     (ticks : list Tick) (n : nat),
             isBreathing s = false -> quiet s ticks ->
             isBreathing (fst (run s (firstn n ticks))) = false /\
             summaries (snd (run s (firstn n ticks))) = [] /\
             currentVol (fst (run s (firstn n ticks))) = currentVol s).
  { intros F ops s ticks n Hidle Hq. apply quiet_idle; [exact Hidle|].
    rewrite <- (firstn_skipn n ticks) in Hq. now apply quiet_app in Hq. }
  split; [exact G|]. split.
  - intros r t0 clocks n s0 ticks.
    assert (Hrest : at_rest r s0).
    { unfold at_rest, s0. rewrite setup_offset_R. auto. }
    assert (Hq : quiet s0 ticks) by now apply at_rest_run_quiet.
    split; [exact Hq|].
    destruct (G _ _ s0 ticks n (proj2 (proj2 Hrest)) Hq) as (H1 & H2 & H3).
    now rewrite H1, H2, H3.
  - intros r t0 clocks n Hr s0 ticks.
    assert (Hrest : at_rest32 r s0).
    { unfold at_rest32, s0. rewrite setup_offset_32 by exact Hr. auto. }
    assert (Hq : quiet s0 ticks) by now apply at_rest32_run_quiet.
    split; [exact Hq|].
    destruct (G _ _ s0 ticks n (proj2 (proj2 Hrest)) Hq) as (H1 & H2 & H3).
    now rewrite H1, H2, H3.
Qed.

(** C8 in binary32, calibrated at 500 and fed 500: two passes. *)
Lemma C8_witness :
  let s0 := setup (F:=B32.t) (repeat 500%Z 50) 0 in
  let ticks := map (mkTick 500) [mkClock 10 10 10 10 10 10;
                                 mkClock 20 20 20 20 20 20] in
  quiet s0 ticks /\
  isBreathing (fst (run s0 (firstn 2 ticks))) = false /\
  summaries (snd (run s0 (firstn 2 ticks))) = [] /\
  currentVol (fst (run s0 (firstn 2 ticks))) = S754_zero false.
Proof.
  assert (H : (0 <= 500 <= 1023)%Z) by lia.
  exact (proj2 (proj2 C8_idle_stays_idle) 500%Z 0%Z
               [mkClock 10 10 10 10 10 10; mkClock 20 20 20 20 20 20]
               2%nat H).
Defined.

(** ** Determinism (C9) *)

(** C9 (as amended).  A pass derives dt from the difference (modulo 2^32)
    between the clock reading at its top and the stored reading of the
    previous pass, and stores the new reading (or, after a finalized breath,
    the reading taken on return from the results window).  It reads the
    clock again when it restarts the stop timer, when it checks the timeout,
    and for the display refresh.  Two runs fed identical samples and
    identical readings at the top of the pass, at the timer restart, at the
    timeout check and at the results reset show identical flow rates,
    volumes, peak flows and breath-state transitions, whatever the readings
    of the display refresh. *)
Theorem C9_determined_by_clock_readings :
  (forall (F : Type) (ops : FloatOps F) (s : State F) (i : Tick),
      tick_dt s i =
        fdiv (of_int (wrap32 (t_loop (clk i) - previousMillis s))) (dec 10000 1)
      /\ previousMillis (fst (loop s i)) =
         (if ends_breath s i then t_reset (clk i) else t_loop (clk i))) /\
  (forall (F : Type) (ops : FloatOps F) (s1 s2 : State F)
          (ticks1 ticks2 : list Tick),
      core s1 = core s2 ->
      Forall2 same_core_input ticks1 ticks2 ->
      observe s1 ticks1 = observe s2 ticks2 /\
      core (fst (run s1 ticks1)) = core (fst (run s2 ticks2)) /\
      summaries (snd (run s1 ticks1)) = summaries (snd (run s2 ticks2))).
Proof.
  split.
  - intros F ops s i. split; [reflexivity|].
    now destruct (loop_fields s i) as (_ & _ & Hp & _).
  - intros F ops s1 s2 ticks1 ticks2 Hc Hall. revert s1 s2 Hc.
    induction Hall as [|i1 i2 l1 l2 Hi _ IH]; intros s1 s2 Hc.
    + cbn. auto.
    + destruct (same_core_step Hc Hi) as (Ho & Hs & Hsum).
      destruct (IH _ _ Hs) as (IH1 & IH2 & IH3).
      rewrite !run_cons. cbn [observe fst snd].
      rewrite !summaries_app, Ho, IH1, Hsum, IH3. auto.
Qed.

(** C9 (as amended) on the run [breath], with and without a shifted display
    clock. *)
Lemma C9_witness :
  observe Scenario.power_up Scenario.breath =
  observe Scenario.power_up Scenario.breath_other_refresh.
Proof.
  refine (proj1 (proj2 C9_determined_by_clock_readings _ _
                   Scenario.power_up Scenario.power_up
                   Scenario.breath Scenario.breath_other_refresh _ _)).
  - reflexivity.
  - unfold Scenario.breath_other_refresh.
    induction Scenario.breath as [|i l IH]; cbn [map]; constructor.
    + repeat split.
    + exact IH.
Defined.

(** C9, counterexample.  [breath] and [breath_clock_advances] feed the same
    samples at the same pass times; in the second the clock advances by one
    millisecond inside the pass at 2950 ms, before the stop logic reads it,
    and the breath is finalized by that pass instead of the next. *)
Lemma C9_counterexample :
  map raw Scenario.breath = map raw Scenario.breath_clock_advances /\
  map (fun i => t_loop (clk i)) Scenario.breath
  = map (fun i => t_loop (clk i)) Scenario.breath_clock_advances /\
  map (@o_ended _) (skipn 57 (observe Scenario.power_up Scenario.breath))
  = [false; false; true] /\
  map (@o_ended _)
      (skipn 57 (observe Scenario.power_up Scenario.breath_clock_advances))
  = [false; true; false] /\
  ~ determined_by_tick_time Scenario.power_up.
Proof.
  assert (H1 : map raw Scenario.breath = map raw Scenario.breath_clock_advances)
    by (vm_compute; reflexivity).
  assert (H2 : map (fun i => t_loop (clk i)) Scenario.breath
               = map (fun i => t_loop (clk i)) Scenario.breath_clock_advances)
    by (vm_compute; reflexivity).
  assert (H3 : map (@o_ended _)
                   (skipn 57 (observe Scenario.power_up Scenario.breath))
               = [false; false; true]) by (vm_compute; reflexivity).
  assert (H4 : map (@o_ended _)
                   (skipn 57 (observe Scenario.power_up
                                      Scenario.breath_clock_advances))
               = [false; true; false]) by (vm_compute; reflexivity).
  repeat (split; [assumption|]).
  intros H. specialize (H _ _ H1 H2). rewrite H, H4 in H3. discriminate H3.
Qed.

(** ** The filter (C10) *)

(** C10.  In every reachable session the filtered value is at least 0; so
    are the adjusted sample, the next filtered value and the pressure of
    every pass, and the pass takes the zero-flow branch exactly when its
    pressure is 0.  This holds under exact arithmetic and, for samples in
    the range of the converter, in binary32 (where "at least 0" also says
    "not NaN"). *)
Theorem C10_filtered_never_negative :
  (forall (reads : list Z) (t0 : Z) (ticks : list Tick),
      let s := fst (run (setup (F:=R) reads t0) ticks) in
      (0 <= filteredValue s)%R /\
      forall i : Tick,
        (0 <= adjusted (sensorOffset s) (raw i))%R /\
        (0 <= tick_filtered s i)%R /\
        (0 <= pressure (tick_filtered s i))%R /\
        (flt (of_int 0) (pressure (tick_filtered s i)) = false <->
         pressure (tick_filtered s i) = 0%R)) /\
  (forall (reads : list Z) (t0 : Z) (ticks : list Tick),
      Forall adc_sample ticks ->
      let s := fst (run (setup (F:=B32.t) reads t0) ticks) in
      fle (of_int 0) (filteredValue s) = true /\
      forall i : Tick,
        adc_sample i ->
        fle (of_int 0) (adjusted (sensorOffset s) (raw i)) = true /\
        fle (of_int 0) (tick_filtered s i) = true /\
        fle (of_int 0) (pressure (tick_filtered s i)) = true /\
        (flt (of_int 0) (pressure (tick_filtered s i)) = false <->
         pressure (tick_filtered s i) = S754_zero false)).
Proof.
  split.
  - intros reads t0 ticks s.
    assert (Hok : session_ok s).
    { apply reachable_ok. now exists reads, t0, ticks. }
    destruct Hok as (Hf & _). split; [exact Hf|]. intros i.
    assert (Ht : (0 <= tick_filtered s i)%R) by now apply tick_filtered_nonneg.
    assert (Hp : (0 <= pressure (tick_filtered s i))%R)
      by now apply pressure_sign.
    repeat split; auto using adjusted_nonneg.
    + cbn [flt of_int Rops]. intros H. apply Rltb_false in H. lra.
    + cbn [flt of_int Rops]. intros H. apply Rltb_false. lra.
  - intros reads t0 ticks Hall s.
    assert (Hs : filter_signed s).
    { apply filter_signed_run; [apply filter_signed_setup | exact Hall]. }
    split; [apply signed_zero_leb, Hs|]. intros i Hi.
    pose proof (tick_filtered_nonneg32 Hs Hi) as Ht.
    pose proof (@pressure_nonneg _ Ht) as Hp.
    split; [|split; [|split; [|split]]].
    + apply signed_zero_leb, adjusted_nonneg32; [apply Hs | exact Hi].
    + now apply signed_zero_leb.
    + now apply signed_zero_leb.
    + now apply signed_not_gt_zero.
    + intros ->. reflexivity.
Qed.

(** C10 in binary32 after the first two passes of the run [breath]. *)
Lemma C10_witness :
  fle (of_int 0)
      (filteredValue (fst (run (setup (F:=B32.t) (repeat 500%Z 50) 0)
                               (firstn 2 Scenario.breath)))) = true.
Proof.
  assert (H : Forall adc_sample (firstn 2 Scenario.breath)).
  { repeat constructor; cbn; lia. }
  exact (proj1 (proj2 C10_filtered_never_negative (repeat 500%Z 50) 0%Z
                      (firstn 2 Scenario.breath) H)).
Defined.

(** * Further properties of the sketch *)

(** ** The clock and the display *)

Section Rollover.
Open Scope Z_scope.

Lemma wrap32_elapsed (T1 T2 : Z) :
  0 <= T2 - T1 < 2 ^ 32 -> wrap32 (wrap32 T2 - wrap32 T1) = T2 - T1.
Proof.
  intros H. unfold wrap32. rewrite <- Zminus_mod. now apply Z.mod_small.
Qed.

End Rollover.

Section DisplayFacts.
Context {F : Type} {ops : FloatOps F}.
Implicit Types (s : State F) (i : Tick).

Lemma lives_app (e1 e2 : list (Event F)) :
  lives (e1 ++ e2) = lives e1 ++ lives e2.
Proof. apply filter_app. Qed.

Lemma stop_logic_display s1 f i :
  lastDisplayTime (fst (stop_logic s1 f i)) = lastDisplayTime s1 /\
  lives (snd (stop_logic s1 f i)) = [] /\
  summaries (snd (stop_logic s1 f i)) = snd (stop_logic s1 f i).
Proof.
  unfold stop_logic. destruct (stops s1 f i); cbn; auto.
Qed.

Lemma loop_events s i :
  snd (loop s i) =
  (if ends_breath s i
   then [Results (peakFlow (measure s i)) (currentVol (measure s i))] else [])
  ++ (if refresh_due s i
      then [Live (tick_flow s i) (currentVol (fst (loop s i)))] else []).
Proof.
  unfold loop, stop_logic, ends_breath, refresh, refresh_due, updateLiveScreen.
  destruct (stops (measure s i) (tick_flow s i) i); cbn [showResultsWindow];
    cbn [lastDisplayTime measure];
    destruct (150 <? wrap32 (t_disp (clk i) - lastDisplayTime s))%Z;
    reflexivity.
Qed.

Lemma loop_display s i :
  lastDisplayTime (fst (loop s i)) =
  if refresh_due s i then t_shown (clk i) else lastDisplayTime s.
Proof.
  unfold loop, stop_logic, refresh, refresh_due.
  destruct (stops (measure s i) (tick_flow s i) i); cbn [showResultsWindow];
    cbn [lastDisplayTime measure];
    destruct (150 <? wrap32 (t_disp (clk i) - lastDisplayTime s))%Z;
    reflexivity.
Qed.

Lemma loop_lives s i :
  lives (snd (loop s i)) =
  if refresh_due s i
  then [Live (tick_flow s i) (currentVol (fst (loop s i)))] else [].
Proof.
  rewrite loop_events, lives_app.
  destruct (ends_breath s i), (refresh_due s i); reflexivity.
Qed.

Lemma run_no_refresh s ticks :
  Forall (fun i => (wrap32 (t_disp (clk i) - lastDisplayTime s) <= 150)%Z) ticks ->
  lives (snd (run s ticks)) = [] /\
  lastDisplayTime (fst (run s ticks)) = lastDisplayTime s.
Proof.
  revert s; induction ticks as [|i ticks IH]; intros s Hall.
  - cbn. auto.
  - inversion Hall as [|? ? Hi Hrest]; subst.
    assert (Hd : refresh_due s i = false)
      by (unfold refresh_due; apply Z.ltb_ge; exact Hi).
    rewrite run_cons. cbn [fst snd].
    pose proof (loop_display s i) as Hl. rewrite Hd in Hl.
    rewrite <- Hl in Hrest. destruct (IH _ Hrest) as [H1 H2].
    rewrite lives_app, loop_lives, Hd, H1, H2. auto.
Qed.

Lemma flows_cons s i ticks :
  flows s (i :: ticks) = tick_flow s i :: flows (fst (loop s i)) ticks.
Proof. reflexivity. Qed.

End DisplayFacts.

(** ** The calibration, the breath state and the reset *)

Section Calibration.
Context {F : Type} {ops : FloatOps F}.
Implicit Types (s : State F) (i : Tick).

Lemma run_offset s ticks : sensorOffset (fst (run s ticks)) = sensorOffset s.
Proof.
  revert s; induction ticks as [|i ticks IH]; intros s.
  - reflexivity.
  - rewrite run_cons. cbn [fst]. rewrite IH.
    now destruct (loop_fields s i) as (H & _).
Qed.

End Calibration.

Section BreathState.
Context {F : Type} {ops : FloatOps F} {ord : FloatOrder F}.
Hypothesis zero_lt_start : flt (of_int 0) (START_THRESHOLD (F:=F)) = true.
Implicit Types (s : State F) (i : Tick).

Lemma breath_state_setup reads t0 : breath_state_ok (setup (F:=F) reads t0).
Proof.
  split; cbn [setup isBreathing currentVol peakFlow dec]; [auto | discriminate].
Qed.

Lemma breath_state_measure s i :
  breath_state_ok s -> breath_state_ok (measure s i).
Proof.
  intros [Hidle Hbreath]. split.
  - rewrite measure_breathing. intros Hb. apply orb_false_elim in Hb.
    destruct Hb as [Hq Hb]. destruct (Hidle Hb) as [Hv Hp].
    unfold measure. cbn [currentVol peakFlow]. fold (tick_flow s i).
    rewrite Hq, Hb. cbn [andb]. auto.
  - intros Hbm. rewrite measure_breathing in Hbm.
    unfold measure. cbn [peakFlow]. fold (tick_flow s i).
    destruct (flt START_THRESHOLD (tick_flow s i)) eqn:Hq; cbn [andb].
    + destruct (flt (peakFlow s) (tick_flow s i)) eqn:Hp; [exact Hq|].
      destruct (isBreathing s) eqn:Hb; [now apply Hbreath|].
      destruct (Hidle eq_refl) as [_ H0]. rewrite H0 in Hp.
      pose proof (flt_trans _ _ _ zero_lt_start Hq). congruence.
    + cbn [orb] in Hbm. now apply Hbreath.
Qed.

Lemma breath_state_loop s i :
  breath_state_ok s -> breath_state_ok (fst (loop s i)).
Proof.
  intros H. apply (breath_state_measure i) in H. destruct H as [Hidle Hbreath].
  destruct (loop_fields s i) as (_ & _ & _ & _ & Hv & Hp & _ & Hb).
  unfold breath_state_ok. rewrite Hv, Hp, Hb.
  destruct (ends_breath s i); [split; [auto | discriminate]|].
  split; assumption.
Qed.

Lemma breath_state_reachable s : reachable s -> breath_state_ok s.
Proof.
  apply reachable_ind.
  - apply breath_state_setup.
  - intros. now apply breath_state_loop.
Qed.

Lemma loop_peaks_above_start s i :
  breath_state_ok s -> peaks_above_start (snd (loop s i)).
Proof.
  intros H. apply (breath_state_measure i) in H. destruct H as [_ Hbreath].
  rewrite loop_events. unfold peaks_above_start.
  apply Forall_app. split.
  - destruct (ends_breath s i) eqn:He; [|constructor].
    constructor; [|constructor]. apply Hbreath.
    unfold ends_breath, stops in He.
    apply andb_prop in He. destruct He as [He _].
    apply andb_prop in He. tauto.
  - destruct (refresh_due s i); repeat constructor.
Qed.

Lemma run_peaks_above_start s ticks :
  breath_state_ok s -> peaks_above_start (snd (run s ticks)).
Proof.
  revert s; induction ticks as [|i ticks IH]; intros s H.
  - constructor.
  - rewrite run_cons. cbn [snd]. apply Forall_app. split.
    + now apply loop_peaks_above_start.
    + now apply IH, breath_state_loop.
Qed.

End BreathState.

Section Reset.
Context {F : Type} {ops : FloatOps F}.
Implicit Types (s : State F) (i : Tick).

Lemma same_core_input_refl i : same_core_input i i.
Proof. repeat split. Qed.

Lemma same_core_run s1 s2 ticks :
  core s1 = core s2 ->
  observe s1 ticks = observe s2 ticks /\
  summaries (snd (run s1 ticks)) = summaries (snd (run s2 ticks)).
Proof.
  revert s1 s2; induction ticks as [|i ticks IH]; intros s1 s2 Hc.
  - cbn. auto.
  - destruct (same_core_step Hc (same_core_input_refl i)) as (Ho & Hs & Hsum).
    destruct (IH _ _ Hs) as (IH1 & IH2).
    rewrite !run_cons. cbn [observe fst snd].
    rewrite !summaries_app, Ho, IH1, Hsum, IH2. auto.
Qed.

Lemma measure_eq s i :
  measure s i =
  mkState (sensorOffset s) (tick_filtered s i) (t_loop (clk i))
    (lastDisplayTime s)
    (if flt START_THRESHOLD (tick_flow s i) then t_start (clk i)
     else breathStopTimer s)
    (if (if flt START_THRESHOLD (tick_flow s i) then true
         else isBreathing s) && flt CUTOFF_THRESHOLD (tick_flow s i)
     then fadd (currentVol s)
               (increment (tick_flow s i) (previousFlow s) (tick_dt s i))
     else currentVol s)
    (if flt START_THRESHOLD (tick_flow s i)
        && flt (peakFlow s) (tick_flow s i)
     then tick_flow s i else peakFlow s)
    (tick_flow s i)
    (if flt START_THRESHOLD (tick_flow s i) then true
     else isBreathing s).
Proof. reflexivity. Qed.

(** An idle session reads its stop timer only after a pass above the start
    threshold has restarted it. *)
Lemma idle_alike_step s1 s2 i :
  idle_alike s1 s2 ->
  obs_of s1 i = obs_of s2 i /\
  summaries (snd (loop s1 i)) = summaries (snd (loop s2 i)) /\
  (idle_alike (fst (loop s1 i)) (fst (loop s2 i)) \/
   core (fst (loop s1 i)) = core (fst (loop s2 i))).
Proof.
  intros (Ho & Hf & Hm & Hv & Hp & Hpf & Hb1 & Hb2).
  assert (Hfil : tick_filtered s1 i = tick_filtered s2 i)
    by (unfold tick_filtered; now rewrite Ho, Hf).
  assert (Hflow : tick_flow s1 i = tick_flow s2 i)
    by (unfold tick_flow; now rewrite Hfil).
  assert (Hdt : tick_dt s1 i = tick_dt s2 i)
    by (unfold tick_dt; now rewrite Hm).
  destruct (flt START_THRESHOLD (tick_flow s1 i)) eqn:Hq.
  - (* both sessions start a breath and restart the timer *)
    assert (Hq2 : flt START_THRESHOLD (tick_flow s2 i) = true)
      by now rewrite <- Hflow.
    assert (Hc : core (measure s1 i) = core (measure s2 i)).
    { rewrite !measure_eq. unfold core.
      cbn [sensorOffset filteredValue previousMillis breathStopTimer currentVol
           peakFlow previousFlow isBreathing].
      rewrite Hq, Hq2, <- Hflow, <- Hfil, <- Hdt, Ho, Hv, Hp, Hpf. reflexivity. }
    assert (He : ends_breath s1 i = ends_breath s2 i).
    { unfold ends_breath, stops. rewrite <- Hflow.
      apply core_inj in Hc.
      destruct Hc as (_ & _ & _ & -> & _ & _ & _ & ->). reflexivity. }
    assert (Hs : core (fst (loop s1 i)) = core (fst (loop s2 i))).
    { rewrite !loop_state, <- He, Hc, Ho.
      apply core_inj in Hc. destruct Hc as (_ & _ & _ & -> & _).
      reflexivity. }
    split; [|split; [|right; exact Hs]].
    + unfold obs_of. rewrite <- Hflow, <- He.
      apply core_inj in Hs.
      destruct Hs as (_ & _ & _ & _ & -> & -> & _ & ->). reflexivity.
    + rewrite !loop_summaries, <- He.
      apply core_inj in Hc.
      destruct Hc as (_ & _ & _ & _ & -> & -> & _). reflexivity.
  - (* both sessions stay idle *)
    assert (Hq2 : flt START_THRESHOLD (tick_flow s2 i) = false)
      by now rewrite <- Hflow.
    assert (He1 : ends_breath s1 i = false)
      by now rewrite ends_breath_spec, Hq, Hb1.
    assert (He2 : ends_breath s2 i = false)
      by now rewrite ends_breath_spec, Hq2, Hb2.
    destruct (loop_fields s1 i) as (A1 & A2 & A3 & _ & A5 & A6 & A7 & A8).
    destruct (loop_fields s2 i) as (B1 & B2 & B3 & _ & B5 & B6 & B7 & B8).
    rewrite He1 in *. rewrite He2 in *.
    assert (Hcv : currentVol (measure s1 i) = currentVol (measure s2 i)).
    { rewrite !measure_eq. cbn [currentVol]. rewrite Hq, Hq2, Hb1, Hb2. exact Hv. }
    assert (Hpk : peakFlow (measure s1 i) = peakFlow (measure s2 i)).
    { rewrite !measure_eq. cbn [peakFlow]. rewrite Hq, Hq2. exact Hp. }
    assert (Hbm1 : isBreathing (measure s1 i) = false)
      by now rewrite measure_breathing, Hq, Hb1.
    assert (Hbm2 : isBreathing (measure s2 i) = false)
      by now rewrite measure_breathing, Hq2, Hb2.
    split; [|split; [|left]].
    + unfold obs_of. rewrite He1, He2, A5, A6, A8, B5, B6, B8.
      now rewrite Hflow, Hcv, Hpk, Hbm1, Hbm2.
    + now rewrite !loop_summaries, He1, He2.
    + unfold idle_alike.
      rewrite A1, A2, A3, A5, A6, A7, A8, B1, B2, B3, B5, B6, B7, B8.
      rewrite Hbm1, Hbm2, Hcv, Hpk, Hfil, Hflow, Ho. repeat split.
Qed.

Lemma idle_alike_run s1 s2 ticks :
  idle_alike s1 s2 ->
  observe s1 ticks = observe s2 ticks /\
  summaries (snd (run s1 ticks)) = summaries (snd (run s2 ticks)).
Proof.
  revert s1 s2; induction ticks as [|i ticks IH]; intros s1 s2 H.
  - cbn. auto.
  - destruct (idle_alike_step i H) as (Ho & Hsum & Hnext).
    rewrite !run_cons. cbn [observe fst snd]. rewrite !summaries_app, Ho, Hsum.
    destruct Hnext as [Hn | Hn].
    + destruct (IH _ _ Hn) as [-> ->]. auto.
    + destruct (same_core_run ticks Hn) as [-> ->]. auto.
Qed.

End Reset.

(** ** The flow curve and the range of the session, exact arithmetic *)

Section FlowCurve.
Open Scope R_scope.

Lemma flowOf_pos_R x :
  0 < x -> flowOf x = 46.5 * sqrt (x * (5 / 1023) / 0.45).
Proof.
  intros Hx. rewrite flowOf_R, pressure_R.
  destruct (Rlt_dec _ _) as [|Hn]; [|exfalso; apply Hn; lra].
  f_equal. f_equal. lra.
Qed.

Lemma flowOf_mono x y : x <= y -> flowOf x <= flowOf y.
Proof.
  intros Hxy. destruct (Rle_dec x 0) as [Hx|Hx].
  - rewrite (flowOf_zero Hx). apply flowOf_nonneg.
  - rewrite !flowOf_pos_R by lra.
    apply Rmult_le_compat_l; [lra|]. apply sqrt_le_1_alt. lra.
Qed.

Lemma flowOf_full_scale : flowOf 1023 = 155.
Proof.
  rewrite flowOf_pos_R by lra.
  replace (1023 * (5 / 1023) / 0.45) with ((10 / 3) * (10 / 3)) by lra.
  rewrite sqrt_square by lra. lra.
Qed.

Lemma flowOf_above_start x : 0.54 <= x -> 2 < flowOf x.
Proof.
  intros Hx. apply Rlt_le_trans with (flowOf 0.54); [|now apply flowOf_mono].
  rewrite flowOf_pos_R by lra.
  assert (H : 0.044 < sqrt (0.54 * (5 / 1023) / 0.45)).
  { rewrite <- (sqrt_square 0.044) at 1 by lra.
    apply sqrt_lt_1_alt. lra. }
  lra.
Qed.

End FlowCurve.

Section Range.
Open Scope R_scope.
Implicit Types (s : State R) (i : Tick).

Lemma fold_add_bounds (lo hi : Z) (l : list Z) (acc : Z) :
  Forall (fun r => lo <= r <= hi)%Z l ->
  (acc + Z.of_nat (length l) * lo <= fold_left Z.add l acc
   <= acc + Z.of_nat (length l) * hi)%Z.
Proof.
  intros H. revert acc. induction H as [|r l Hr _ IH]; intros acc.
  - cbn. lia.
  - cbn [fold_left length]. specialize (IH (acc + r)%Z). lia.
Qed.

Lemma setup_offset_mean reads t0 :
  sensorOffset (setup (F:=R) reads t0)
  = IZR (fold_left Z.add (firstn 50 reads) 0%Z) / 50.
Proof.
  unfold setup. cbn [sensorOffset]. unfold dec. cbn [of_int fdiv Rops].
  replace (10 ^ Z.of_nat 1)%Z with 10%Z by reflexivity.
  replace (500 / 10) with 50 by lra. reflexivity.
Qed.

Lemma setup_offset_between (lo hi : Z) reads t0 :
  (50 <= length reads)%nat ->
  Forall (fun r => lo <= r <= hi)%Z (firstn 50 reads) ->
  IZR lo <= sensorOffset (setup (F:=R) reads t0) <= IZR hi.
Proof.
  intros Hlen Hall. rewrite setup_offset_mean.
  pose proof (fold_add_bounds 0 Hall) as H.
  rewrite length_firstn, Nat.min_l in H by exact Hlen.
  change (Z.of_nat 50) with 50%Z in H. destruct H as [H1 H2].
  apply IZR_le in H1, H2. rewrite plus_IZR, mult_IZR in H1, H2. lra.
Qed.

Lemma adjusted_in_range offset r :
  0 <= offset -> (0 <= r <= 1023)%Z -> 0 <= adjusted offset r <= 1023.
Proof.
  intros Ho [H0 H1]. rewrite adjusted_R. apply IZR_le in H1.
  destruct (Rlt_dec _ _); lra.
Qed.

Lemma session_in_range_setup reads t0 :
  Forall adc_read reads -> session_in_range (setup (F:=R) reads t0).
Proof.
  intros Hall.
  assert (Hf : Forall (fun r => 0 <= r <= 1023)%Z (firstn 50 reads))
    by exact (Forall_first 50 Hall).
  pose proof (fold_add_bounds 0 Hf) as H.
  assert (Hlen : (length (firstn 50 reads) <= 50)%nat) by apply firstn_le_length.
  unfold session_in_range. rewrite setup_offset_mean.
  cbn [setup filteredValue peakFlow previousFlow dec of_int Rops].
  rewrite flowOf_zero by lra.
  assert (H1 : (0 <= fold_left Z.add (firstn 50 reads) 0)%Z) by lia.
  assert (H3 : (fold_left Z.add (firstn 50 reads) 0 <= 50 * 1023)%Z) by lia.
  apply IZR_le in H1, H3. rewrite mult_IZR in H3.
  repeat split; lra.
Qed.

Lemma tick_filtered_in_range s i :
  session_in_range s -> adc_sample i -> 0 <= tick_filtered s i <= 1023.
Proof.
  intros (Ho & Hf & _) Hi. unfold tick_filtered. rewrite smooth_R.
  pose proof (adjusted_in_range (proj1 Ho) Hi). lra.
Qed.

Lemma tick_flow_in_range s i :
  session_in_range s -> adc_sample i -> 0 <= tick_flow s i <= 155.
Proof.
  intros Hs Hi. split; [apply flowOf_nonneg|].
  rewrite <- flowOf_full_scale. apply flowOf_mono.
  now apply tick_filtered_in_range.
Qed.

Lemma session_in_range_loop s i :
  session_in_range s -> adc_sample i -> session_in_range (fst (loop s i)).
Proof.
  intros Hs Hi. pose proof (tick_filtered_in_range Hs Hi) as Hf.
  pose proof (tick_flow_in_range Hs Hi) as Hfl.
  destruct Hs as (Ho & _ & Hp & _).
  destruct (loop_fields s i) as (A1 & A2 & _ & _ & _ & A6 & A7 & _).
  unfold session_in_range. rewrite A1, A2, A6, A7.
  destruct (ends_breath s i); cbn [of_int Rops].
  - rewrite flowOf_zero by lra. repeat split; lra.
  - repeat split; try lra.
    destruct (measure_peak s i) as [-> | (_ & _ & ->)]; lra.
Qed.

Lemma session_in_range_run s ticks :
  session_in_range s -> Forall adc_sample ticks ->
  session_in_range (fst (run s ticks)).
Proof.
  intros Hs Hall. revert s Hs.
  induction Hall as [|i ticks Hi _ IH]; intros s Hs.
  - exact Hs.
  - rewrite run_cons. cbn [fst]. now apply IH, session_in_range_loop.
Qed.

End Range.

Section Deadzone.
Open Scope R_scope.
Implicit Types (s : State R) (i : Tick).

(** With the offset at a whole count [r], the deadzone cuts between 5 and 6
    counts above it. *)
Lemma adjusted_counts (r rawv : Z) :
  adjusted (IZR r) rawv = if (rawv <=? r + 5)%Z then 0 else IZR (rawv - r).
Proof.
  rewrite adjusted_R, <- minus_IZR.
  destruct (rawv <=? r + 5)%Z eqn:E.
  - apply Z.leb_le in E. assert (H : (rawv - r <= 5)%Z) by lia.
    apply IZR_le in H. destruct (Rlt_dec _ _); [reflexivity | lra].
  - apply Z.leb_gt in E. assert (H : (6 <= rawv - r)%Z) by lia.
    apply IZR_le in H. destruct (Rlt_dec _ _); [lra | reflexivity].
Qed.

(** A sample that passes the deadzone lifts the flow above the start
    threshold in the same pass. *)
Lemma passing_sample_flow s i :
  0 <= filteredValue s -> 5.4 <= IZR (raw i) - sensorOffset s ->
  2 < tick_flow s i.
Proof.
  intros Hf Hraw. apply flowOf_above_start.
  unfold tick_filtered. rewrite smooth_R, adjusted_R.
  destruct (Rlt_dec _ _); lra.
Qed.

End Deadzone.

Section StartR.
Open Scope R_scope.
Implicit Types (s : State R) (i : Tick).

Lemma zero_lt_start_R : flt (of_int 0) (START_THRESHOLD (F:=R)) = true.
Proof. rewrite START_THRESHOLD_R. cbn [flt of_int Rops]. apply Rltb_true. lra. Qed.

End StartR.

Section FlowAndPeak.
Open Scope R_scope.
Implicit Types (s : State R) (i : Tick).

(** After the start check, the flow of the pass is at most the peak when
    the session is breathing, and at most the start threshold when not. *)
Lemma measure_flow_le_peak s i :
  breath_state_ok s ->
  if isBreathing (measure s i) then tick_flow s i <= peakFlow (measure s i)
  else tick_flow s i <= 2.
Proof.
  intros [Hidle Hbreath]. rewrite measure_breathing.
  unfold measure. cbn [peakFlow]. fold (tick_flow s i).
  destruct (flt START_THRESHOLD (tick_flow s i)) eqn:Hq; cbn [orb andb];
    rewrite START_THRESHOLD_R in Hq; cbn [flt Rops] in Hq.
  - destruct (flt (peakFlow s) (tick_flow s i)) eqn:Hp; cbn [flt Rops] in Hp.
    + lra.
    + now apply Rltb_false in Hp.
  - apply Rltb_false in Hq. destruct (isBreathing s); [|exact Hq].
    specialize (Hbreath eq_refl). rewrite START_THRESHOLD_R in Hbreath.
    cbn [flt Rops] in Hbreath. apply Rltb_true in Hbreath. lra.
Qed.

End FlowAndPeak.

(** ** The bar and the conversion to [int] *)

Section BarFacts.
Open Scope Z_scope.

Lemma bar_range (b ms : Z) :
  0 <= b -> ms = 100 \/ ms = 600 ->
  let c := if ms <? b then ms else b in
  0 <= arduino_map c 0 ms 0 128 <= 128 /\
  (b <= ms -> c = b) /\
  (ms = 600 -> b <= 155 -> arduino_map c 0 ms 0 128 <= 33).
Proof.
  intros Hb Hms c. unfold arduino_map.
  assert (Hc : 0 <= c <= ms) by (unfold c; destruct (Z.ltb_spec ms b); lia).
  replace ((c - 0) * (128 - 0)) with (c * 128) by lia.
  replace (ms - 0) with ms by lia.
  rewrite Z.quot_div_nonneg by lia.
  split; [|split].
  - split.
    + assert (0 <= c * 128 / ms) by (apply Z.div_pos; lia). lia.
    + assert (c * 128 / ms <= ms * 128 / ms)
        by (apply Z.div_le_mono; lia).
      replace (ms * 128) with (128 * ms) in H by lia.
      rewrite Z.div_mul in H by lia. lia.
  - intros Hle. unfold c. destruct (Z.ltb_spec ms b); lia.
  - intros -> H155.
    assert (c <= 155) by (unfold c; destruct (Z.ltb_spec 600 b); lia).
    assert (c * 128 / 600 <= 155 * 128 / 600)
      by (apply Z.div_le_mono; lia).
    change (155 * 128 / 600) with 33 in H0. lia.
Qed.

End BarFacts.

Section Truncation.
Open Scope R_scope.

Lemma Rtrunc_range (x : R) (n : Z) :
  0 <= x <= IZR n -> (0 <= Rtrunc x <= n)%Z.
Proof.
  intros [H0 H1]. unfold Rtrunc. destruct (Rle_dec 0 x); [|contradiction].
  destruct (base_Int_part x) as [Hlo Hhi]. split.
  - assert (H : (-1 < Int_part x)%Z) by (apply lt_IZR; lra). lia.
  - apply le_IZR. lra.
Qed.

Lemma trunc32_range (x : B32.t) (a : R) :
  bounded x a -> (0 <= trunc32 x)%Z /\ IZR (trunc32 x) <= a.
Proof.
  intros (Hs & Hf & Hv).
  destruct x as [s|s| |s m e]; cbn in Hs, Hf; try discriminate; subst.
  - cbn in *. split; [lia | exact Hv].
  - cbn [trunc32 B2R] in *.
    assert (Hm : 0 < IZR (Zpos m)) by (apply IZR_lt; lia).
    destruct e as [|p|p].
    + split; [lia|]. change (bpow 0) with 1 in Hv.
      change (2 ^ 0)%Z with 1%Z. rewrite Z.mul_1_r. lra.
    + split; [lia|]. rewrite mult_IZR, <- bpow_IZR by lia. lra.
    + assert (Hp : (0 < 2 ^ Zpos p)%Z) by (apply Z.pow_pos_nonneg; lia).
      split; [apply Z.div_pos; lia|].
      pose proof (Z.mul_div_le (Zpos m) (2 ^ Zpos p) Hp) as Hq.
      apply IZR_le in Hq. rewrite mult_IZR, <- bpow_IZR in Hq by lia.
      change (Zneg p) with (- Zpos p)%Z in Hv. rewrite bpow_opp in Hv.
      pose proof (bpow_pos (Zpos p)) as Hb.
      apply Rle_trans with (1 * IZR (Zpos m) * / bpow (Zpos p)); [|exact Hv].
      apply Rmult_le_reg_r with (bpow (Zpos p)); [exact Hb|].
      rewrite Rmult_assoc, Rmult_assoc, Rinv_l by lra. lra.
Qed.

End Truncation.

(** ** The binary32 session *)

Section Binary32Session.

Lemma zero_lt_start_32 : flt (of_int 0) (START_THRESHOLD (F:=B32.t)) = true.
Proof. vm_compute. reflexivity. Qed.

Lemma tick_flow_bounded s i :
  session_bounded s -> adc_sample i -> bounded (tick_flow s i) 5000.
Proof.
  intros (Ho & Hf & _) Hi.
  apply flowOf_bounded, smooth_bounded; [exact Hf|].
  now apply adjusted_bounded.
Qed.

Lemma peak_bounded_setup reads t0 : peak_bounded (setup reads t0).
Proof. apply bounded_zero. lra. Qed.

Lemma peak_bounded_loop s i :
  session_bounded s -> adc_sample i -> peak_bounded s ->
  peak_bounded (fst (loop s i)).
Proof.
  intros Hs Hi Hp. unfold peak_bounded. rewrite loop_peak.
  destruct (ends_breath s i); [apply bounded_zero; lra|].
  destruct (measure_peak s i) as [-> | (_ & _ & ->)];
    [exact Hp | now apply tick_flow_bounded].
Qed.

Lemma peak_bounded_run s ticks :
  session_bounded s -> Forall adc_sample ticks -> peak_bounded s ->
  peak_bounded (fst (run s ticks)).
Proof.
  intros Hs Hall. revert s Hs.
  induction Hall as [|i ticks Hi _ IH]; intros s Hs Hp.
  - exact Hp.
  - rewrite run_cons. cbn [fst]. apply IH.
    + now apply session_bounded_loop.
    + now apply peak_bounded_loop.
Qed.

End Binary32Session.

Section OrderTotal32.
Open Scope Z_scope.

Lemma SFltb_leb x y : SFltb x y = true -> SFleb x y = true.
Proof.
  unfold SFltb, SFleb. destruct (SFcompare x y) as [[]|]; congruence.
Qed.

Lemma SFleb_total x y :
  x <> S754_nan -> y <> S754_nan -> SFltb x y = false -> SFleb y x = true.
Proof.
  intros Hx Hy. unfold SFltb, SFleb. rewrite (SFcompare_antisym x y).
  destruct (SFcompare x y) as [[]|] eqn:E; cbn; try congruence.
  intros _. destruct x, y; cbn in E; congruence.
Qed.

Lemma SFleb_refl x : x <> S754_nan -> SFleb x x = true.
Proof.
  intros Hx. unfold SFleb.
  destruct x as [s|s| |s m e]; cbn; try reflexivity; try congruence;
    try (destruct s; reflexivity).
  fold (Pos.compare m m). rewrite Z.compare_refl, Pos.compare_refl.
  destruct s; reflexivity.
Qed.

Lemma SFleb_ltb_trans x y z :
  SFleb x y = true -> SFltb y z = true -> SFltb x z = true.
Proof.
  unfold SFltb, SFleb.
  destruct x as [s|s| |s m e]; destruct y as [s'|s'| |s' m' e'];
    destruct z as [s''|s''| |s'' m'' e'']; cbn;
    try discriminate; try reflexivity;
    try (destruct s; discriminate || reflexivity);
    try (destruct s'; discriminate || reflexivity);
    try (destruct s''; discriminate || reflexivity);
    try (destruct s, s'; discriminate || reflexivity);
    try (destruct s, s''; discriminate || reflexivity);
    try (destruct s', s''; discriminate || reflexivity);
    try (destruct s, s', s''; discriminate || reflexivity).
  fold (Pos.compare m m'). fold (Pos.compare m' m''). fold (Pos.compare m m'').
  destruct s, s', s''; try discriminate; try reflexivity;
    destruct (Z.compare_spec e e') as [E1|E1|E1],
             (Z.compare_spec e' e'') as [E2|E2|E2],
             (Z.compare_spec e e'') as [E3|E3|E3];
    try discriminate; try reflexivity; try lia;
    destruct (Pos.compare_spec m m') as [P1|P1|P1],
             (Pos.compare_spec m' m'') as [P2|P2|P2],
             (Pos.compare_spec m m'') as [P3|P3|P3];
    cbn; try discriminate; try reflexivity; try lia.
Qed.

End OrderTotal32.

(** ** Counts in binary32 *)

Section Counts32.
Open Scope Z_scope.

Lemma difference_enum (f : Z -> bool) :
  forallb f count_differences = true ->
  forall d, -1023 <= d <= 1023 -> f d = true.
Proof.
  intros H d Hd. rewrite forallb_forall in H. apply H.
  unfold count_differences. rewrite in_map_iff. exists (Z.to_nat (d + 1023)).
  split; [lia|]. apply in_seq. lia.
Qed.

(** The conversion of a count is exact. *)
Lemma of_Z_count a :
  1 <= a <= 1023 -> B32.of_Z a = count_float a.
Proof.
  intros Ha. apply eqb_eq.
  assert (H : 0 <= a <= 1023) by lia. revert H.
  assert (Hne : (a =? 0) = false) by (apply Z.eqb_neq; lia).
  intros H.
  pose proof (adc_enum (fun a => (a =? 0) || B32.eqb (B32.of_Z a) (count_float a))) as E.
  cbv beta in E. rewrite <- (E ltac:(vm_compute; reflexivity) a H), Hne.
  reflexivity.
Qed.

Lemma shl_align_fst mx ex ez :
  ez <= ex -> Zpos (fst (shl_align mx ex ez)) = Zpos mx * 2 ^ (ex - ez).
Proof.
  intros H. unfold shl_align.
  destruct (ez - ex) as [|d|d] eqn:E; cbn [fst]; try lia.
  - replace (ex - ez) with 0 by lia. lia.
  - rewrite iter_xO. f_equal. f_equal. lia.
Qed.

(** A count difference scaled to the common exponent of two counts rounds to
    the conversion of the difference. *)
Lemma scaled_difference d k :
  -1023 <= d <= 1023 -> 14 <= k <= 23 ->
  binary_normalize B32.prec B32.emax (d * 2 ^ k) (- k) false = B32.of_Z d.
Proof.
  intros Hd Hk. apply eqb_eq.
  pose proof (difference_enum
    (fun d => forallb (fun k => B32.eqb
       (binary_normalize B32.prec B32.emax (d * 2 ^ k) (- k) false)
       (B32.of_Z d)) [14; 15; 16; 17; 18; 19; 20; 21; 22; 23])) as E.
  cbv beta in E. specialize (E ltac:(vm_compute; reflexivity) d Hd).
  rewrite forallb_forall in E. apply E.
  assert (Hc : k = 14 \/ k = 15 \/ k = 16 \/ k = 17 \/ k = 18 \/ k = 19 \/
               k = 20 \/ k = 21 \/ k = 22 \/ k = 23) by lia.
  cbn [In]. intuition.
Qed.

End Counts32.

Section Deadzone32.
Open Scope Z_scope.

Lemma log2_count a : 1 <= a <= 1023 -> 0 <= Z.log2 a <= 9.
Proof.
  intros Ha. split; [apply Z.log2_nonneg|].
  assert (Z.log2 a < 10) by (apply Z.log2_lt_pow2; lia). lia.
Qed.

Lemma count_mantissa_pos a :
  1 <= a <= 1023 ->
  Zpos (Z.to_pos (a * 2 ^ (23 - Z.log2 a))) = a * 2 ^ (23 - Z.log2 a).
Proof.
  intros Ha. pose proof (log2_count Ha).
  assert (0 < 2 ^ (23 - Z.log2 a)) by (apply Z.pow_pos_nonneg; lia).
  apply Z2Pos.id. nia.
Qed.

(** The difference of two counts is exact. *)
Lemma fsub_counts a b :
  0 <= a <= 1023 -> 0 <= b <= 1023 ->
  SFsub B32.prec B32.emax (B32.of_Z a) (B32.of_Z b) = B32.of_Z (a - b).
Proof.
  intros Ha Hb.
  destruct (Z.eq_dec b 0) as [->|Hb0].
  { apply eqb_eq.
    apply (adc_enum (fun a => B32.eqb (SFsub B32.prec B32.emax (B32.of_Z a)
                                          (B32.of_Z 0)) (B32.of_Z (a - 0))));
      [vm_compute; reflexivity | exact Ha]. }
  destruct (Z.eq_dec a 0) as [->|Ha0].
  { apply eqb_eq.
    apply (adc_enum (fun b => B32.eqb (SFsub B32.prec B32.emax (B32.of_Z 0)
                                          (B32.of_Z b)) (B32.of_Z (0 - b))));
      [vm_compute; reflexivity | exact Hb]. }
  assert (Ha1 : 1 <= a <= 1023) by lia. assert (Hb1 : 1 <= b <= 1023) by lia.
  pose proof (log2_count Ha1) as La. pose proof (log2_count Hb1) as Lb.
  rewrite (of_Z_count Ha1), (of_Z_count Hb1). unfold count_float.
  cbn [SFsub cond_Zopp].
  set (ez := Z.min (Z.log2 a - 23) (Z.log2 b - 23)).
  rewrite !shl_align_fst by (unfold ez; lia).
  rewrite (count_mantissa_pos Ha1), (count_mantissa_pos Hb1).
  set (k := - ez). assert (Hk : 14 <= k <= 23) by (unfold k, ez; lia).
  assert (Ea : a * 2 ^ (23 - Z.log2 a) * 2 ^ (Z.log2 a - 23 - ez) = a * 2 ^ k).
  { rewrite <- Z.mul_assoc, <- Z.pow_add_r by (unfold ez; lia).
    f_equal. f_equal. unfold k. lia. }
  assert (Eb : b * 2 ^ (23 - Z.log2 b) * 2 ^ (Z.log2 b - 23 - ez) = b * 2 ^ k).
  { rewrite <- Z.mul_assoc, <- Z.pow_add_r by (unfold ez; lia).
    f_equal. f_equal. unfold k. lia. }
  rewrite Ea, Eb. replace (a * 2 ^ k - b * 2 ^ k) with ((a - b) * 2 ^ k) by lia.
  replace ez with (- k) by (unfold k; lia).
  apply scaled_difference; [lia | exact Hk].
Qed.

(** The deadzone, 5.4, lies between 5 and 6 counts. *)
Lemma deadzone_counts d :
  -1023 <= d <= 1023 ->
  SFltb (B32.of_Z d) (dec 54 1) = (d <=? 5).
Proof.
  intros Hd.
  pose proof (difference_enum
    (fun d => Bool.eqb (SFltb (B32.of_Z d) (dec 54 1)) (d <=? 5))) as E.
  cbv beta in E. specialize (E ltac:(vm_compute; reflexivity) d Hd).
  now apply eqb_prop in E.
Qed.

Lemma adjusted_counts32 (r rawv : Z) :
  0 <= r <= 1023 -> 0 <= rawv <= 1023 ->
  adjusted (B32.of_Z r) rawv
  = if rawv <=? r + 5 then B32.of_Z 0 else B32.of_Z (rawv - r).
Proof.
  intros Hr Hraw. unfold adjusted. cbn [of_int fsub flt B32.ops].
  rewrite fsub_counts, deadzone_counts by lia.
  replace (rawv - r <=? 5) with (rawv <=? r + 5)
    by (destruct (Z.leb_spec rawv (r + 5)), (Z.leb_spec (rawv - r) 5); lia).
  reflexivity.
Qed.

(** From rest, a sample that passes the deadzone lifts the flow above the
    start threshold. *)
Lemma at_rest32_passing r s i :
  at_rest32 r s -> 0 <= r <= 1023 -> 0 <= raw i <= 1023 -> r + 6 <= raw i ->
  flt START_THRESHOLD (tick_flow s i) = true.
Proof.
  intros (Ho & Hf & _) Hr Hraw H6.
  unfold tick_flow, tick_filtered. rewrite Ho, Hf, adjusted_counts32 by lia.
  assert (E : (raw i <=? r + 5) = false) by (apply Z.leb_gt; lia).
  rewrite E.
  pose proof (adc_enum
    (fun d => (d <=? 5)
              || flt START_THRESHOLD
                     (flowOf (smooth (S754_zero false) (B32.of_Z d))))) as G.
  cbv beta in G.
  specialize (G ltac:(vm_compute; reflexivity) (raw i - r) ltac:(lia)).
  assert (E5 : (raw i - r <=? 5) = false) by (apply Z.leb_gt; lia).
  now rewrite E5 in G.
Qed.

End Deadzone32.

(** ** The peak against the flows of the breath *)

Section PeakIsMax.
Context {F : Type} {ops : FloatOps F} {ord : FloatOrder F}.
Variable valid : F -> Prop.
Hypothesis valid_flow : forall x : F, valid (flowOf x).
Hypothesis valid_zero : valid (of_int 0).
Hypothesis valid_start : valid (START_THRESHOLD (F:=F)).
Hypothesis zero_lt_start : flt (of_int 0) (START_THRESHOLD (F:=F)) = true.
Hypothesis fle_total :
  forall x y : F, valid x -> valid y -> flt x y = false -> fle y x = true.
Hypothesis fle_refl : forall x : F, valid x -> fle x x = true.
Hypothesis flt_fle : forall x y : F, flt x y = true -> fle x y = true.
Hypothesis fle_flt_trans :
  forall x y z : F, fle x y = true -> flt y z = true -> flt x z = true.
Implicit Types (s : State F) (i : Tick).

Lemma measure_peak_valid s i : valid (peakFlow s) -> valid (peakFlow (measure s i)).
Proof.
  intros H. destruct (measure_peak s i) as [-> | (_ & _ & ->)];
    [exact H | apply valid_flow].
Qed.

Lemma peak_is_max_step s i fl :
  breath_state_ok s -> valid (peakFlow s) -> peak_is_max s fl ->
  ends_breath s i = false ->
  peak_is_max (fst (loop s i)) (fl ++ [tick_flow s i]) /\
  valid (peakFlow (fst (loop s i))).
Proof.
  intros [Hidle Hbreath] Hv Hmax He.
  destruct (loop_fields s i) as (_ & _ & _ & _ & _ & A6 & _ & A8).
  rewrite He in A6, A8. rewrite A6. split; [|now apply measure_peak_valid].
  unfold peak_is_max in *. rewrite A6, A8, measure_breathing.
  unfold measure. cbn [peakFlow]. fold (tick_flow s i).
  assert (Hvf : valid (tick_flow s i)) by apply valid_flow.
  assert (Hlast : forall b : F, fle (tick_flow s i) b = true ->
                    Forall (fun f => fle f b = true) [tick_flow s i])
    by (intros b Hb; apply Forall_cons; [exact Hb | apply Forall_nil]).
  destruct (flt START_THRESHOLD (tick_flow s i)) eqn:Hq; cbn [orb andb].
  - destruct (flt (peakFlow s) (tick_flow s i)) eqn:Hp.
    + split; [apply in_or_app; right; now left|].
      apply Forall_app. split; [|apply Hlast; now apply fle_refl].
      destruct (isBreathing s).
      * destruct Hmax as [_ Hall]. eapply Forall_impl; [|exact Hall].
        cbn. intros g Hg. apply flt_fle. exact (fle_flt_trans _ _ _ Hg Hp).
      * eapply Forall_impl; [|exact Hmax].
        cbn. intros g Hg. apply flt_fle. exact (fle_flt_trans _ _ _ Hg Hq).
    + destruct (isBreathing s).
      * destruct Hmax as [Hin Hall]. split; [apply in_or_app; now left|].
        apply Forall_app. split; [exact Hall|]. apply Hlast.
        now apply fle_total.
      * destruct (Hidle eq_refl) as [_ H0]. rewrite H0 in Hp.
        pose proof (flt_trans _ _ _ zero_lt_start Hq). congruence.
  - assert (Hle : fle (tick_flow s i) START_THRESHOLD = true)
      by now apply fle_total.
    destruct (isBreathing s) eqn:Hb.
    + destruct Hmax as [Hin Hall]. split; [apply in_or_app; now left|].
      apply Forall_app. split; [exact Hall|]. apply Hlast.
      apply flt_fle. exact (fle_flt_trans _ _ _ Hle (Hbreath eq_refl)).
    + apply Forall_app. split; [exact Hmax | now apply Hlast].
Qed.

Lemma peak_is_max_run s ticks fl :
  breath_state_ok s -> valid (peakFlow s) -> peak_is_max s fl ->
  summaries (snd (run s ticks)) = [] ->
  peak_is_max (fst (run s ticks)) (fl ++ flows s ticks).
Proof.
  revert s fl; induction ticks as [|i ticks IH]; intros s fl Hok Hv Hmax Hs.
  - cbn [run fst]. unfold flows. cbn. now rewrite app_nil_r.
  - apply summaries_nil_cons in Hs. destruct Hs as [He Hs].
    rewrite run_cons, flows_cons. cbn [fst].
    replace (fl ++ tick_flow s i :: flows (fst (loop s i)) ticks)
      with ((fl ++ [tick_flow s i]) ++ flows (fst (loop s i)) ticks)
      by now rewrite <- app_assoc.
    destruct (@peak_is_max_step s i fl Hok Hv Hmax He) as [Hm Hv'].
    apply IH.
    + apply breath_state_loop; [exact zero_lt_start | exact Hok].
    + exact Hv'.
    + exact Hm.
    + exact Hs.
Qed.

(** From an idle reachable session, over passes that finalize nothing. *)
Lemma peak_is_max_from_idle s ticks :
  reachable s -> isBreathing s = false ->
  summaries (snd (run s ticks)) = [] ->
  isBreathing (fst (run s ticks)) = true ->
  In (peakFlow (fst (run s ticks))) (flows s ticks) /\
  Forall (fun f => fle f (peakFlow (fst (run s ticks))) = true) (flows s ticks).
Proof.
  intros Hr Hidle Hs Hb.
  assert (Hok : breath_state_ok s)
    by exact (breath_state_reachable zero_lt_start Hr).
  assert (Hv : valid (peakFlow s)).
  { destruct Hok as [Hok _]. destruct (Hok Hidle) as [_ ->]. exact valid_zero. }
  assert (H0 : peak_is_max s []).
  { unfold peak_is_max. rewrite Hidle. constructor. }
  pose proof (@peak_is_max_run s ticks [] Hok Hv H0 Hs) as H.
  unfold peak_is_max in H. rewrite Hb in H. exact H.
Qed.

End PeakIsMax.

Section PeakIsMaxInstances.

Lemma peak_is_max_R (s : State R) ticks :
  reachable s -> isBreathing s = false ->
  summaries (snd (run s ticks)) = [] ->
  isBreathing (fst (run s ticks)) = true ->
  In (peakFlow (fst (run s ticks))) (flows s ticks) /\
  Forall (fun f => fle f (peakFlow (fst (run s ticks))) = true) (flows s ticks).
Proof.
  apply (@peak_is_max_from_idle R Rops Rorder (fun _ => True)); auto.
  - exact zero_lt_start_R.
  - intros x y _ _ H. cbn [flt fle Rops] in *. apply Rltb_false in H.
    now apply Rleb_true.
  - intros x _. cbn [fle Rops]. apply Rleb_true. lra.
  - intros x y H. cbn [flt fle Rops] in *. apply Rltb_true in H.
    apply Rleb_true. lra.
  - intros x y z H1 H2. cbn [flt fle Rops] in *. apply Rleb_true in H1.
    apply Rltb_true in H2. apply Rltb_true. lra.
Qed.

Lemma peak_is_max_32 (s : State B32.t) ticks :
  reachable s -> isBreathing s = false ->
  summaries (snd (run s ticks)) = [] ->
  isBreathing (fst (run s ticks)) = true ->
  In (peakFlow (fst (run s ticks))) (flows s ticks) /\
  Forall (fun f => fle f (peakFlow (fst (run s ticks))) = true) (flows s ticks).
Proof.
  apply (@peak_is_max_from_idle B32.t B32.ops order32
           (fun x => x <> S754_nan)).
  - intros x. exact (signed_not_nan _ (flowOf_nonneg32 x)).
  - discriminate.
  - vm_compute. discriminate.
  - exact zero_lt_start_32.
  - exact SFleb_total.
  - exact SFleb_refl.
  - exact SFltb_leb.
  - exact SFleb_ltb_trans.
Qed.

End PeakIsMaxInstances.

Section Summary.
Context {F : Type} {ops : FloatOps F} {ord : FloatOrder F}.
Implicit Types (s : State F) (i : Tick).

(** The summary of a finalized breath carries the peak and the volume the
    session held before the pass. *)
Lemma summary_of_session s i :
  ends_breath s i = true ->
  summaries (snd (loop s i)) = [Results (peakFlow s) (currentVol s)].
Proof.
  intros He. rewrite loop_summaries, He.
  assert (Hle : fle (tick_flow s i) CUTOFF_THRESHOLD = true).
  { unfold ends_breath, stops in He. apply andb_prop in He.
    destruct He as [He _]. apply andb_prop in He. tauto. }
  destruct (measure_below_cutoff s i Hle) as (-> & -> & _). reflexivity.
Qed.

End Summary.

(** ** The decay of the binary32 filter in the deadzone *)

Section Decay32.
Open Scope R_scope.
Implicit Types (s : State B32.t) (i : Tick) (x : B32.t).

Lemma fadd_zero_r x : B32.nonneg x -> fadd x (S754_zero false) = x.
Proof.
  destruct x as [sx|sx| |sx m e]; cbn; intros H; subst; try reflexivity;
    contradiction.
Qed.

(** With the sample forced to 0 the smoothing is one multiplication by the
    constant 1.0 - alpha. *)
Lemma smooth_zero x :
  B32.nonneg x -> smooth x (of_int 0) = fmul x (fsub (dec 10 1) alpha).
Proof.
  intros Hx. unfold smooth.
  replace (fmul (of_int 0) alpha) with (S754_zero false)
    by (vm_compute; reflexivity).
  apply fadd_zero_r. apply fmul_signed; [apply posfin_one_minus_alpha | exact Hx].
Qed.

Lemma deadzone_filtered32 s i :
  B32.nonneg (filteredValue s) -> in_deadzone s i ->
  tick_filtered s i = fmul (filteredValue s) (fsub (dec 10 1) alpha).
Proof.
  intros Hx Hdz. unfold tick_filtered, adjusted.
  unfold in_deadzone in Hdz. rewrite Hdz. now apply smooth_zero.
Qed.

Lemma decay_bounded x a :
  bounded x a -> a <= 2048 ->
  bounded (fmul x (fsub (dec 10 1) alpha)) (a * decay_rate + delta).
Proof.
  intros Hx Ha. pose proof (bounded_nonneg Hx) as H0.
  rewrite one_minus_alpha_val. cbn [fmul B32.ops].
  assert (H9 : bounded (S754_finite false 15099494 (-24)) (9 / 10))
    by (apply bounded_const; constant).
  unfold decay_rate.
  eapply bounded_weaken; [apply (mul_bounded Hx H9)|]; numeric.
Qed.

Lemma decay_rate_range : 0 < decay_rate /\ 11 * decay_rate <= 10.
Proof. unfold decay_rate. rewrite eps_val. split; lra. Qed.

Lemma decay_pow_range n : 0 <= decay_rate ^ n <= 1.
Proof.
  pose proof decay_rate_range as [H0 H1].
  induction n as [|n IH]; cbn [pow]; [lra|]. nra.
Qed.

(** Over a run of passes with samples in the deadzone. *)
Lemma decay_run s a ticks :
  bounded (filteredValue s) a -> a <= 2048 ->
  Forall (in_deadzone s) ticks ->
  bounded (filteredValue (fst (run s ticks)))
          (a * decay_rate ^ length ticks
           + 11 * delta * (1 - decay_rate ^ length ticks)).
Proof.
  intros Hb Ha Hall. revert s a Hb Ha Hall.
  induction ticks as [|i ticks IH]; intros s a Hb Ha Hall.
  - cbn [run fst length pow]. eapply bounded_weaken; [exact Hb|]. lra.
  - inversion Hall as [|? ? Hi Hrest]; subst.
    pose proof (bounded_nonneg Hb) as Ha0.
    pose proof decay_rate_range as [Hq0 Hq1].
    pose proof (decay_pow_range (length ticks)) as Hp.
    pose proof delta_pos as Hd. pose proof delta_small as Hds.
    assert (Hrest' : Forall (in_deadzone (fst (loop s i))) ticks).
    { eapply Forall_impl; [|exact Hrest]. intros j Hj. unfold in_deadzone in *.
      destruct (loop_fields s i) as (-> & _). exact Hj. }
    assert (Hnext : bounded (filteredValue (fst (loop s i)))
                            (a * decay_rate + delta)).
    { destruct (loop_fields s i) as (_ & -> & _).
      destruct (ends_breath s i).
      - apply bounded_zero. nra.
      - rewrite (@deadzone_filtered32 s i (proj1 Hb) Hi).
        now apply decay_bounded. }
    assert (Ha' : a * decay_rate + delta <= 2048) by nra.
    rewrite run_cons. cbn [fst length pow].
    eapply bounded_weaken; [apply (IH _ _ Hnext Ha' Hrest')|].
    set (p := decay_rate ^ length ticks) in *.
    assert (Hk : 0 <= delta * p * (10 - 11 * decay_rate)).
    { apply Rmult_le_pos; [apply Rmult_le_pos|]; lra. }
    lra.
Qed.

End Decay32.

(** ** A sharper bound of the square root *)

Section SqrtTight.
Open Scope R_scope.

(** The integer square root of a mantissa of 47 bits or more has 24 bits. *)
Lemma sqrt_mantissa_large (m' q r : Z) :
  (2 ^ 46 <= m')%Z -> (m' = q * q + r)%Z -> (0 <= r <= 2 * q)%Z ->
  (2 ^ 23 <= q)%Z.
Proof.
  intros Hm Hq Hr.
  destruct (Z_lt_le_dec q (2 ^ 23)) as [Hlt|]; [|assumption].
  exfalso. change (2 ^ 46)%Z with (2 ^ 23 * 2 ^ 23)%Z in Hm.
  change (2 ^ 23)%Z with 8388608%Z in *. nia.
Qed.

(** Square root: the relative error is at most three [eps]. *)
Lemma sqrt_bounded_tight x a :
  bounded x a ->
  sqrt a * (1 + 3 * eps) + 3 * delta < big ->
  bounded (SFsqrt B32.prec B32.emax x) (sqrt a * (1 + 3 * eps) + 3 * delta).
Proof.
  intros Hx Hbig.
  pose proof (bounded_nonneg Hx) as Ha.
  pose proof eps_pos as Heps. pose proof delta_pos as Hdelta.
  pose proof (sqrt_pos a) as Hsa.
  assert (Hnn : 0 <= sqrt a * (1 + 3 * eps) + 3 * delta) by nra.
  destruct Hx as (Sx & Fx & Lx).
  destruct x as [s|s| |s m e]; try discriminate; cbn in Sx; subst;
    cbn [SFsqrt]; [now apply bounded_zero|].
  unfold SFsqrt_core_binary.
  set (d := Zdigits2 (Zpos m)).
  set (e' := Z.min (fexp B32.prec B32.emax (Z.div2 (d + e + 1))) (Z.div2 e)).
  set (s := (e - 2 * e')%Z).
  assert (Hs : (0 <= s)%Z).
  { unfold s, e'. pose proof (Z.div2_div e) as H2.
    pose proof (Z.mul_div_le e 2 ltac:(lia)). lia. }
  set (m' := match s with
             | 0%Z => Zpos m
             | Zpos _ => Z.shiftl (Zpos m) s
             | Zneg _ => 0%Z
             end).
  assert (Hm' : m' = (Zpos m * 2 ^ s)%Z).
  { unfold m'. destruct s as [|p|p]; [lia | | lia].
    rewrite Z.shiftl_mul_pow2 by lia. reflexivity. }
  assert (Hm'pos : (0 < m')%Z).
  { rewrite Hm'. assert (0 < 2 ^ s)%Z by (apply Z.pow_pos_nonneg; lia). nia. }
  (* the mantissa is wide, or the exponent is at the bottom *)
  assert (Hwide : (2 ^ 46 <= m')%Z \/ (e' <= -149)%Z).
  { destruct (Z_le_gt_dec e' (-149)) as [|Hgt]; [now right | left].
    pose proof (digits2_bounds m) as [Hlo _].
    change (Zpos (digits2_pos m)) with d in Hlo.
    assert (Hd : (46 <= d - 1 + s)%Z).
    { unfold s, e' in *. rewrite fexp32 in *.
      pose proof (Z.div2_div (d + e + 1)) as H1.
      pose proof (Z.mul_div_le (d + e + 1) 2 ltac:(lia)) as H2.
      lia. }
    assert (H1 : (1 <= d)%Z) by (unfold d; cbn; lia).
    rewrite Hm'.
    apply Z.le_trans with (2 ^ (d - 1) * 2 ^ s)%Z.
    - rewrite <- Z.pow_add_r by lia. apply Z.pow_le_mono_r; lia.
    - apply Z.mul_le_mono_nonneg_r; [apply Z.pow_nonneg; lia | exact Hlo]. }
  pose proof (Z.sqrtrem_spec m' ltac:(lia)) as Hsq.
  destruct (Z.sqrtrem m') as [q r].
  destruct Hsq as [Hsq Hr].
  assert (Hq : (1 <= q)%Z) by nia.
  set (X := B2R (S754_finite false m e)) in *.
  set (y := IZR q * bpow e').
  assert (Hy : 0 < y).
  { unfold y. pose proof (bpow_pos e'). assert (1 <= IZR q) by
      (apply IZR_le; lia). nra. }
  assert (Hyy : y * y <= X).
  { unfold y, X. cbn [B2R].
    assert (Hqm : (q * q <= Zpos m * 2 ^ s)%Z) by nia.
    apply IZR_le in Hqm. rewrite !mult_IZR, <- bpow_IZR in Hqm by lia.
    replace e with (s + e' + e')%Z at 1 by (unfold s; lia).
    rewrite !bpow_add. pose proof (bpow_pos e').
    replace (IZR q * bpow e' * (IZR q * bpow e'))
      with (IZR q * IZR q * (bpow e' * bpow e')) by ring.
    replace (1 * IZR (Zpos m) * (bpow s * bpow e' * bpow e'))
      with (IZR (Zpos m) * bpow s * (bpow e' * bpow e')) by ring.
    apply Rmult_le_compat_r; [nra | exact Hqm]. }
  assert (Hy1 : y <= sqrt a).
  { rewrite <- (sqrt_square y) by lra. apply sqrt_le_1_alt. lra. }
  assert (Hu : bpow e' <= y * eps + delta).
  { destruct Hwide as [Hw | Hw].
    - pose proof (@sqrt_mantissa_large m' q r Hw Hsq Hr) as Hq23.
      apply IZR_le in Hq23. rewrite <- bpow_IZR in Hq23 by lia.
      unfold y, eps. pose proof (bpow_pos e') as Hb.
      assert (E : bpow 23 * bpow (-23) = 1).
      { rewrite <- bpow_add. reflexivity. }
      assert (bpow e' * (bpow 23 * bpow (-23))
              <= IZR q * bpow e' * bpow (-23)).
      { pose proof (bpow_pos (-23)) as Hc.
        replace (bpow e' * (bpow 23 * bpow (-23)))
          with (bpow 23 * (bpow e' * bpow (-23))) by ring.
        replace (IZR q * bpow e' * bpow (-23))
          with (IZR q * (bpow e' * bpow (-23))) by ring.
        apply Rmult_le_compat_r; [|exact Hq23].
        apply Rmult_le_pos; lra. }
      rewrite E, Rmult_1_r in H. lra.
    - pose proof (@bpow_le e' (-149)%Z Hw) as Hb. unfold delta.
      assert (0 <= y * eps) by nra. lra. }
  match goal with
  | |- bounded (binary_round_aux _ _ _ _ _ ?l) _ =>
      pose proof (@round_gen_R q e' l ltac:(lia)) as Hr'
  end.
  cbv zeta in Hr'. fold y in Hr'.
  assert (Hle : y * (1 + eps) + 2 * bpow e' + delta
                <= sqrt a * (1 + 3 * eps) + 3 * delta) by nra.
  eapply bounded_weaken; [apply Hr'; lra | exact Hle].
Qed.

End SqrtTight.

(** ** The binary32 session within the full scale *)

Section TightChain.
Open Scope R_scope.
Implicit Types (s : State B32.t) (i : Tick) (x : B32.t).

Lemma sqrt_le_of_square a b : 0 <= b -> a <= b * b -> sqrt a <= b.
Proof.
  intros Hb Hab. destruct (Rle_dec 0 a) as [Ha|Ha].
  - rewrite <- (sqrt_square b) by exact Hb. now apply sqrt_le_1_alt.
  - rewrite sqrt_neg_0 by lra. exact Hb.
Qed.

(** The flow of a filtered value of at most [a], through bounds of the
    intermediate results. *)
Lemma flowOf_bounded_chain x a v1 v2 p pd sq f :
  bounded x a ->
  a * (488759 / 100000000) * (1 + eps) + delta <= v1 -> v1 <= 1000000 ->
  v1 / (44999998 / 100000000) * (1 + 3 * eps) + 3 * delta <= v2 ->
  v2 <= 1000000 ->
  v2 * 1000 * (1 + eps) + delta <= p -> p <= 1000000000 ->
  p / 1000 * (1 + 3 * eps) + 3 * delta <= pd -> pd <= 1000000 ->
  0 <= sq -> pd <= sq * sq -> sq <= 1000 ->
  (465 / 10) * (sq * (1 + 3 * eps) + 3 * delta) * (1 + eps) + delta <= f ->
  f <= 1000000 ->
  bounded (flowOf x) f.
Proof.
  intros Hx H1 B1 H2 B2 H3 B3 H4 B4 Hsq0 Hsq Bsq H5 B5.
  pose proof (bounded_nonneg Hx) as Ha.
  pose proof eps_pos as He. pose proof delta_pos as Hd.
  pose proof big_large as Hbig.
  assert (Hf0 : 0 <= f).
  { assert (0 <= (465 / 10) * (sq * (1 + 3 * eps) + 3 * delta) * (1 + eps))
      by (apply Rmult_le_pos; [apply Rmult_le_pos|]; nra).
    lra. }
  unfold flowOf. destruct (flt (of_int 0) (pressure x));
    [|now apply bounded_zero].
  unfold pressure.
  rewrite volt_per_count_val, sensitivity_val, thousand_val, k_val.
  cbn [fmul fdiv fsqrt B32.ops].
  assert (Hc : bounded (S754_finite false 10496010 (-31))
                       (488759 / 100000000))
    by (apply bounded_const; constant).
  assert (Hv1 : bounded (SFmul B32.prec B32.emax x
                           (S754_finite false 10496010 (-31))) v1).
  { eapply bounded_weaken; [apply (mul_bounded Hx Hc); lra | exact H1]. }
  assert (Hv2 : bounded (SFdiv B32.prec B32.emax
                           (SFmul B32.prec B32.emax x
                              (S754_finite false 10496010 (-31)))
                           (S754_finite false 15099494 (-25))) v2).
  { apply (div_bounded_by (lo := 44999998 / 100000000) Hv1);
      [lra | constant | exact H2 | lra]. }
  assert (Ht : bounded (S754_finite false 16384000 (-14)) 1000)
    by (apply bounded_const; constant).
  assert (Hp : bounded (SFmul B32.prec B32.emax
                          (SFdiv B32.prec B32.emax
                             (SFmul B32.prec B32.emax x
                                (S754_finite false 10496010 (-31)))
                             (S754_finite false 15099494 (-25)))
                          (S754_finite false 16384000 (-14))) p).
  { eapply bounded_weaken; [apply (mul_bounded Hv2 Ht); lra | exact H3]. }
  match goal with
  | |- bounded (SFmul _ _ _ (SFsqrt _ _ (SFdiv _ _ ?P _))) _ =>
      set (pr := P) in *
  end.
  assert (Hpd : bounded (SFdiv B32.prec B32.emax pr
                           (S754_finite false 16384000 (-14))) pd).
  { apply (div_bounded_by (lo := 1000) Hp);
      [lra | constant | exact H4 | lra]. }
  assert (Hs : bounded (SFsqrt B32.prec B32.emax
                          (SFdiv B32.prec B32.emax pr
                             (S754_finite false 16384000 (-14))))
                       (sq * (1 + 3 * eps) + 3 * delta)).
  { pose proof (sqrt_le_of_square Hsq0 Hsq) as Hle.
    pose proof (sqrt_pos pd) as Hpos.
    eapply bounded_weaken; [apply (sqrt_bounded_tight Hpd)|]; nra. }
  assert (Hk : bounded (S754_finite false 12189696 (-18)) (465 / 10))
    by (apply bounded_const; constant).
  eapply bounded_weaken; [apply (mul_bounded Hk Hs)|]; [|exact H5].
  lra.
Qed.

(** At full scale. *)
Lemma flowOf_full_scale32 x :
  bounded x 1023.1 -> bounded (flowOf x) 155.01.
Proof.
  intros Hx.
  apply (flowOf_bounded_chain (v1 := 5.0005) (v2 := 11.11224)
           (p := 11112.25) (pd := 11.11226) (sq := 3.33351) Hx); numeric.
Qed.

(** After the decay. *)
Lemma flowOf_decayed32 x :
  bounded x 0.03735 -> bounded (flowOf x) 0.94.
Proof.
  intros Hx.
  apply (flowOf_bounded_chain (v1 := 0.0001826) (v2 := 0.0004059)
           (p := 0.40591) (pd := 0.00040592) (sq := 0.02015) Hx); numeric.
Qed.

End TightChain.

Section TightSession.
Open Scope R_scope.
Implicit Types (s : State B32.t) (i : Tick) (x : B32.t).

(** The sample after offset and deadzone is at most 1023, up to rounding. *)
Lemma adjusted_tight offset r :
  B32.nonneg offset -> (0 <= r <= 1023)%Z ->
  bounded (adjusted offset r) 1023.01.
Proof.
  intros Ho Hr. unfold adjusted. rewrite deadzone_val.
  destruct (flt _ _) eqn:E; [apply bounded_zero; lra|].
  cbn [flt fsub of_int B32.ops] in *.
  assert (Hx : bounded (B32.of_Z r) 1023.001).
  { assert (0 <= IZR r <= 1023) by (split; apply IZR_le; lia).
    eapply bounded_weaken; [apply of_Z_bounded; [lia|]|]; numeric. }
  destruct Hx as (Sx & Fx & Lx).
  destruct (B32.of_Z r) as [s|s| |s mx ex]; try discriminate;
    destruct offset as [s'|s'| |s' my ey]; cbn in Sx, Ho; subst;
    try contradiction; cbn [SFsub] in *; try discriminate.
  - repeat split. lra.
  - cbn [cond_Zopp] in *.
    set (ez := Z.min ex ey) in *.
    pose proof (shl_align_R mx ex ez) as Hsx.
    pose proof (shl_align_R my ey ez) as Hsy.
    rewrite (shl_align_snd mx (ex' := ez)) in Hsx by (unfold ez; lia).
    rewrite (shl_align_snd my (ex' := ez)) in Hsy by (unfold ez; lia).
    set (ma := fst (shl_align mx ex ez)) in *.
    set (mb := fst (shl_align my ey ez)) in *.
    destruct (Zpos ma - Zpos mb)%Z as [|d|d] eqn:Ed;
      cbn [binary_normalize] in *.
    + discriminate.
    + pose proof (@binary_round_R d ez) as Hb. cbv zeta in Hb.
      assert (Hv : IZR (Zpos d) * bpow ez <= 1023.001).
      { rewrite <- Ed, minus_IZR, Rmult_minus_distr_r, Hsx.
        cbn [B2R] in Lx.
        assert (0 < IZR (Zpos mb) * bpow ez).
        { rewrite Hsy. pose proof (B2R_pos my ey) as H. cbn [B2R] in H. lra. }
        lra. }
      assert (Hv0 : 0 <= IZR (Zpos d) * bpow ez).
      { pose proof (bpow_pos ez). assert (0 < IZR (Zpos d)) by
          (apply IZR_lt; lia). nra. }
      eapply bounded_weaken; [apply Hb|]; numeric.
    + rewrite signed_true_ltb in E; [discriminate|].
      apply binary_round_signed.
Qed.

Lemma smooth_tight p a :
  bounded p 1023.1 -> bounded a 1023.01 -> bounded (smooth p a) 1023.1.
Proof.
  intros Hp Ha. unfold smooth. rewrite one_minus_alpha_val, alpha_val.
  cbn [fadd fmul B32.ops].
  assert (H9 : bounded (S754_finite false 15099494 (-24)) (9 / 10))
    by (apply bounded_const; constant).
  assert (H1 : bounded (S754_finite false 13421773 (-27))
                       (10000001 / 100000000))
    by (apply bounded_const; constant).
  assert (Hm1 : bounded (SFmul B32.prec B32.emax p
                           (S754_finite false 15099494 (-24))) 920.7902).
  { eapply bounded_weaken; [apply (mul_bounded Hp H9)|]; numeric. }
  assert (Hm2 : bounded (SFmul B32.prec B32.emax a
                           (S754_finite false 13421773 (-27))) 102.3011).
  { eapply bounded_weaken; [apply (mul_bounded Ha H1)|]; numeric. }
  eapply bounded_weaken; [apply (add_bounded Hm1 Hm2)|]; numeric.
Qed.

Lemma tick_filtered_tight s i :
  session_tight s -> adc_sample i -> bounded (tick_filtered s i) 1023.1.
Proof.
  intros (Ho & Hf & _) Hi. apply smooth_tight; [exact Hf|].
  now apply adjusted_tight.
Qed.

Lemma tick_flow_tight s i :
  session_tight s -> adc_sample i -> bounded (tick_flow s i) 155.01.
Proof.
  intros Hs Hi. apply flowOf_full_scale32. now apply tick_filtered_tight.
Qed.

Lemma session_tight_setup reads t0 :
  Forall adc_read reads -> session_tight (setup reads t0).
Proof.
  intros H. destruct (session_bounded_setup t0 H) as (Ho & _).
  split; [exact Ho|]. split; apply bounded_zero; lra.
Qed.

Lemma session_tight_loop s i :
  session_tight s -> adc_sample i -> session_tight (fst (loop s i)).
Proof.
  intros Hs Hi. pose proof (tick_filtered_tight Hs Hi) as Hf.
  pose proof (tick_flow_tight Hs Hi) as Hfl.
  destruct Hs as (Ho & _ & Hp).
  destruct (loop_fields s i) as (A1 & A2 & _ & _ & _ & A6 & _).
  unfold session_tight. rewrite A1, A2, A6.
  split; [exact Ho|].
  destruct (ends_breath s i); [split; apply bounded_zero; lra|].
  split; [exact Hf|].
  destruct (measure_peak s i) as [-> | (_ & _ & ->)]; assumption.
Qed.

Lemma session_tight_run s ticks :
  session_tight s -> Forall adc_sample ticks ->
  session_tight (fst (run s ticks)).
Proof.
  intros Hs Hall. revert s Hs.
  induction Hall as [|i ticks Hi _ IH]; intros s Hs.
  - exact Hs.
  - rewrite run_cons. cbn [fst]. now apply IH, session_tight_loop.
Qed.

End TightSession.

(** ** The form of a rounded number, and the comparison with the cutoff *)

Section Normal.
Open Scope Z_scope.

Lemma Zdigits2_bounds m :
  0 < m -> 2 ^ (Zdigits2 m - 1) <= m < 2 ^ Zdigits2 m /\ 1 <= Zdigits2 m.
Proof.
  destruct m as [|p|p]; try lia. intros _. cbn [Zdigits2].
  split; [apply digits2_bounds | lia].
Qed.

Lemma div_pow_lower m d k :
  0 <= k <= d - 1 -> 2 ^ (d - 1) <= m -> 2 ^ (d - 1 - k) <= m / 2 ^ k.
Proof.
  intros Hk Hm. apply Z.div_le_lower_bound; [apply Z.pow_pos_nonneg; lia|].
  rewrite <- Z.pow_add_r by lia. replace (k + (d - 1 - k)) with (d - 1) by lia.
  exact Hm.
Qed.

(** Rounding a mantissa of at least 24 bits gives a mantissa of at least 24
    bits, or a number at the smallest exponent. *)
Lemma binary_round_aux_normal sx mx ex lx :
  2 ^ 23 <= mx ->
  normal_or_tiny (binary_round_aux B32.prec B32.emax sx mx ex lx).
Proof.
  intros H. assert (Hpos : 0 < mx) by (change (2 ^ 23) with 8388608 in H; lia).
  unfold binary_round_aux, shr_fexp.
  destruct (Zdigits2_bounds Hpos) as ((Hlo & Hhi) & Hd1).
  set (d := Zdigits2 mx) in *.
  set (n1 := fexp B32.prec B32.emax (d + ex) - ex).
  assert (En1 : n1 = Z.max (d + ex - 24) (-149) - ex)
    by (unfold n1; rewrite fexp32; reflexivity).
  assert (H0 : 0 <= shr_m (shr_record_of_loc mx lx))
    by (destruct lx as [|[]]; cbn; lia).
  assert (Hm0 : shr_m (shr_record_of_loc mx lx) = mx)
    by (destruct lx as [|[]]; reflexivity).
  destruct (shr_div (shr_record_of_loc mx lx) ex n1 H0) as (Hm1 & He1 & _).
  destruct (shr (shr_record_of_loc mx lx) ex n1) as [mrs' e'].
  cbn [fst snd] in Hm1, He1. rewrite Hm0 in Hm1.
  set (m2 := round_nearest_even (shr_m mrs') (loc_of_shr_record mrs')).
  pose proof (round_nearest_even_le (shr_m mrs') (loc_of_shr_record mrs'))
    as Hm2. fold m2 in Hm2.
  assert (Hd : 24 <= d).
  { destruct (Z_lt_le_dec d 24) as [Hlt|]; [|assumption]. exfalso.
    assert (2 ^ d <= 2 ^ 23) by (apply Z.pow_le_mono_r; lia). lia. }
  assert (Hp1 : 0 < 2 ^ Z.max 0 n1) by (apply Z.pow_pos_nonneg; lia).
  assert (Hm1' : 0 <= shr_m mrs') by (rewrite Hm1; apply Z.div_pos; lia).
  assert (He' : -149 <= e') by lia.
  (* the first shift leaves at least 24 bits, or ends at the bottom *)
  assert (Hfirst : 2 ^ 23 <= shr_m mrs' \/ e' = -149).
  { destruct (Z_le_gt_dec (-149) (d + ex - 24)) as [Hn|Hn]; [left | right; lia].
    rewrite Hm1. replace (Z.max 0 n1) with (d - 24) by lia.
    replace 23 with (d - 1 - (d - 24)) by lia.
    apply div_pow_lower; [lia | exact Hlo]. }
  set (d2 := Zdigits2 m2).
  set (n2 := fexp B32.prec B32.emax (d2 + e') - e').
  assert (En2 : n2 = Z.max (d2 + e' - 24) (-149) - e')
    by (unfold n2; rewrite fexp32; reflexivity).
  assert (H2 : 0 <= shr_m (shr_record_of_loc m2 loc_Exact)) by (cbn; lia).
  destruct (shr_div (shr_record_of_loc m2 loc_Exact) e' n2 H2)
    as (Hm3 & He3 & _).
  destruct (shr (shr_record_of_loc m2 loc_Exact) e' n2) as [mrs'' e''].
  cbn [fst snd shr_record_of_loc shr_m] in Hm3, He3.
  destruct (shr_m mrs'') as [|p|p] eqn:Em3; cbn [normal_or_tiny];
    [exact I| |exact I].
  destruct (e'' <=? B32.emax - B32.prec); cbn [normal_or_tiny]; [|exact I].
  assert (Hm2pos : 0 < m2).
  { destruct (Z_lt_le_dec 0 m2) as [|Hle]; [assumption|]. exfalso.
    assert (E0 : m2 = 0) by lia. rewrite E0 in Hm3.
    rewrite Z.div_0_l in Hm3 by (apply Z.pow_nonzero; lia). lia. }
  destruct (Zdigits2_bounds Hm2pos) as ((Hlo2 & Hhi2) & Hd2).
  fold d2 in Hlo2, Hhi2, Hd2.
  destruct (Z_le_gt_dec d2 24) as [Hsmall|Hbig].
  - (* nothing is shifted out the second time *)
    replace (Z.max 0 n2) with 0 in * by lia.
    rewrite Z.pow_0_r, Z.div_1_r in Hm3.
    destruct Hfirst as [Hf|Hf]; [left; lia | right; lia].
  - left. replace (Z.max 0 n2) with (d2 - 24) in * by lia.
    rewrite Hm3. replace 23 with (d2 - 1 - (d2 - 24)) by lia.
    apply div_pow_lower; [lia | exact Hlo2].
Qed.

(** The product with a constant of 24 bits. *)
Lemma SFmul_normal sc mc ec y :
  2 ^ 23 <= Zpos mc ->
  normal_or_tiny (SFmul B32.prec B32.emax (S754_finite sc mc ec) y).
Proof.
  intros Hc. destruct y as [s|s| |s m e]; cbn [SFmul normal_or_tiny];
    try exact I.
  apply binary_round_aux_normal. rewrite Pos2Z.inj_mul.
  change (2 ^ 23) with 8388608 in *. nia.
Qed.

Lemma flowOf_normal (x : B32.t) : normal_or_tiny (flowOf x).
Proof.
  unfold flowOf. destruct (flt _ _); [|vm_compute; exact I].
  rewrite k_val. cbn [fmul B32.ops]. apply SFmul_normal.
  vm_compute. discriminate.
Qed.

End Normal.

Section Compare.
Open Scope R_scope.

Lemma cutoff_val : CUTOFF_THRESHOLD = S754_finite false 8388608 (-23).
Proof. vm_compute. reflexivity. Qed.

(** The comparison of two positive finite numbers in that form follows the
    order of their values. *)
Lemma SFleb_of_value m e mt et :
  (Zpos mt < 2 ^ 24)%Z -> (-149 <= et)%Z ->
  normal_or_tiny (S754_finite false m e) ->
  IZR (Zpos m) * bpow e < IZR (Zpos mt) * bpow et ->
  SFleb (S754_finite false m e) (S754_finite false mt et) = true.
Proof.
  intros Hmt Het Hn Hv. unfold SFleb. cbn [SFcompare normal_or_tiny] in *.
  destruct (Z.compare_spec e et) as [He|He|He]; [|reflexivity|].
  - subst e. change (Pos.compare_cont Eq m mt) with (Pos.compare m mt).
    assert (Hm : (Zpos m < Zpos mt)%Z).
    { apply lt_IZR. pose proof (bpow_pos et). nra. }
    assert (E : (m ?= mt)%positive = Lt) by (apply Pos.compare_lt_iff; lia).
    rewrite E. reflexivity.
  - exfalso. destruct Hn as [Hn|Hn]; [|lia].
    apply IZR_le in Hn. apply IZR_lt in Hmt.
    change (2 ^ 23)%Z with 8388608%Z in Hn.
    change (2 ^ 24)%Z with 16777216%Z in Hmt.
    pose proof (@bpow_le (et + 1)%Z e ltac:(lia)) as Hb.
    rewrite bpow_add in Hb.
    assert (Hb1 : bpow 1 = 2) by (unfold bpow; cbn [powerRZ]; simpl; lra).
    rewrite Hb1 in Hb. pose proof (bpow_pos et) as Hp.
    assert (H1 : IZR (Zpos mt) * bpow et < 16777216 * bpow et) by nra.
    assert (H2 : 8388608 * (bpow et * 2) <= IZR (Zpos m) * bpow e).
    { apply Rmult_le_compat; lra. }
    lra.
Qed.

(** A number of this form and of value below 1 compares at or below the
    cutoff threshold. *)
Lemma below_cutoff_of_value (x : B32.t) a :
  bounded x a -> a < 1 -> normal_or_tiny x ->
  fle x CUTOFF_THRESHOLD = true.
Proof.
  intros (Sx & Fx & Lx) Ha Hn. rewrite cutoff_val. cbn [fle B32.ops].
  destruct x as [s|s| |s m e]; try discriminate; cbn in Sx; subst.
  - reflexivity.
  - apply SFleb_of_value; [reflexivity | lia | exact Hn |].
    cbn [B2R] in Lx.
    assert (H1 : IZR (Zpos 8388608) * bpow (-23) = 1).
    { change (-23)%Z with (- (23))%Z. rewrite bpow_opp, bpow_IZR by lia.
      change (2 ^ 23)%Z with 8388608%Z. lra. }
    rewrite H1. lra.
Qed.

End Compare.

(** ** The flow after the decay, the flows shown, the session at rest *)

Section DecayNumbers.
Open Scope R_scope.

Lemma decay_rate_le : decay_rate <= 0.9000002.
Proof. unfold decay_rate. rewrite eps_val. lra. Qed.

Lemma square_le a c c' : 0 <= a <= c -> c * c <= c' -> a * a <= c'.
Proof. intros [H0 H1] H. assert (a * a <= c * c) by nra. lra. Qed.

Lemma decay_pow_96 : decay_rate ^ 96 <= 0.0000404846344.
Proof.
  pose proof decay_rate_range as [H0 _]. pose proof decay_rate_le as H1.
  set (q := decay_rate) in *.
  assert (P2 : 0 <= q ^ 2) by (apply pow_le; lra).
  assert (P4 : 0 <= q ^ 4) by (apply pow_le; lra).
  assert (P8 : 0 <= q ^ 8) by (apply pow_le; lra).
  assert (P16 : 0 <= q ^ 16) by (apply pow_le; lra).
  assert (P32 : 0 <= q ^ 32) by (apply pow_le; lra).
  assert (P64 : 0 <= q ^ 64) by (apply pow_le; lra).
  assert (H2 : q ^ 2 <= 0.810000361).
  { replace (q ^ 2) with (q * q) by ring.
    apply (@square_le q 0.9000002); lra. }
  assert (H4 : q ^ 4 <= 0.656100585).
  { replace (q ^ 4) with (q ^ 2 * q ^ 2) by ring.
    apply (@square_le (q ^ 2) 0.810000361); lra. }
  assert (H8 : q ^ 8 <= 0.430467978).
  { replace (q ^ 8) with (q ^ 4 * q ^ 4) by ring.
    apply (@square_le (q ^ 4) 0.656100585); lra. }
  assert (H16 : q ^ 16 <= 0.185302681).
  { replace (q ^ 16) with (q ^ 8 * q ^ 8) by ring.
    apply (@square_le (q ^ 8) 0.430467978); lra. }
  assert (H32 : q ^ 32 <= 0.0343370836).
  { replace (q ^ 32) with (q ^ 16 * q ^ 16) by ring.
    apply (@square_le (q ^ 16) 0.185302681); lra. }
  assert (H64 : q ^ 64 <= 0.00117903532).
  { replace (q ^ 64) with (q ^ 32 * q ^ 32) by ring.
    apply (@square_le (q ^ 32) 0.0343370836); lra. }
  replace (q ^ 96) with (q ^ 64 * q ^ 32) by ring.
  assert (q ^ 64 * q ^ 32 <= 0.00117903532 * 0.0343370836)
    by (apply Rmult_le_compat; lra).
  lra.
Qed.

Lemma decay_pow_after_96 n :
  (96 <= n)%nat -> decay_rate ^ n <= 0.0000404846344.
Proof.
  intros Hn. replace n with (96 + (n - 96))%nat by lia. rewrite pow_add.
  pose proof decay_pow_96 as H96.
  pose proof (decay_pow_range 96) as [H0 _].
  pose proof (decay_pow_range (n - 96)) as [H1 H2].
  assert (decay_rate ^ 96 * decay_rate ^ (n - 96) <= decay_rate ^ 96 * 1)
    by (apply Rmult_le_compat_l; lra).
  lra.
Qed.

End DecayNumbers.

Section Decayed32.
Open Scope R_scope.
Implicit Types (s : State B32.t) (i : Tick) (x : B32.t).

Lemma in_deadzone_run s ticks i :
  in_deadzone s i -> in_deadzone (fst (run s ticks)) i.
Proof. unfold in_deadzone. now rewrite run_offset. Qed.

(** The bound of [decay_run], without the part that is subtracted. *)
Lemma decay_run_le s a ticks :
  bounded (filteredValue s) a -> a <= 2048 ->
  Forall (in_deadzone s) ticks ->
  bounded (filteredValue (fst (run s ticks)))
          (a * decay_rate ^ length ticks + 11 * delta).
Proof.
  intros Hb Ha Hall. eapply bounded_weaken; [apply (decay_run Hb Ha Hall)|].
  pose proof (decay_pow_range (length ticks)) as [H0 _].
  pose proof delta_pos as Hd.
  assert (0 <= delta * decay_rate ^ length ticks) by (apply Rmult_le_pos; lra).
  lra.
Qed.

(** After 96 passes in the deadzone the flow of a further such pass is
    below 0.94, whatever the filter held before. *)
Lemma deadzone_flow_decayed s ticks j :
  bounded (filteredValue s) 1023.1 ->
  Forall (in_deadzone s) (ticks ++ [j]) -> (96 <= length ticks)%nat ->
  bounded (tick_flow (fst (run s ticks)) j) 0.94.
Proof.
  intros Hb Hall Hlen. apply Forall_app in Hall. destruct Hall as [Hall Hj].
  inversion Hj as [|? ? Hj' _]; subst.
  pose proof (decay_pow_after_96 Hlen) as Hp.
  pose proof (decay_pow_range (length ticks)) as [Hp0 _].
  pose proof delta_pos as Hd. pose proof delta_small as Hds.
  pose proof decay_rate_range as [Hq0 Hq1]. pose proof decay_rate_le as Hq.
  assert (H1 : bounded (filteredValue (fst (run s ticks))) 0.0414199).
  { eapply bounded_weaken;
      [apply (@decay_run_le s 1023.1 ticks Hb ltac:(lra) Hall)|].
    assert (1023.1 * decay_rate ^ length ticks <= 1023.1 * 0.0000404846344)
      by (apply Rmult_le_compat_l; lra).
    lra. }
  unfold tick_flow.
  rewrite (@deadzone_filtered32 (fst (run s ticks)) j (proj1 H1)
             (in_deadzone_run ticks Hj')).
  apply flowOf_decayed32.
  eapply bounded_weaken; [apply (decay_bounded H1); lra|].
  assert (0.0414199 * decay_rate <= 0.0414199 * 0.9000002)
    by (apply Rmult_le_compat_l; lra).
  lra.
Qed.

End Decayed32.

Section Shown32.
Open Scope R_scope.
Implicit Types (s : State B32.t) (i : Tick).

Lemma measure_peak_tight s i :
  session_tight s -> adc_sample i -> bounded (peakFlow (measure s i)) 155.01.
Proof.
  intros Hs Hi. pose proof (tick_flow_tight Hs Hi) as Hfl.
  destruct Hs as (_ & _ & Hp).
  destruct (measure_peak s i) as [-> | (_ & _ & ->)]; assumption.
Qed.

Lemma loop_shown_within s i :
  session_tight s -> adc_sample i -> shown_within 155.01 (snd (loop s i)).
Proof.
  intros Hs Hi. rewrite loop_events. unfold shown_within.
  apply Forall_app. split.
  - destruct (ends_breath s i); [|constructor].
    constructor; [|constructor]. now apply measure_peak_tight.
  - destruct (refresh_due s i); [|constructor].
    constructor; [|constructor]. now apply tick_flow_tight.
Qed.

Lemma run_shown_within s ticks :
  session_tight s -> Forall adc_sample ticks ->
  shown_within 155.01 (snd (run s ticks)).
Proof.
  intros Hs Hall. revert s Hs.
  induction Hall as [|i ticks Hi _ IH]; intros s Hs.
  - constructor.
  - rewrite run_cons. cbn [snd]. apply Forall_app. split.
    + now apply loop_shown_within.
    + now apply IH, session_tight_loop.
Qed.

End Shown32.

Section Rest32.
Open Scope Z_scope.
Implicit Types (s : State B32.t) (i : Tick).

(** From rest, a sample that the deadzone forces to 0 gives the flow +0 and
    leaves the session at rest. *)
Lemma at_rest32_forced r s i :
  at_rest32 r s -> 0 <= r <= 1023 -> 0 <= raw i <= 1023 -> raw i <= r + 5 ->
  tick_flow s i = S754_zero false /\ ends_breath s i = false /\
  at_rest32 r (fst (loop s i)).
Proof.
  intros (Ho & Hf & Hb) Hr Hraw H5.
  assert (Hfil : tick_filtered s i = S754_zero false).
  { unfold tick_filtered. rewrite Ho, Hf, adjusted_counts32 by lia.
    assert (E : (raw i <=? r + 5) = true) by (apply Z.leb_le; lia).
    rewrite E. vm_compute. reflexivity. }
  assert (Hflow : tick_flow s i = S754_zero false).
  { unfold tick_flow. rewrite Hfil. vm_compute. reflexivity. }
  assert (Hq : flt START_THRESHOLD (tick_flow s i) = false)
    by (rewrite Hflow; vm_compute; reflexivity).
  assert (He : ends_breath s i = false).
  { rewrite ends_breath_spec, Hq, Hb. reflexivity. }
  split; [exact Hflow|]. split; [exact He|].
  destruct (loop_fields s i) as (A1 & A2 & _ & _ & _ & _ & _ & A8).
  unfold at_rest32. rewrite A1, A2, A8, He, measure_breathing, Hq, Hb.
  auto.
Qed.

End Rest32.

(** * Further statements *)

(** ** Calibration *)

(** X1.  [setup] sets the offset to the mean of its 50 readings, and no pass
    of [loop] changes it, a breath end and its reset included.  Under exact
    arithmetic the offset of every later session is that mean and lies
    between the smallest and the largest of the 50 readings; 50 equal
    readings [r] give the offset [r] exactly, under exact arithmetic and,
    for every reading of the converter, in binary32. *)
Theorem X1_calibration_is_the_mean_and_is_kept :
  (forall (F : Type) (ops : FloatOps F) (s : State F) (ticks : list Tick),
      sensorOffset (fst (run s ticks)) = sensorOffset s) /\
  (forall (reads : list Z) (t0 lo hi : Z) (ticks : list Tick),
      (50 <= length reads)%nat ->
      Forall (fun r => lo <= r <= hi)%Z (firstn 50 reads) ->
      let s := fst (run (setup (F:=R) reads t0) ticks) in
      (sensorOffset s = IZR (fold_left Z.add (firstn 50 reads) 0%Z) / 50 /\
       IZR lo <= sensorOffset s <= IZR hi)%R) /\
  (forall (r t0 : Z) (ticks : list Tick),
      sensorOffset (fst (run (setup (F:=R) (repeat r 50) t0) ticks)) = IZR r) /\
  (forall (r t0 : Z) (ticks : list Tick),
      adc_read r ->
      sensorOffset (fst (run (setup (F:=B32.t) (repeat r 50) t0) ticks))
      = B32.of_Z r).
Proof.
  split; [|split; [|split]].
  - intros F ops s ticks. apply run_offset.
  - intros reads t0 lo hi ticks Hlen Hall s. unfold s. rewrite run_offset.
    split; [apply setup_offset_mean | now apply setup_offset_between].
  - intros r t0 ticks. rewrite run_offset. apply setup_offset_R.
  - intros r t0 ticks Hr. rewrite run_offset. now apply setup_offset_32.
Qed.

(** X1 in binary32: calibrated on 50 readings of 500, the offset after the
    run [breath] is 500. *)
Lemma X1_witness :
  sensorOffset (fst (run (setup (F:=B32.t) (repeat 500%Z 50) 0) Scenario.breath))
  = B32.of_Z 500.
Proof.
  assert (H : adc_read 500) by (unfold adc_read; lia).
  exact (proj2 (proj2 (proj2 X1_calibration_is_the_mean_and_is_kept))
               500%Z 0%Z Scenario.breath H).
Defined.

(** ** The millisecond clock *)

(** X2.  The three time differences of a pass are taken on [unsigned long]
    and survive the rollover of the 32-bit millisecond counter: when the
    stored reading and the new reading are the counter values of two times
    [T0 <= T1] less than 2^32 ms apart, the elapsed time [dt] is [(T1 - T0) /
    1000.0], the timeout check compares [T1 - T0] with BREATH_TIMEOUT and
    the display refresh compares [T1 - T0] with 150, whether or not the
    counter wrapped in between. *)
Theorem X2_time_differences_survive_rollover :
  forall (F : Type) (ops : FloatOps F) (s : State F) (i : Tick) (T0 T1 : Z),
    (0 <= T1 - T0 < 2 ^ 32)%Z ->
    (previousMillis s = wrap32 T0 -> t_loop (clk i) = wrap32 T1 ->
     tick_dt s i = fdiv (of_int (T1 - T0)) (dec 10000 1)) /\
    (breathStopTimer (measure s i) = wrap32 T0 -> t_stop (clk i) = wrap32 T1 ->
     ends_breath s i =
     isBreathing (measure s i) && fle (tick_flow s i) CUTOFF_THRESHOLD
     && (BREATH_TIMEOUT <? T1 - T0)%Z) /\
    (lastDisplayTime s = wrap32 T0 -> t_disp (clk i) = wrap32 T1 ->
     refresh_due s i = (150 <? T1 - T0)%Z).
Proof.
  intros F ops s i T0 T1 H. split; [|split]; intros H0 H1.
  - unfold tick_dt. now rewrite H0, H1, wrap32_elapsed.
  - unfold ends_breath, stops. now rewrite H0, H1, wrap32_elapsed.
  - unfold refresh_due. now rewrite H0, H1, wrap32_elapsed.
Qed.

(** X2 across the rollover: the previous pass read the counter 10 ms before
    it wrapped, this pass reads it 40 ms after; dt is 50 / 1000.0. *)
Lemma X2_witness :
  tick_dt before_rollover (Scenario.at_time 500 40)
  = fdiv (of_int 50) (dec 10000 1).
Proof.
  assert (H : (0 <= (2 ^ 32 + 40) - (2 ^ 32 - 10) < 2 ^ 32)%Z) by lia.
  assert (H0 : previousMillis before_rollover = wrap32 (2 ^ 32 - 10))
    by reflexivity.
  assert (H1 : t_loop (clk (Scenario.at_time 500 40)) = wrap32 (2 ^ 32 + 40))
    by reflexivity.
  exact (proj1 (X2_time_differences_survive_rollover B32.ops before_rollover
                  (Scenario.at_time 500 40) (2 ^ 32 - 10) (2 ^ 32 + 40) H)
               H0 H1).
Defined.

(** ** The live window *)

(** X3.  A pass redraws the live window at most once, and exactly when the
    clock reading of the refresh check is more than 150 ms (modulo 2^32)
    past the reading stored at the last redraw; it then stores a new
    reading.  The window shows the flow of the pass and the volume left by
    the stop logic (0 in a pass that finalizes a breath), and a summary of
    the same pass precedes it.  While every refresh check reads at most 150
    ms past the stored reading, no pass redraws and the stored reading
    stays. *)
Theorem X3_live_window_refresh :
  forall (F : Type) (ops : FloatOps F) (s : State F),
    (forall i : Tick,
        let s' := fst (loop s i) in
        lives (snd (loop s i)) =
          (if refresh_due s i
           then [Live (tick_flow s i)
                      (if ends_breath s i then of_int 0
                       else currentVol (measure s i))]
           else []) /\
        lastDisplayTime s' =
          (if refresh_due s i then t_shown (clk i) else lastDisplayTime s) /\
        snd (loop s i) = summaries (snd (loop s i)) ++ lives (snd (loop s i))) /\
    (forall ticks : list Tick,
        Forall (fun i => (wrap32 (t_disp (clk i) - lastDisplayTime s) <= 150)%Z)
               ticks ->
        lives (snd (run s ticks)) = [] /\
        lastDisplayTime (fst (run s ticks)) = lastDisplayTime s).
Proof.
  intros F ops s. split.
  - intros i s'. split; [|split].
    + rewrite loop_lives.
      destruct (loop_fields s i) as (_ & _ & _ & _ & -> & _). reflexivity.
    + apply loop_display.
    + rewrite loop_summaries, loop_lives, loop_events. reflexivity.
  - intros ticks. apply run_no_refresh.
Qed.

(** X3 on the first two passes of the run [breath] once the window has been
    drawn at 40 ms: both refresh checks read less than 150 ms later. *)
Lemma X3_witness :
  let s := fst (loop Scenario.power_up
                     (mkTick 500 (mkClock 40 40 40 40 200 40))) in
  lives (snd (run s (firstn 2 Scenario.breath))) = [] /\
  lastDisplayTime (fst (run s (firstn 2 Scenario.breath))) = lastDisplayTime s.
Proof.
  assert (H : Forall (fun i => (wrap32 (t_disp (clk i) - lastDisplayTime
                 (fst (loop Scenario.power_up
                         (mkTick 500 (mkClock 40 40 40 40 200 40))))) <= 150)%Z)
                (firstn 2 Scenario.breath)).
  { repeat constructor; vm_compute; discriminate. }
  exact (proj2 (X3_live_window_refresh B32.ops
                  (fst (loop Scenario.power_up
                          (mkTick 500 (mkClock 40 40 40 40 200 40)))))
               (firstn 2 Scenario.breath) H).
Defined.

(** ** The breath state *)

(** X4.  Volume and peak are only held within a breath: in every session
    reachable from [setup], for every arithmetic, an idle session has
    currentVol = 0 and peakFlow = 0; so the live window of an idle session
    shows the volume 0. *)
Theorem X4_idle_session_holds_nothing :
  forall (F : Type) (ops : FloatOps F) (s : State F),
    reachable s -> isBreathing s = false ->
    currentVol s = of_int 0 /\ peakFlow s = of_int 0 /\
    forall flow : F, updateLiveScreen s flow = [Live flow (of_int 0)].
Proof.
  intros F ops s Hr Hidle.
  assert (H : isBreathing s = false ->
              currentVol s = of_int 0 /\ peakFlow s = of_int 0).
  { apply (reachable_ind
             (fun s0 => isBreathing s0 = false ->
                        currentVol s0 = of_int 0 /\ peakFlow s0 = of_int 0)).
    - intros reads t0 _. split; reflexivity.
    - intros s0 i IH Hidle0.
      destruct (loop_fields s0 i) as (_ & _ & _ & _ & Hv & Hp & _ & Hb).
      rewrite Hv, Hp. rewrite Hb in Hidle0.
      destruct (ends_breath s0 i); [auto|].
      rewrite measure_breathing in Hidle0. apply orb_false_elim in Hidle0.
      destruct Hidle0 as [Hq Hi]. destruct (IH Hi) as [IHv IHp].
      unfold measure. cbn [currentVol peakFlow]. fold (tick_flow s0 i).
      rewrite Hq, Hi. cbn [andb]. auto.
    - exact Hr. }
  destruct (H Hidle) as [Hv Hp]. split; [exact Hv|]. split; [exact Hp|].
  intros flow. unfold updateLiveScreen. now rewrite Hv.
Qed.

(** X4 after the run [breath], whose last pass finalized the breath. *)
Lemma X4_witness :
  currentVol (Scenario.after 60) = of_int 0 /\
  peakFlow (Scenario.after 60) = of_int 0 /\
  forall flow : B32.t,
    updateLiveScreen (Scenario.after 60) flow = [Live flow (of_int 0)].
Proof.
  assert (H1 : reachable (Scenario.after 60))
    by apply reachable_run, reachable_setup.
  assert (H2 : isBreathing (Scenario.after 60) = false)
    by (vm_compute; reflexivity).
  exact (X4_idle_session_holds_nothing H1 H2).
Defined.

(** X5.  A breath has a peak above the start threshold: in every session
    reachable from [setup], under exact arithmetic and in binary32, the peak
    of a breathing session is above START_THRESHOLD, and so is the peak
    reported by every summary of a run. *)
Theorem X5_breath_peak_above_start :
  (forall (reads : list Z) (t0 : Z) (ticks : list Tick),
      let s := fst (run (setup (F:=R) reads t0) ticks) in
      (isBreathing s = true -> (2 < peakFlow s)%R) /\
      Forall (fun e => match e with
                       | Results peak _ => (2 < peak)%R
                       | Live _ _ => True
                       end) (snd (run (setup (F:=R) reads t0) ticks))) /\
  (forall (reads : list Z) (t0 : Z) (ticks : list Tick),
      let s := fst (run (setup (F:=B32.t) reads t0) ticks) in
      (isBreathing s = true -> flt START_THRESHOLD (peakFlow s) = true) /\
      peaks_above_start (snd (run (setup (F:=B32.t) reads t0) ticks))).
Proof.
  split.
  - intros reads t0 ticks s.
    assert (Hok : breath_state_ok s).
    { apply (breath_state_reachable zero_lt_start_R).
      now exists reads, t0, ticks. }
    split.
    + intros Hb. destruct Hok as [_ Hok]. specialize (Hok Hb).
      rewrite START_THRESHOLD_R in Hok. cbn [flt Rops] in Hok.
      now apply Rltb_true in Hok.
    + pose proof (run_peaks_above_start zero_lt_start_R ticks
                    (breath_state_setup reads t0)) as H.
      eapply Forall_impl; [|exact H]. intros [peak vol|flow vol]; [|auto].
      rewrite START_THRESHOLD_R. cbn [flt Rops]. apply Rltb_true.
  - intros reads t0 ticks s. split.
    + intros Hb.
      assert (Hok : breath_state_ok s).
      { apply (breath_state_reachable zero_lt_start_32).
        now exists reads, t0, ticks. }
      now apply Hok.
    + apply (run_peaks_above_start zero_lt_start_32), breath_state_setup.
Qed.

(** X5 in binary32 after the first pass of the run [breath]. *)
Lemma X5_witness :
  flt START_THRESHOLD
      (peakFlow (fst (run (setup (F:=B32.t) (repeat 500%Z 50) 0)
                          (firstn 1 Scenario.breath)))) = true.
Proof.
  assert (H : isBreathing (fst (run (setup (F:=B32.t) (repeat 500%Z 50) 0)
                                    (firstn 1 Scenario.breath))) = true)
    by (vm_compute; reflexivity).
  exact (proj1 (proj2 X5_breath_peak_above_start (repeat 500%Z 50) 0%Z
                      (firstn 1 Scenario.breath)) H).
Defined.

(** X6.  The peak is the largest flow of the breath.  Start from an idle
    reachable session and run passes of which none finalizes a breath; if
    the session is then breathing, peakFlow is the flow of one of those
    passes and no pass had a larger flow; and the pass that then finalizes
    the breath reports that peak.  This holds under exact arithmetic and in
    binary32. *)
Theorem X6_peak_is_largest_flow :
  (forall (s : State R) (ticks : list Tick),
      reachable s -> isBreathing s = false ->
      summaries (snd (run s ticks)) = [] ->
      let s' := fst (run s ticks) in
      isBreathing s' = true ->
      In (peakFlow s') (flows s ticks) /\
      Forall (fun f => (f <= peakFlow s')%R) (flows s ticks) /\
      forall j : Tick,
        ends_breath s' j = true ->
        summaries (snd (loop s' j)) = [Results (peakFlow s') (currentVol s')]) /\
  (forall (s : State B32.t) (ticks : list Tick),
      reachable s -> isBreathing s = false ->
      summaries (snd (run s ticks)) = [] ->
      let s' := fst (run s ticks) in
      isBreathing s' = true ->
      In (peakFlow s') (flows s ticks) /\
      Forall (fun f => fle f (peakFlow s') = true) (flows s ticks) /\
      forall j : Tick,
        ends_breath s' j = true ->
        summaries (snd (loop s' j)) = [Results (peakFlow s') (currentVol s')]).
Proof.
  split.
  - intros s ticks Hr Hidle Hs s' Hb.
    destruct (peak_is_max_R ticks Hr Hidle Hs Hb) as [Hin Hall].
    split; [exact Hin|]. split.
    + eapply Forall_impl; [|exact Hall]. intros f Hf.
      cbn [fle Rops] in Hf. now apply Rleb_true in Hf.
    + intros j. apply summary_of_session.
  - intros s ticks Hr Hidle Hs s' Hb.
    destruct (peak_is_max_32 ticks Hr Hidle Hs Hb) as [Hin Hall].
    split; [exact Hin|]. split; [exact Hall|].
    intros j. apply summary_of_session.
Qed.

(** X6 calibrated at 500: one pass at the sample 600 starts a breath whose
    peak is the flow of that pass, under exact arithmetic and in binary32. *)
Lemma X6_witness :
  (let s := setup (F:=R) (repeat 500%Z 50) 0 in
   let ticks := [Scenario.at_time 600 50] in
   In (peakFlow (fst (run s ticks))) (flows s ticks)) /\
  (let ticks := firstn 1 Scenario.breath in
   In (peakFlow (fst (run Scenario.power_up ticks)))
      (flows Scenario.power_up ticks)).
Proof.
  split.
  - intros s ticks.
    assert (Hr : reachable s) by apply reachable_setup.
    assert (Hidle : isBreathing s = false) by reflexivity.
    assert (Hflow : (2 < tick_flow s (Scenario.at_time 600 50))%R).
    { apply passing_sample_flow.
      - cbn. lra.
      - unfold s. rewrite setup_offset_R. cbn. lra. }
    assert (Hq : flt START_THRESHOLD (tick_flow s (Scenario.at_time 600 50))
                 = true).
    { rewrite START_THRESHOLD_R. cbn [flt Rops]. now apply Rltb_true. }
    assert (He : ends_breath s (Scenario.at_time 600 50) = false).
    { rewrite ends_breath_spec, Hq.
      assert (Hc : fle (tick_flow s (Scenario.at_time 600 50)) CUTOFF_THRESHOLD
                   = false).
      { rewrite CUTOFF_THRESHOLD_R. cbn [fle Rops]. apply Rleb_false. lra. }
      rewrite Hc. reflexivity. }
    assert (Hs : summaries (snd (run s ticks)) = []).
    { unfold ticks. rewrite run_cons. cbn [snd run].
      rewrite summaries_app, loop_summaries, He. reflexivity. }
    assert (Hb : isBreathing (fst (run s ticks)) = true).
    { unfold ticks. rewrite run_cons. cbn [fst run].
      destruct (loop_fields s (Scenario.at_time 600 50))
        as (_ & _ & _ & _ & _ & _ & _ & ->).
      rewrite He, measure_breathing, Hq. reflexivity. }
    exact (proj1 (proj1 X6_peak_is_largest_flow s ticks Hr Hidle Hs Hb)).
  - intros ticks.
    assert (Hr : reachable Scenario.power_up) by apply reachable_setup.
    assert (Hidle : isBreathing Scenario.power_up = false) by reflexivity.
    assert (Hs : summaries (snd (run Scenario.power_up ticks)) = [])
      by (vm_compute; reflexivity).
    assert (Hb : isBreathing (fst (run Scenario.power_up ticks)) = true)
      by (vm_compute; reflexivity).
    exact (proj1 (proj2 X6_peak_is_largest_flow Scenario.power_up ticks
                        Hr Hidle Hs Hb)).
Defined.

(** ** The range of the flow *)

(** X7.  In binary32, calibrated and fed within the range of the converter
    (readings and samples from 0 to 1023), every session keeps the filtered
    value a finite number between 0 and 1023.1 and the peak a finite number
    between 0 and 155.01; every pass computes a filtered value and a flow
    within the same bounds; and every flow that a run shows, the peak of a
    results window and the flow of a live window, is within 0 and 155.01.
    (155 is the flow of the formula at the full scale of the converter; the
    margins cover the roundings.) *)
Theorem X7_flow_within_full_scale :
  forall (reads : list Z) (t0 : Z) (ticks : list Tick),
    Forall adc_read reads -> Forall adc_sample ticks ->
    let s := fst (run (setup (F:=B32.t) reads t0) ticks) in
    bounded (filteredValue s) 1023.1 /\ bounded (peakFlow s) 155.01 /\
    (forall i : Tick,
        adc_sample i ->
        bounded (tick_filtered s i) 1023.1 /\
        bounded (tick_flow s i) 155.01) /\
    shown_within 155.01 (snd (run (setup (F:=B32.t) reads t0) ticks)).
Proof.
  intros reads t0 ticks Hr Ht s.
  pose proof (session_tight_setup t0 Hr) as H0.
  assert (Hs : session_tight s) by exact (session_tight_run H0 Ht).
  split; [apply Hs|]. split; [apply Hs|]. split.
  - intros i Hi. split; [now apply tick_filtered_tight|].
    now apply tick_flow_tight.
  - now apply run_shown_within.
Qed.

(** X7 after the first two passes of the run [breath]. *)
Lemma X7_witness :
  bounded (peakFlow (fst (run (setup (F:=B32.t) (repeat 500%Z 50) 0)
                              (firstn 2 Scenario.breath)))) 155.01.
Proof.
  assert (H1 : Forall adc_read (repeat 500%Z 50)).
  { apply Forall_forall. intros r Hin. apply repeat_spec in Hin. subst r.
    unfold adc_read. lia. }
  assert (H2 : Forall adc_sample (firstn 2 Scenario.breath)).
  { repeat constructor; cbn; lia. }
  exact (proj1 (proj2 (@X7_flow_within_full_scale (repeat 500%Z 50) 0%Z
                         (firstn 2 Scenario.breath) H1 H2))).
Defined.

(** ** The deadzone *)

(** X8.  With the offset at a whole count [r] (as after a calibration on 50
    equal readings), the deadzone cuts between 5 and 6 counts: a sample of
    at most [r + 5], a sample below the offset included, is forced to 0,
    and a sample of [r + 6] or more passes as [raw - r].  This holds under
    exact arithmetic and, for counts in the range of the converter, in
    binary32, where the subtraction of two counts is exact. *)
Theorem X8_deadzone_in_counts :
  (forall r rawv : Z,
      adjusted (IZR r) rawv
      = if (rawv <=? r + 5)%Z then 0%R else IZR (rawv - r)) /\
  (forall (r t0 : Z) (ticks : list Tick) (i : Tick),
      let s := fst (run (setup (F:=R) (repeat r 50) t0) ticks) in
      adjusted (sensorOffset s) (raw i)
      = if (raw i <=? r + 5)%Z then 0%R else IZR (raw i - r)) /\
  (forall (r t0 : Z) (ticks : list Tick) (i : Tick),
      adc_read r -> adc_sample i ->
      let s := fst (run (setup (F:=B32.t) (repeat r 50) t0) ticks) in
      adjusted (sensorOffset s) (raw i)
      = if (raw i <=? r + 5)%Z then B32.of_Z 0 else B32.of_Z (raw i - r)).
Proof.
  split; [exact adjusted_counts|]. split.
  - intros r t0 ticks i s. unfold s.
    rewrite run_offset, setup_offset_R. apply adjusted_counts.
  - intros r t0 ticks i Hr Hi s. unfold s.
    rewrite run_offset, setup_offset_32 by exact Hr.
    now apply adjusted_counts32.
Qed.

(** X8 in binary32, calibrated at 500: the sample 505 is forced to 0. *)
Lemma X8_witness :
  adjusted (sensorOffset (fst (run (setup (F:=B32.t) (repeat 500%Z 50) 0)
                                   (firstn 2 Scenario.breath))))
           (raw (Scenario.at_time 505 150))
  = (if (raw (Scenario.at_time 505 150) <=? 500 + 5)%Z
     then B32.of_Z 0
     else B32.of_Z (raw (Scenario.at_time 505 150) - 500)).
Proof.
  assert (H1 : adc_read 500) by (unfold adc_read; lia).
  assert (H2 : adc_sample (Scenario.at_time 505 150))
    by (unfold adc_sample; cbn; lia).
  exact (proj2 (proj2 X8_deadzone_in_counts) 500%Z 0%Z
               (firstn 2 Scenario.breath) (Scenario.at_time 505 150) H1 H2).
Defined.

(** X9.  In binary32, a pass whose sample is in the deadzone replaces the
    filtered value by its rounded product with the constant 1.0 - alpha.
    If the filtered value is at most [a] (with [a] at most 2048), the new
    one is at most [a * decay_rate + delta], where [decay_rate] is
    0.9 * (1 + 2^-23) and [delta] is 2^-149, the smallest positive binary32
    number; after [n] such passes in a row the filtered value is at most
    [a * decay_rate ^ n + 11 * delta], whether or not one of the passes
    finalized a breath.  For calibration readings and samples in the range
    of the converter this holds with [a] = 1023.1.  (The filtered value
    need not reach 0: the rounded product can stall a few [delta] above
    it.) *)
Theorem X9_deadzone_filter_decays :
  (forall (s : State B32.t) (a : R),
      bounded (filteredValue s) a -> (a <= 2048)%R ->
      (forall i : Tick,
          in_deadzone s i ->
          tick_filtered s i
          = fmul (filteredValue s) (fsub (dec 10 1) alpha) /\
          bounded (tick_filtered s i) (a * decay_rate + delta)) /\
      (forall ticks : list Tick,
          Forall (in_deadzone s) ticks ->
          bounded (filteredValue (fst (run s ticks)))
                  (a * decay_rate ^ length ticks + 11 * delta))) /\
  (forall (reads : list Z) (t0 : Z) (ticks0 ticks : list Tick),
      Forall adc_read reads -> Forall adc_sample ticks0 ->
      let s := fst (run (setup (F:=B32.t) reads t0) ticks0) in
      Forall (in_deadzone s) ticks ->
      bounded (filteredValue (fst (run s ticks)))
              (1023.1 * decay_rate ^ length ticks + 11 * delta)).
Proof.
  split.
  - intros s a Hb Ha. split.
    + intros i Hi.
      rewrite (@deadzone_filtered32 s i (proj1 Hb) Hi).
      split; [reflexivity | now apply decay_bounded].
    + intros ticks Hall. now apply decay_run_le.
  - intros reads t0 ticks0 ticks Hr Ht s Hall.
    pose proof (session_tight_setup t0 Hr) as H0.
    assert (Hs : session_tight s) by exact (session_tight_run H0 Ht).
    destruct Hs as (_ & Hf & _).
    apply (decay_run_le Hf); [lra | exact Hall].
Qed.

(** X9 in the run [breath]: the first pass leaves the filter at 10, and the
    next three passes, at the sample 500, are in the deadzone. *)
Lemma X9_witness :
  let s := Scenario.after 1 in
  let ticks := firstn 3 (skipn 1 Scenario.breath) in
  filteredValue s = S754_finite false 10485760 (-20) /\
  bounded (filteredValue (fst (run s ticks)))
          (10 * decay_rate ^ length ticks + 11 * delta).
Proof.
  intros s ticks.
  assert (E : filteredValue s = S754_finite false 10485760 (-20))
    by (vm_compute; reflexivity).
  assert (Hb : bounded (filteredValue s) 10).
  { rewrite E. apply bounded_const. constant. }
  assert (Ha : (10 <= 2048)%R) by lra.
  assert (Hall : Forall (in_deadzone s) ticks).
  { repeat (apply Forall_cons; [vm_compute; reflexivity|]).
    apply Forall_nil. }
  split; [exact E|].
  exact (proj2 (proj1 X9_deadzone_filter_decays s 10%R Hb Ha) ticks Hall).
Defined.

(** X10.  In binary32, from rest (idle, the filter at 0, the offset at a
    whole count [r], as a calibration on 50 equal readings leaves it), a
    breath starts exactly on a sample of [r + 6] or more.  Such a sample
    lifts the flow of its pass above START_THRESHOLD: the pass leaves the
    session Breathing, restarts the stop timer and finalizes nothing.  A
    sample of [r + 5] or less is forced to 0 by the deadzone: the flow of
    the pass is +0, nothing is finalized and the session stays at rest. *)
Theorem X10_breath_starts_past_the_deadzone :
  forall (r : Z) (s : State B32.t) (i : Tick),
    at_rest32 r s -> adc_read r -> adc_sample i ->
    ((r + 6 <= raw i)%Z ->
     flt START_THRESHOLD (tick_flow s i) = true /\
     ends_breath s i = false /\
     isBreathing (fst (loop s i)) = true /\
     breathStopTimer (fst (loop s i)) = t_start (clk i)) /\
    ((raw i <= r + 5)%Z ->
     tick_flow s i = S754_zero false /\
     ends_breath s i = false /\
     at_rest32 r (fst (loop s i))).
Proof.
  intros r s i Hrest Hr Hi. split.
  - intros H6.
    pose proof (at_rest32_passing i Hrest Hr Hi H6) as Hq.
    assert (Hc : fle (tick_flow s i) CUTOFF_THRESHOLD = false).
    { destruct (fle (tick_flow s i) CUTOFF_THRESHOLD) eqn:E; [|reflexivity].
      destruct (below_cutoff _ E) as [_ H]. congruence. }
    assert (He : ends_breath s i = false)
      by (rewrite ends_breath_spec, Hq, Hc; reflexivity).
    destruct (loop_fields s i) as (_ & _ & _ & Ht & _ & _ & _ & Hb).
    rewrite Hb, Ht, He, measure_breathing, measure_timer, Hq. auto.
  - intros H5. now apply at_rest32_forced.
Qed.

(** X10 at power-up, calibrated at 500: the sample 506 starts a breath, the
    sample 505 does not. *)
Lemma X10_witness :
  isBreathing (fst (loop Scenario.power_up (Scenario.at_time 506 50))) = true /\
  at_rest32 500 (fst (loop Scenario.power_up (Scenario.at_time 505 50))).
Proof.
  assert (H0 : at_rest32 500 Scenario.power_up).
  { unfold at_rest32, Scenario.power_up.
    rewrite setup_offset_32 by lia. auto. }
  assert (H1 : adc_read 500) by (unfold adc_read; lia).
  assert (H2 : adc_sample (Scenario.at_time 506 50))
    by (unfold adc_sample; cbn; lia).
  assert (H3 : (500 + 6 <= raw (Scenario.at_time 506 50))%Z) by (cbn; lia).
  assert (H4 : adc_sample (Scenario.at_time 505 50))
    by (unfold adc_sample; cbn; lia).
  assert (H5 : (raw (Scenario.at_time 505 50) <= 500 + 5)%Z) by (cbn; lia).
  split.
  - exact (proj1 (proj2 (proj2 (proj1
             (@X10_breath_starts_past_the_deadzone 500%Z Scenario.power_up
                (Scenario.at_time 506 50) H0 H1 H2) H3)))).
  - exact (proj2 (proj2 (proj2
             (@X10_breath_starts_past_the_deadzone 500%Z Scenario.power_up
                (Scenario.at_time 505 50) H0 H1 H4) H5))).
Defined.

(** ** After the reset *)

(** X11.  An idle session never reads its stop timer before a pass above
    the start threshold has restarted it: two idle sessions that differ
    only in the stop timer and the display bookkeeping show the same flows,
    volumes, peaks, states and summaries on the same inputs.  So a finalized
    breath leaves nothing behind: after the pass that finalizes it, the
    session behaves as a session freshly set up with the same calibration
    readings at the clock reading taken on return from the results
    window. *)
Theorem X11_reset_restores_power_up_state :
  forall (F : Type) (ops : FloatOps F),
    (forall (s1 s2 : State F) (ticks : list Tick),
        idle_alike s1 s2 ->
        observe s1 ticks = observe s2 ticks /\
        summaries (snd (run s1 ticks)) = summaries (snd (run s2 ticks))) /\
    (forall (reads : list Z) (t0 : Z) (ticks0 : list Tick) (i : Tick)
            (ticks : list Tick),
        let s := fst (run (setup reads t0) ticks0) in
        ends_breath s i = true ->
        let s' := fst (loop s i) in
        let fresh := setup reads (t_reset (clk i)) in
        idle_alike s' fresh /\
        observe s' ticks = observe fresh ticks /\
        summaries (snd (run s' ticks)) = summaries (snd (run fresh ticks))).
Proof.
  intros F ops. split.
  - intros s1 s2 ticks H. now apply idle_alike_run.
  - intros reads t0 ticks0 i ticks s He s' fresh.
    assert (H : idle_alike s' fresh).
    { destruct (loop_fields s i) as (A1 & A2 & A3 & _ & A5 & A6 & A7 & A8).
      fold s' in A1, A2, A3, A5, A6, A7, A8. rewrite He in *.
      unfold idle_alike. rewrite A1, A2, A3, A5, A6, A7, A8.
      unfold s. rewrite run_offset. repeat split. }
    split; [exact H|]. now apply idle_alike_run.
Qed.

(** X11 on the run [breath], whose pass at 3000 ms finalizes the breath:
    the next passes are those of a fresh session. *)
Lemma X11_witness :
  let s := fst (run (setup (F:=B32.t) (repeat 500%Z 50) 0)
                    (firstn 59 Scenario.breath)) in
  let i := Scenario.at_time 500 3000 in
  observe (fst (loop s i)) (firstn 3 Scenario.breath)
  = observe (setup (repeat 500%Z 50) (t_reset (clk i)))
            (firstn 3 Scenario.breath).
Proof.
  assert (He : ends_breath (fst (run (setup (F:=B32.t) (repeat 500%Z 50) 0)
                                     (firstn 59 Scenario.breath)))
                           (Scenario.at_time 500 3000) = true)
    by (vm_compute; reflexivity).
  exact (proj1 (proj2 (proj2 (X11_reset_restores_power_up_state B32.ops)
                         (repeat 500%Z 50) 0%Z (firstn 59 Scenario.breath)
                         (Scenario.at_time 500 3000)
                         (firstn 3 Scenario.breath) He))).
Defined.

(** ** The bar of the live window *)

(** X12.  The bar of the live window fits the 128-pixel screen.  For
    calibration readings and samples in the range of the converter, the
    flow converts to an [int] between 0 and 155 under exact arithmetic (0
    and 5000 in binary32), and the bar is between 0 and 128 pixels wide.
    Under exact arithmetic the flow never exceeds the scale, so the clamp of
    [barFlow] never acts, and on the 600 scale (peak above 100) the bar is at
    most 33 pixels wide. *)
Theorem X12_bar_fits_the_screen :
  (forall (reads : list Z) (t0 : Z) (ticks : list Tick) (i : Tick),
      Forall adc_read reads -> Forall adc_sample ticks -> adc_sample i ->
      let s := fst (run (setup (F:=R) reads t0) ticks) in
      let s' := fst (loop s i) in
      let flow := tick_flow s i in
      (0 <= to_int flow <= 155)%Z /\
      barFlow s' flow = to_int flow /\
      (0 <= barWidth s' flow <= 128)%Z /\
      (maxScale s' = 600%Z -> (barWidth s' flow <= 33)%Z)) /\
  (forall (reads : list Z) (t0 : Z) (ticks : list Tick) (i : Tick),
      Forall adc_read reads -> Forall adc_sample ticks -> adc_sample i ->
      let s := fst (run (setup (F:=B32.t) reads t0) ticks) in
      let s' := fst (loop s i) in
      let flow := tick_flow s i in
      (0 <= to_int flow <= 5000)%Z /\
      (0 <= barWidth s' flow <= 128)%Z).
Proof.
  split.
  - intros reads t0 ticks i Hr Ht Hi s s' flow.
    assert (Hs : session_in_range s)
      by exact (session_in_range_run (session_in_range_setup t0 Hr) Ht).
    assert (Hok : breath_state_ok s).
    { apply (breath_state_reachable zero_lt_start_R).
      now exists reads, t0, ticks. }
    pose proof (tick_flow_in_range Hs Hi) as Hfl. fold flow in Hfl.
    assert (Hb : (0 <= to_int flow <= 155)%Z)
      by (apply Rtrunc_range; exact Hfl).
    assert (Hms : maxScale s' = 100%Z \/ maxScale s' = 600%Z)
      by (unfold maxScale; destruct (flt _ _); auto).
    assert (Hle : (to_int flow <= maxScale s')%Z).
    { destruct Hms as [H100 | H600]; [|lia]. rewrite H100.
      unfold maxScale in H100.
      destruct (flt (of_int 100) (peakFlow s')) eqn:Hp; [discriminate|].
      cbn [flt of_int Rops] in Hp. apply Rltb_false in Hp.
      apply Rtrunc_range. split; [apply Hfl|].
      unfold s' in Hp. rewrite loop_peak in Hp.
      destruct (ends_breath s i) eqn:He.
      - unfold ends_breath, stops in He. apply andb_prop in He.
        destruct He as [He _]. apply andb_prop in He. destruct He as [_ He].
        rewrite CUTOFF_THRESHOLD_R in He. cbn [fle Rops] in He.
        apply Rleb_true in He. fold flow in He. lra.
      - pose proof (measure_flow_le_peak i Hok) as Hm. fold flow in Hm.
        destruct (isBreathing (measure s i)); lra. }
    destruct (bar_range (proj1 Hb) Hms) as (Hw & Hc & H33).
    split; [exact Hb|]. split; [now apply Hc|]. split; [exact Hw|].
    intros H600. apply H33; [exact H600 | lia].
  - intros reads t0 ticks i Hr Ht Hi s s' flow.
    assert (Hs : session_bounded s)
      by apply (session_bounded_run (session_bounded_setup t0 Hr) Ht).
    pose proof (tick_flow_bounded Hs Hi) as Hfl. fold flow in Hfl.
    destruct (trunc32_range Hfl) as [H0 H1].
    assert (Hb : (0 <= to_int flow <= 5000)%Z)
      by (split; [exact H0 | apply le_IZR; exact H1]).
    assert (Hms : maxScale s' = 100%Z \/ maxScale s' = 600%Z)
      by (unfold maxScale; destruct (flt _ _); auto).
    destruct (bar_range (proj1 Hb) Hms) as (Hw & _).
    split; [exact Hb | exact Hw].
Qed.

(** X12 in binary32 on the second pass of the run [breath]. *)
Lemma X12_witness :
  let s := fst (run (setup (F:=B32.t) (repeat 500%Z 50) 0)
                    (firstn 1 Scenario.breath)) in
  let i := Scenario.at_time 500 100 in
  (0 <= barWidth (fst (loop s i)) (tick_flow s i) <= 128)%Z.
Proof.
  assert (H1 : Forall adc_read (repeat 500%Z 50)).
  { apply Forall_forall. intros r Hin. apply repeat_spec in Hin. subst r.
    unfold adc_read. lia. }
  assert (H2 : Forall adc_sample (firstn 1 Scenario.breath)).
  { repeat constructor; cbn; lia. }
  assert (H3 : adc_sample (Scenario.at_time 500 100))
    by (unfold adc_sample; cbn; lia).
  exact (proj2 (proj2 X12_bar_fits_the_screen (repeat 500%Z 50) 0%Z
                      (firstn 1 Scenario.breath) (Scenario.at_time 500 100)
                      H1 H2 H3)).
Defined.

(** ** No overflow in binary32 *)

(** X13.  In binary32, for calibration readings and samples in the range of
    the converter, nothing overflows and nothing is NaN: in every session
    the filtered value is a finite number of at most 2048, the peak a finite
    number of at most 5000 and the volume is not NaN; every pass computes a
    finite flow of at most 5000, a finite elapsed time and a finite
    increment. *)
Theorem X13_binary32_session_stays_finite :
  forall (reads : list Z) (t0 : Z) (ticks : list Tick),
    Forall adc_read reads -> Forall adc_sample ticks ->
    let s := fst (run (setup (F:=B32.t) reads t0) ticks) in
    (B32.finite (filteredValue s) = true /\ (B2R (filteredValue s) <= 2048)%R) /\
    (B32.finite (peakFlow s) = true /\ (B2R (peakFlow s) <= 5000)%R) /\
    currentVol s <> S754_nan /\
    forall i : Tick,
      adc_sample i ->
      (B32.finite (tick_flow s i) = true /\ (B2R (tick_flow s i) <= 5000)%R) /\
      B32.finite (tick_dt s i) = true /\
      B32.finite (increment (tick_flow s i) (previousFlow s) (tick_dt s i))
      = true.
Proof.
  intros reads t0 ticks Hr Ht s.
  pose proof (session_bounded_setup t0 Hr) as Hs0.
  assert (Hs : session_bounded s) by apply (session_bounded_run Hs0 Ht).
  assert (Hp : peak_bounded s)
    by apply (peak_bounded_run Hs0 Ht (peak_bounded_setup reads t0)).
  pose proof Hs as (_ & Hf & Hpf & Hv).
  split; [exact (proj2 Hf)|]. split; [exact (proj2 Hp)|].
  split; [exact (signed_not_nan _ Hv)|].
  intros i Hi. pose proof (tick_flow_bounded Hs Hi) as Hfl.
  pose proof (tick_dt_bounded s i) as Hdt.
  pose proof (increment_bounded Hfl Hpf Hdt) as Hinc.
  split; [exact (proj2 Hfl)|]. split; [apply Hdt | apply Hinc].
Qed.

(** X13 after the first two passes of the run [breath]. *)
Lemma X13_witness :
  currentVol (fst (run (setup (F:=B32.t) (repeat 500%Z 50) 0)
                       (firstn 2 Scenario.breath))) <> S754_nan.
Proof.
  assert (H1 : Forall adc_read (repeat 500%Z 50)).
  { apply Forall_forall. intros r Hin. apply repeat_spec in Hin. subst r.
    unfold adc_read. lia. }
  assert (H2 : Forall adc_sample (firstn 2 Scenario.breath)).
  { repeat constructor; cbn; lia. }
  exact (proj1 (proj2 (proj2 (X13_binary32_session_stays_finite 0%Z H1 H2)))).
Defined.

(** ** The end of a breath is reached *)

(** X14.  In binary32, for calibration readings and samples in the range of
    the converter: once 96 consecutive samples have been in the deadzone,
    the flow of every further pass with a sample in the deadzone is a finite
    number between 0 and 0.94, at or below CUTOFF_THRESHOLD and not above
    START_THRESHOLD, whatever the filter held before; such a pass finalizes
    the breath of a breathing session exactly when its clock reading is more
    than BREATH_TIMEOUT past the stop timer. *)
Theorem X14_breath_ends_once_the_flow_has_decayed :
  forall (reads : list Z) (t0 : Z) (ticks0 ticks : list Tick) (j : Tick),
    Forall adc_read reads -> Forall adc_sample ticks0 ->
    let s := fst (run (setup (F:=B32.t) reads t0) ticks0) in
    Forall (in_deadzone s) (ticks ++ [j]) ->
    (96 <= length ticks)%nat ->
    let s' := fst (run s ticks) in
    bounded (tick_flow s' j) 0.94 /\
    fle (tick_flow s' j) CUTOFF_THRESHOLD = true /\
    flt START_THRESHOLD (tick_flow s' j) = false /\
    ends_breath s' j
    = isBreathing s'
      && (BREATH_TIMEOUT <? wrap32 (t_stop (clk j) - breathStopTimer s'))%Z.
Proof.
  intros reads t0 ticks0 ticks j Hr Ht s Hall Hlen s'.
  pose proof (session_tight_setup t0 Hr) as H0.
  assert (Hs : session_tight s) by exact (session_tight_run H0 Ht).
  destruct Hs as (_ & Hf & _).
  pose proof (deadzone_flow_decayed ticks j Hf Hall Hlen) as Hflow.
  fold s' in Hflow.
  assert (Hc : fle (tick_flow s' j) CUTOFF_THRESHOLD = true).
  { apply (below_cutoff_of_value Hflow); [lra | apply flowOf_normal]. }
  destruct (below_cutoff _ Hc) as [_ Hq].
  split; [exact Hflow|]. split; [exact Hc|]. split; [exact Hq|].
  rewrite ends_breath_spec, Hq, Hc. cbn [orb]. now rewrite andb_true_r.
Qed.

(** X14 on a breath: calibrated at 500, one pass at the sample 600 starts
    a breath, and 96 passes at the sample 500 follow, one millisecond apart.
    The session is still Breathing; a further pass at the sample 500, at
    1100 ms, finalizes the breath. *)
Lemma X14_witness :
  let s := fst (run (setup (F:=B32.t) (repeat 500%Z 50) 0)
                    [Scenario.at_time 600 1]) in
  let ticks := map (fun n => Scenario.at_time 500 (Z.of_nat n)) (seq 2 96) in
  let s' := fst (run s ticks) in
  isBreathing s' = true /\
  flt (of_int 0) (previousFlow s') = true /\
  ends_breath s' (Scenario.at_time 500 1100) = true.
Proof.
  intros s ticks s'.
  assert (H1 : Forall adc_read (repeat 500%Z 50)).
  { apply Forall_forall. intros r Hin. apply repeat_spec in Hin. subst r.
    unfold adc_read. lia. }
  assert (H2 : Forall adc_sample [Scenario.at_time 600 1]).
  { apply Forall_cons; [unfold adc_sample; cbn; lia | apply Forall_nil]. }
  assert (Hdz : forall t, in_deadzone s (Scenario.at_time 500 t)).
  { intros t. unfold in_deadzone, s. rewrite run_offset.
    rewrite setup_offset_32 by lia. vm_compute. reflexivity. }
  assert (H3 : Forall (in_deadzone s) (ticks ++ [Scenario.at_time 500 1100])).
  { apply Forall_forall. intros i Hin.
    apply in_app_or in Hin. destruct Hin as [Hin | [<- | []]].
    - apply in_map_iff in Hin. destruct Hin as (n & <- & _). apply Hdz.
    - apply Hdz. }
  assert (H4 : (96 <= length ticks)%nat)
    by (unfold ticks; rewrite length_map, length_seq; lia).
  assert (Hb : isBreathing s' = true) by (vm_compute; reflexivity).
  assert (Hp : flt (of_int 0) (previousFlow s') = true)
    by (vm_compute; reflexivity).
  assert (Hd : (BREATH_TIMEOUT <?
                wrap32 (t_stop (clk (Scenario.at_time 500 1100))
                        - breathStopTimer s'))%Z = true)
    by (vm_compute; reflexivity).
  split; [exact Hb|]. split; [exact Hp|].
  transitivity
    (isBreathing s'
     && (BREATH_TIMEOUT <?
         wrap32 (t_stop (clk (Scenario.at_time 500 1100))
                 - breathStopTimer s'))%Z).
  - exact (proj2 (proj2 (proj2
             (@X14_breath_ends_once_the_flow_has_decayed
                (repeat 500%Z 50) 0%Z [Scenario.at_time 600 1] ticks
                (Scenario.at_time 500 1100) H1 H2 H3 H4)))).
  - rewrite Hb, Hd. reflexivity.
Defined.
